(** * SNOW peak extraction ([porespy/network_extraction/__snow__.py])

    A shallow embedding of the peak-refinement pipeline of the SNOW
    algorithm: [find_peaks], [trim_saddle_points], [trim_nearby_peaks] and
    the orchestrating [snow], together with the parts of numpy,
    scipy.ndimage, scipy.spatial and skimage.morphology they call.

    Modelling conventions.
    - An N-dimensional array is a shape and a flat buffer in C (row-major)
      order, as in numpy.  Indices are lists of integers.
    - Field values are exact rationals ([Q]); numpy's [==] and [<] on them
      are [Qeq_bool] and strict rational comparison.  A Euclidean distance
      between integer points is kept as its square, and [sqrt d2 < v] is
      decided as [0 < v /\ d2 < v * v].
    - Exceptions that the functions of the file raise, or let through from
      a library call on an input the pipeline can produce, are values of
      the type [result].  numpy and scipy also raise on ill-formed calls
      (an index outside the array, a structuring element whose rank is
      not that of the image, arrays of different shapes); the model is
      total there and the statements are read for images and fields of one
      shape. *)

From Stdlib Require Import List ZArith QArith Qround Bool Lia Lqa Arith Permutation.
Import ListNotations.

Set Implicit Arguments.
Local Open Scope Z_scope.

(** ** Exceptions *)

Inductive error : Type :=
| UnsupportedDimension  (* "only 2-d and 3-d images are supported" *)
| ValueError.           (* numpy: "need at least one array to concatenate" *)

Inductive result (A : Type) : Type :=
| Ok (a : A)
| Raise (e : error).
Arguments Ok {A} a.
Arguments Raise {A} e.

Definition bind {A B} (r : result A) (k : A -> result B) : result B :=
  match r with
  | Ok a => k a
  | Raise e => Raise e
  end.

Notation "x <- r ;; k" := (bind r (fun x => k))
  (at level 61, r at next level, right associativity).

(** ** numpy arrays *)

Module NDArray.

Definition coord := list Z.

Fixpoint size (sh : list nat) : nat :=
  match sh with
  | [] => 1%nat
  | n :: sh' => (n * size sh')%nat
  end.

(** [numpy.ravel_multi_index]: the position of an index in the flat buffer,
    [None] when the index has the wrong rank or is out of bounds. *)
Fixpoint ravel (sh : list nat) (x : coord) : option nat :=
  match sh, x with
  | [], [] => Some 0%nat
  | n :: sh', i :: x' =>
      if (0 <=? i) && (i <? Z.of_nat n) then
        match ravel sh' x' with
        | Some k => Some (Z.to_nat i * size sh' + k)%nat
        | None => None
        end
      else None
  | _, _ => None
  end.

(** [numpy.unravel_index]. *)
Fixpoint unravel (sh : list nat) (k : nat) : coord :=
  match sh with
  | [] => []
  | n :: sh' => Z.of_nat (k / size sh') :: unravel sh' (k mod size sh')
  end.

(** [numpy.ndindex]: every index of the shape, in C order. *)
Definition ndindex (sh : list nat) : list coord :=
  map (unravel sh) (seq 0 (size sh)).

Definition inb (sh : list nat) (x : coord) : bool :=
  match ravel sh x with Some _ => true | None => false end.

Record ndarray (A : Type) : Type := mk { shape : list nat; data : list A }.

Definition ndim {A} (a : ndarray A) : nat := length (shape a).

(** [a[x]] for an index inside the array; [d] stands for the IndexError
    numpy raises elsewhere, which the pipeline never triggers. *)
Definition get {A} (d : A) (a : ndarray A) (x : coord) : A :=
  match ravel (shape a) x with
  | Some k => nth k (data a) d
  | None => d
  end.

(** The array of shape [sh] holding [f x] at every index [x]. *)
Definition tabulate {A} (sh : list nat) (f : coord -> A) : ndarray A :=
  mk sh (map f (ndindex sh)).

(** [numpy.full(sh, v)]. *)
Definition full {A} (sh : list nat) (v : A) : ndarray A :=
  tabulate sh (fun _ => v).

(** [a.squeeze()]: axes of length one are dropped, the buffer is shared. *)
Definition squeeze {A} (a : ndarray A) : ndarray A :=
  mk (filter (fun n => negb (n =? 1)%nat) (shape a)) (data a).

End NDArray.

Import NDArray.

(** ** Index arithmetic and elementwise operations *)

Fixpoint vadd (x y : coord) : coord :=
  match x, y with
  | i :: x', j :: y' => (i + j) :: vadd x' y'
  | _, _ => []
  end.

Fixpoint vsub (x y : coord) : coord :=
  match x, y with
  | i :: x', j :: y' => (i - j) :: vsub x' y'
  | _, _ => []
  end.

Fixpoint coord_eqb (x y : coord) : bool :=
  match x, y with
  | [], [] => true
  | i :: x', j :: y' => (i =? j) && coord_eqb x' y'
  | _, _ => false
  end.

(** numpy's [<] and [==] on field values. *)
Definition Qltb (a b : Q) : bool := negb (Qle_bool b a).

(** [dt > 0] *)
Definition gt0 (dt : ndarray Q) : ndarray bool :=
  tabulate (shape dt) (fun x => Qltb 0 (get 0%Q dt x)).

(** [~im] *)
Definition anot (im : ndarray bool) : ndarray bool :=
  tabulate (shape im) (fun x => negb (get false im x)).

(** [k*b] for an integer [k] and a boolean array [b] *)
Definition scale_mask (k : Q) (b : ndarray bool) : ndarray Q :=
  tabulate (shape b) (fun x => if get false b x then k else 0%Q).

(** [a + b] on field values *)
Definition aplus (a b : ndarray Q) : ndarray Q :=
  tabulate (shape a) (fun x => (get 0%Q a x + get 0%Q b x)%Q).

(** [a*b] for a field [a] and a boolean array [b] *)
Definition amask (a : ndarray Q) (b : ndarray bool) : ndarray Q :=
  tabulate (shape a) (fun x => if get false b x then get 0%Q a x else 0%Q).

(** [a == b] on field values *)
Definition aeq (a b : ndarray Q) : ndarray bool :=
  tabulate (shape a) (fun x => Qeq_bool (get 0%Q a x) (get 0%Q b x)).

(** [a*b] on boolean arrays *)
Definition aand (a b : ndarray bool) : ndarray bool :=
  tabulate (shape a) (fun x => get false a x && get false b x).

(** [a == b] on boolean arrays *)
Definition aeqb (a b : ndarray bool) : ndarray bool :=
  tabulate (shape a) (fun x => Bool.eqb (get false a x) (get false b x)).

(** [sp.all(a)] *)
Definition all (a : ndarray bool) : bool :=
  forallb (get false a) (ndindex (shape a)).

(** [sp.sum(a)] of a boolean array *)
Definition asum (a : ndarray bool) : nat :=
  length (filter (get false a) (ndindex (shape a))).

Definition qmax (a b : Q) : Q := if Qle_bool a b then b else a.

Definition max_list (l : list Q) : Q :=
  match l with
  | [] => 0%Q
  | v :: l' => fold_left qmax l' v
  end.

(** [sp.amax(a)]; numpy raises on an array without elements, which the
    pipeline never builds (a window always holds its blob). *)
Definition amax (a : ndarray Q) : Q :=
  max_list (map (get 0%Q a) (ndindex (shape a))).

(** ** Slices *)

(** A tuple of [slice(start, stop)], one per axis. *)
Definition slices := list (Z * Z).

Fixpoint in_slice (s : slices) (x : coord) : bool :=
  match s, x with
  | [], [] => true
  | (lo, hi) :: s', i :: x' => (lo <=? i) && (i <? hi) && in_slice s' x'
  | _, _ => false
  end.

Definition slice_start (s : slices) : coord := map fst s.

Definition slice_shape (s : slices) : list nat :=
  map (fun p => Z.to_nat (snd p - fst p)) s.

(** [a[s]] *)
Definition getslice {A} (d : A) (a : ndarray A) (s : slices) : ndarray A :=
  tabulate (slice_shape s) (fun y => get d a (vadd y (slice_start s))).

(** The right-hand side of [a[s] = v]: an array of the window's shape, or a
    scalar that numpy broadcasts over the window. *)
Inductive rhs (A : Type) : Type :=
| Arr (b : ndarray A)
| Scalar (v : A).
Arguments Arr {A} b.
Arguments Scalar {A} v.

(** [a[s] = v] *)
Definition setslice {A} (d : A) (a : ndarray A) (s : slices) (v : rhs A) : ndarray A :=
  tabulate (shape a)
    (fun x => if in_slice s x then
                match v with
                | Arr b => get d b (vsub x (slice_start s))
                | Scalar c => c
                end
              else get d a x).

(** ** skimage.morphology *)

Module Morphology.

Definition sumsq (x : coord) : Z := fold_right (fun i acc => i * i + acc) 0 x.

Definition centred (r : nat) (p : coord) : coord := map (fun i => i - Z.of_nat r) p.

(** [disk(r)]: [X**2 + Y**2 <= r**2] on the grid [-r..r]. *)
Definition disk (r : nat) : ndarray bool :=
  tabulate [2 * r + 1; 2 * r + 1]%nat
    (fun p => sumsq (centred r p) <=? Z.of_nat r * Z.of_nat r).

(** [ball(r)] *)
Definition ball (r : nat) : ndarray bool :=
  tabulate [2 * r + 1; 2 * r + 1; 2 * r + 1]%nat
    (fun p => sumsq (centred r p) <=? Z.of_nat r * Z.of_nat r).

(** [square(w)] and [cube(w)] *)
Definition square (w : nat) : ndarray bool := full [w; w] true.
Definition cube (w : nat) : ndarray bool := full [w; w; w] true.

End Morphology.

(** ** scipy.ndimage *)

Module NDImage.

(** Offsets of the true cells of a structuring element from its centre
    (origin 0: the centre is at [shape // 2]). *)
Definition centre (fp : ndarray bool) : coord :=
  map (fun n => Z.of_nat (n / 2)) (shape fp).

Definition offsets (fp : ndarray bool) : list coord :=
  map (fun p => vsub p (centre fp))
      (filter (get false fp) (ndindex (shape fp))).

(** Boundary mode [reflect] (the default of the filters):
    [d c b a | a b c d | d c b a]. *)
Definition reflect1 (n : nat) (i : Z) : Z :=
  let m := i mod (2 * Z.of_nat n) in
  if m <? Z.of_nat n then m else 2 * Z.of_nat n - 1 - m.

Fixpoint reflect (sh : list nat) (x : coord) : coord :=
  match sh, x with
  | n :: sh', i :: x' => reflect1 n i :: reflect sh' x'
  | _, _ => []
  end.

(** [maximum_filter(input, footprint=fp)], for a footprint of the rank of
    the input; scipy raises RuntimeError for any other footprint. *)
Definition maximum_filter (input : ndarray Q) (fp : ndarray bool) : ndarray Q :=
  tabulate (shape input)
    (fun x => max_list (map (fun o => get 0%Q input (reflect (shape input) (vadd x o)))
                            (offsets fp))).

(** [binary_dilation(input, structure)]: one iteration, border value 0. *)
Definition binary_dilation (input structure : ndarray bool) : ndarray bool :=
  tabulate (shape input)
    (fun x => existsb (fun o => get false input (vsub x o)) (offsets structure)).

(** [generate_binary_structure(rank, 1)], the default structure of [label]:
    the centre and its face neighbours. *)
Definition cross (rank : nat) : ndarray bool :=
  tabulate (repeat 3%nat rank)
    (fun p => fold_right (fun i acc => Z.abs (i - 1) + acc) 0 p <=? 1).

(** The connected component of [comp] inside [mask]: grown by the structure
    until nothing is added. *)
Fixpoint flood (fuel : nat) (mask structure comp : ndarray bool) : ndarray bool :=
  match fuel with
  | O => comp
  | S fuel' =>
      let grown := binary_dilation comp structure in
      let comp' := tabulate (shape mask)
                     (fun x => get false comp x
                               || (get false mask x && get false grown x)) in
      if all (aeqb comp' comp) then comp else flood fuel' mask structure comp'
  end.

Definition label_visit (mask structure : ndarray bool)
    (st : ndarray Z * nat) (x : coord) : ndarray Z * nat :=
  let (labels, n) := st in
  if get false mask x && (get 0 labels x =? 0) then
    let seed := tabulate (shape mask) (coord_eqb x) in
    let comp := flood (size (shape mask)) mask structure seed in
    (tabulate (shape mask)
       (fun y => if get false comp y then Z.of_nat (S n) else get 0 labels y),
     S n)
  else st.

(** [label(input, structure)], for a structure of the rank of the input
    (scipy raises RuntimeError for any other structure): components are
    numbered from 1 in the order in which a C-order scan meets their first
    cell. *)
Definition label (input structure : ndarray bool) : ndarray Z * nat :=
  fold_left (label_visit input structure) (ndindex (shape input))
            (full (shape input) 0, 0%nat).

Definition grow_box (s : slices) (x : coord) : slices :=
  map (fun p => (Z.min (fst (fst p)) (snd p), Z.max (snd (fst p)) (snd p + 1)))
      (combine s x).

Definition bounding_box (labels : ndarray Z) (l : Z) : option slices :=
  match filter (fun x => get 0 labels x =? l) (ndindex (shape labels)) with
  | [] => None
  | x :: xs => Some (fold_left grow_box xs (map (fun i => (i, i + 1)) x))
  end.

(** [find_objects(labels)]: the bounding box of every label from 1 to the
    largest one, [None] for a label that does not occur. *)
Definition find_objects (labels : ndarray Z) : list (option slices) :=
  let max_label := fold_left Z.max (map (get 0 labels) (ndindex (shape labels))) 0 in
  map (fun l => bounding_box labels (Z.of_nat l)) (seq 1 (Z.to_nat max_label)).

(** [center_of_mass(input, labels, index)]: per label, the mean index
    weighted by [input]; a point is a list of rationals. *)
Definition center_of_mass (input labels : ndarray Z) (index : list nat) : list (list Q) :=
  map (fun l =>
         let cells := filter (fun x => get 0 labels x =? Z.of_nat l)
                             (ndindex (shape labels)) in
         let total := fold_right (fun x acc => get 0 input x + acc) 0 cells in
         map (fun k =>
                let moment := fold_right (fun x acc => get 0 input x * nth k x 0 + acc)
                                         0 cells in
                Qdiv (inject_Z moment) (inject_Z total))
             (seq 0 (ndim labels)))
      index.

End NDImage.

(** ** scipy.spatial *)

Module Spatial.

(** Squared Euclidean distance of two integer points. *)
Definition dist2 (p q : coord) : Z := Morphology.sumsq (vsub p q).

(** The entry of least distance, the first one among equals. *)
Fixpoint closest (l : list (Z * nat)) : option (Z * nat) :=
  match l with
  | [] => None
  | e :: l' =>
      match closest l' with
      | Some e' => if fst e' <? fst e then Some e' else Some e
      | None => Some e
      end
  end.

(** Column 1 of [cKDTree(data).query(p, k=2)]: the second nearest data point
    to [p] as (squared distance, index); [None] stands for the pair
    (inf, n) returned when the tree holds a single point.  Which of several
    equidistant points the tree reports is not fixed by scipy; the model
    takes the one of least index. *)
Definition query2 (data : list coord) (p : coord) : option (Z * nat) :=
  let cand := combine (map (dist2 p) data) (seq 0 (length data)) in
  match closest cand with
  | None => None
  | Some (_, j0) => closest (filter (fun e => negb (snd e =? j0)%nat) cand)
  end.

End Spatial.

(** ** The SNOW functions *)

Module Snow.

Import Morphology NDImage Spatial.

(** [find_peaks(dt, r=4, footprint=None)].  A footprint is passed as the
    function that the code calls on [r]. *)
Definition find_peaks (dt : ndarray Q) (r : nat)
    (footprint : option (nat -> ndarray bool)) : result (ndarray bool) :=
  let dt := squeeze dt in
  let im := gt0 dt in
  footprint <- match footprint with
               | Some f => Ok f
               | None =>
                   if (ndim im =? 2)%nat then Ok disk
                   else if (ndim im =? 3)%nat then Ok ball
                   else Raise UnsupportedDimension
               end ;;
  let mx := maximum_filter (aplus dt (scale_mask 2 (anot im))) (footprint r) in
  Ok (aand (aeq dt mx) im).

(** Modelled from the spec: [extend_slice] is called by
    [trim_saddle_points] but defined outside this file; the spec describes
    the window as the blob's bounding box padded by a fixed margin and
    clamped to the array bounds. *)
Definition extend_slice (s : slices) (sh : list nat) (pad : Z) : slices :=
  map (fun p => (Z.max (fst (fst p) - pad) 0,
                 Z.min (snd (fst p) + pad) (Z.of_nat (snd p))))
      (combine s sh).

(** The [while] loop of [trim_saddle_points] over a blob's window, with
    [iters_left] passes to go; the result is the value of [peaks_i] when
    the loop is left. *)
Fixpoint grow_blob (iters_left : nat) (structure : ndarray bool)
    (dt_i : ndarray Q) (im_i peaks_i peaks_dil : ndarray bool) : rhs bool :=
  match iters_left with
  | O => Arr peaks_i
  | S n =>
      let peaks_dil := binary_dilation peaks_dil structure in
      let peaks_max := scale_mask (amax (amask dt_i peaks_dil)) peaks_dil in
      let peaks_extended := aand (aeq peaks_max dt_i) im_i in
      if all (aeqb peaks_extended peaks_i) then Arr peaks_i  (* Found a true peak *)
      else if (asum (aand peaks_extended peaks_i) =? 0)%nat
           then Scalar false                                 (* Found a saddle point *)
           else grow_blob n structure dt_i im_i peaks_i peaks_dil
  end.

(** The window [s] of blob [i] (0-based).  [label] numbers the blobs
    densely, so [slices[i]] is never [None] in the loop. *)
Definition window (peaks : ndarray bool) (slices_ : list (option slices)) (i : nat) : slices :=
  match nth i slices_ None with
  | Some b => extend_slice b (shape peaks) 10
  | None => []
  end.

(** The body of the [for] loop of [trim_saddle_points]. *)
Definition trim_blob (dt : ndarray Q) (max_iters : nat) (structure : ndarray bool)
    (labels : ndarray Z) (slices_ : list (option slices))
    (peaks : ndarray bool) (i : nat) : ndarray bool :=
  let s := window peaks slices_ i in
  let peaks_i := tabulate (slice_shape s)
                   (fun y => get 0 (getslice 0 labels s) y =? Z.of_nat (i + 1)) in
  let dt_i := getslice 0%Q dt s in
  let im_i := gt0 dt_i in
  let peaks_dil := peaks_i in
  setslice false peaks s (grow_blob max_iters structure dt_i im_i peaks_i peaks_dil).

(** [trim_saddle_points(peaks, dt, max_iters=10)] *)
Definition trim_saddle_points (peaks : ndarray bool) (dt : ndarray Q)
    (max_iters : nat) : ndarray bool :=
  let cube := if (ndim dt =? 2)%nat then square else cube in
  let (labels, N) := label peaks (cross (ndim peaks)) in
  let slices_ := find_objects labels in
  fold_left (trim_blob dt max_iters (cube 3%nat) labels slices_) (seq 0 N) peaks.

(** [astype(int)]: truncation toward zero. *)
Definition trunc (q : Q) : Z := Z.quot (Qnum q) (Zpos (Qden q)).

(** [sp.vstack(crds).astype(int)]; [vstack] raises on an empty sequence. *)
Definition vstack_int (crds : list (list Q)) : result (list coord) :=
  match crds with
  | [] => Raise ValueError
  | _ => Ok (map (map trunc) crds)
  end.

(** [sqrt d2 < v] *)
Definition nearer_than (d2 : Z) (v : Q) : bool :=
  Qltb 0 v && Qltb (inject_Z d2) (v * v).

(** [dist_to_neighbor < dist_to_solid] for one peak: the distance is the
    square root of [d2], or inf. *)
Definition closer (d : option (Z * nat)) (v : Q) : bool :=
  match d with
  | Some (d2, _) => nearer_than d2 v
  | None => false
  end.

(** [nearest_neighbor[i]]; the tree reports the index [n] for a missing
    neighbour. *)
Definition neighbour_index (n : nat) (d : option (Z * nat)) : nat :=
  match d with
  | Some (_, j) => j
  | None => n
  end.

(** The body of the loop over [hits]: the peak that is appended to
    [drop_peaks]. *)
Definition drop_choice (dist_to_solid : list Q) (nearest_neighbor : list nat)
    (peak : nat) : nat :=
  let nn := nth peak nearest_neighbor 0%nat in
  if Qltb (nth peak dist_to_solid 0%Q) (nth nn dist_to_solid 0%Q)
  then peak else nn.

(** [sp.unique]: the distinct values in increasing order. *)
Definition unique (l : list nat) : list nat :=
  filter (fun i => existsb (Nat.eqb i) l) (seq 0 (S (list_max l))).

(** [peaks[slices[s]] = 0] *)
Definition clear_box (slices_ : list (option slices)) (labels : ndarray Z) (s : nat)
    : ndarray Z :=
  match nth s slices_ None with
  | Some b => setslice 0 labels b (Scalar 0)
  | None => labels
  end.

Record neighbours : Type := mkNeighbours {
  crds : list coord;
  nearest_neighbor : list nat;
  dist_to_neighbor : list (option (Z * nat));
  dist_to_solid : list Q;
  hits : list nat;
  drop_peaks : list nat
}.

(** Lines 184-202 of [trim_nearby_peaks]: everything computed from the
    labelled image before it is modified. *)
Definition analyse (labels : ndarray Z) (N : nat) (dt : ndarray Q) : result neighbours :=
  let crds := center_of_mass labels labels (seq 1 N) in
  crds <- vstack_int crds ;;
  let temp := map (query2 crds) crds in
  let nearest_neighbor := map (neighbour_index (length crds)) temp in
  let dist_to_neighbor := temp in
  let dist_to_solid := map (get 0%Q dt) crds in
  let hits := filter (fun i => closer (nth i dist_to_neighbor None)
                                      (nth i dist_to_solid 0%Q))
                     (seq 0 (length crds)) in
  let drop_peaks := map (drop_choice dist_to_solid nearest_neighbor) hits in
  Ok (mkNeighbours crds nearest_neighbor dist_to_neighbor dist_to_solid hits
                   (unique drop_peaks)).

(** [trim_nearby_peaks(peaks, dt)] *)
Definition trim_nearby_peaks (peaks : ndarray bool) (dt : ndarray Q)
    : result (ndarray bool) :=
  let cube := if (ndim dt =? 2)%nat then square else cube in
  let (labels, N) := label peaks (cube 3%nat) in
  nb <- analyse labels N dt ;;
  let slices_ := find_objects labels in
  let labels := fold_left (clear_box slices_) (drop_peaks nb) labels in
  Ok (tabulate (shape labels) (fun x => 0 <? get 0 labels x)).

(** [snow(im, sigma=0)] for a field [im] supplied by the caller: the
    distance transform and the Gaussian filter, which are external, are
    skipped on this path.  [r_max] is not passed on to [find_peaks]. *)
Definition snow (im : ndarray Q) : result (ndarray Z) :=
  let im := squeeze im in
  let dt := im in
  peaks <- find_peaks dt 4 None ;;
  let peaks := trim_saddle_points peaks dt 10 in
  peaks <- trim_nearby_peaks peaks dt ;;
  let (peaks, N) := label peaks (cross (ndim peaks)) in
  Ok peaks.

(** A boolean image read as numbers, as [center_of_mass] does. *)
Definition as_int (peaks : ndarray bool) : ndarray Z :=
  tabulate (shape peaks) (fun x => if get false peaks x then 1 else 0).

(** [peaks[tuple(inds.T)] = True].  For an empty [inds] the index is the
    empty tuple, which addresses the whole array. *)
Definition set_points (peaks : ndarray bool) (inds : list coord) : ndarray bool :=
  match inds with
  | [] => full (shape peaks) true
  | _ => tabulate (shape peaks)
           (fun x => existsb (coord_eqb x) inds || get false peaks x)
  end.

(** [reduce_peaks_to_points(peaks)].  The structure is always the
    3-dimensional [cube(3)], and [label] raises RuntimeError ("structure
    and input must have equal rank") for an image of another rank: that is
    [None]. *)
Definition reduce_peaks_to_points (peaks : ndarray bool) : option (ndarray bool) :=
  if (ndim peaks =? 3)%nat then
    let (markers, N) := label peaks (cube 3) in
    let inds := center_of_mass (as_int peaks) markers (seq 1 (N - 1)) in
    let inds := map (map Qfloor) inds in
    let peaks := full (shape peaks) false in
    Some (set_points peaks inds)
  else None.

End Snow.

Import Morphology NDImage Spatial Snow.

(** * Notions used in the statements *)

(** The state of the scan: labels are non-negative, sit on the mask only,
    and every mask cell visited so far has one. *)
Definition label_inv (mask : ndarray bool) (visited : list coord) (st : ndarray Z * nat) : Prop :=
  shape (fst st) = shape mask
  /\ (forall y, 0 <= get 0 (fst st) y)
  /\ (forall y, get 0 (fst st) y <> 0 -> get false mask y = true)
  /\ (forall y, In y visited -> get false mask y = true -> get 0 (fst st) y <> 0).

(** A structuring element that holds, with every offset, the opposite
    one. *)
Definition symmetric (structure : ndarray bool) : bool :=
  forallb (fun o => existsb (coord_eqb (map Z.opp o)) (offsets structure))
          (offsets structure).

(** The state of the scan, seen blob by blob: every number handed out so
    far sits on some cell, and the set cells next to a labelled cell are
    labelled. *)
Definition label_dense (mask structure : ndarray bool) (st : ndarray Z * nat) : Prop :=
  (forall l, (1 <= l <= snd st)%nat ->
     exists y, inb (shape mask) y = true /\ get 0 (fst st) y = Z.of_nat l)
  /\ (forall z o, In o (offsets structure) -> get 0 (fst st) z <> 0 ->
        get false mask (vsub z o) = true -> get 0 (fst st) (vsub z o) <> 0).

(** The blob mask of blob [i] inside its window, [labels[s] == i+1]. *)
Definition blob_mask (labels : ndarray Z) (s : slices) (i : nat) : ndarray bool :=
  tabulate (slice_shape s)
    (fun y => get 0 (getslice 0 labels s) y =? Z.of_nat (i + 1)).

(** What the loop of blob [i] leaves in [peaks_i]. *)
Definition blob_outcome (dt : ndarray Q) (max_iters : nat) (structure : ndarray bool)
    (labels : ndarray Z) (s : slices) (i : nat) : rhs bool :=
  grow_blob max_iters structure (getslice 0%Q dt s) (gt0 (getslice 0%Q dt s))
            (blob_mask labels s i) (blob_mask labels s i).

(** [peaks_dil] after [k] passes of the loop, and the trial mask
    ([peaks_extended]) and the two tests of pass [k]. *)
Fixpoint dilated (structure peaks_i : ndarray bool) (k : nat) : ndarray bool :=
  match k with
  | O => peaks_i
  | S k' => binary_dilation (dilated structure peaks_i k') structure
  end.

Definition trial_mask (structure : ndarray bool) (dt_i : ndarray Q)
    (im_i peaks_i : ndarray bool) (k : nat) : ndarray bool :=
  let peaks_dil := dilated structure peaks_i k in
  let peaks_max := scale_mask (amax (amask dt_i peaks_dil)) peaks_dil in
  aand (aeq peaks_max dt_i) im_i.

Definition found_true_peak structure dt_i im_i peaks_i (k : nat) : bool :=
  all (aeqb (trial_mask structure dt_i im_i peaks_i k) peaks_i).

Definition found_saddle structure dt_i im_i peaks_i (k : nat) : bool :=
  (asum (aand (trial_mask structure dt_i im_i peaks_i k) peaks_i) =? 0)%nat.

(** [spim.label(peaks)[1]], the peak count that [snow] prints. *)
Definition count_peaks (peaks : ndarray bool) : nat :=
  snd (label peaks (cross (ndim peaks))).

(** The centroids and neighbour data of a mask, as [trim_nearby_peaks]
    computes them. *)
Definition analysis (peaks : ndarray bool) (dt : ndarray Q) : result neighbours :=
  let st := label peaks ((if (ndim dt =? 2)%nat then square else cube) 3%nat) in
  analyse (fst st) (snd st) dt.

(** The merge-trigger condition of two centroids: their distance is less
    than the field value at each of them. *)
Definition merge_trigger (dt : ndarray Q) (p q : coord) : bool :=
  nearer_than (dist2 p q) (get 0%Q dt p) && nearer_than (dist2 p q) (get 0%Q dt q).

(** [neighborhood(x, r)] as the specification words it, the disk or ball
    of radius [r] around [x]: the cells of the array within Euclidean
    distance [r] of [x]; and the maximum of a field over it. *)
Definition neighbourhood (sh : list nat) (r : nat) (x : coord) : list coord :=
  filter (fun y => dist2 y x <=? Z.of_nat r * Z.of_nat r) (ndindex sh).

Definition neighbourhood_max (f : ndarray Q) (r : nat) (x : coord) : Q :=
  max_list (map (get 0%Q f) (neighbourhood (shape f) r x)).

(** The field that [find_peaks] hands to the maximum filter,
    [dt + 2*(~im)]. *)
Definition biased (dt : ndarray Q) : ndarray Q :=
  aplus dt (scale_mask 2 (anot (gt0 dt))).

(** [disk] and [ball] are the balls of rank 2 and 3. *)
Definition nball (rank r : nat) : ndarray bool :=
  tabulate (repeat (2 * r + 1)%nat rank)
    (fun p => sumsq (centred r p) <=? Z.of_nat r * Z.of_nat r).

(** The value of a computation that returns. *)
Definition returned {A} (d : A) (r : result A) : A :=
  match r with
  | Ok a => a
  | Raise _ => d
  end.

(** Whether the loop of blob [i] kept the blob. *)
Definition blob_kept (dt : ndarray Q) (max_iters : nat) (structure : ndarray bool)
    (labels : ndarray Z) (s : slices) (i : nat) : bool :=
  match blob_outcome dt max_iters structure labels s i with
  | Arr _ => true
  | Scalar c => c
  end.

Definition in_box (slices_ : list (option slices)) (x : coord) (s : nat) : bool :=
  match nth s slices_ None with
  | Some b => in_slice b x
  | None => false
  end.

(** The centre of mass of one label. *)
Definition centroid (input labels : ndarray Z) (l : nat) : list Q :=
  let cells := filter (fun x => get 0 labels x =? Z.of_nat l) (ndindex (shape labels)) in
  let total := fold_right (fun x acc => get 0 input x + acc) 0 cells in
  map (fun k =>
         let moment := fold_right (fun x acc => get 0 input x * nth k x 0 + acc) 0 cells in
         Qdiv (inject_Z moment) (inject_Z total))
      (seq 0 (ndim labels)).

(** The whole array as a slice. *)
Definition full_box (sh : list nat) : slices := map (fun n => (0, Z.of_nat n)) sh.

(** * Example images *)

(** Arrays written as nested lists, for examples. *)
Definition array2 {A} (rows : list (list A)) : ndarray A :=
  mk [length rows; length (hd [] rows)] (concat rows).

(** A single pore cell surrounded by solid. *)
Definition lone_pore : ndarray Q :=
  array2 [[0; 0; 0];
          [0; 1; 0];
          [0; 0; 0]]%Q.

(** A field with a low and a high maximum. *)
Definition low_high_dt : ndarray Q :=
  array2 [[1; 1; 1; 1; 1];
          [1; 2; 1; 3; 1];
          [1; 1; 1; 1; 1]]%Q.

(** Two isolated maxima of height 3 on a floor of height 1. *)
Definition two_peaks_dt : ndarray Q :=
  array2 [[1; 1; 1; 1; 1];
          [1; 3; 1; 3; 1];
          [1; 1; 1; 1; 1]]%Q.

Definition two_peaks : ndarray bool :=
  array2 [[false; false; false; false; false];
          [false; true;  false; true;  false];
          [false; false; false; false; false]].

(** A field that falls off row by row from a flat top row, with one
    isolated maximum below the middle of that row. *)
Definition ridge_dt : ndarray Q :=
  tabulate [7; 32]%nat
    (fun x => if coord_eqb x [6; 20] then 11%Q else inject_Z (10 - nth 0 x 0)).

(** An L-shaped blob with a one-cell blob inside its bounding box. *)
Definition corner_peaks : ndarray bool :=
  array2 [[true; false; true;  false];
          [true; false; false; false];
          [true; false; false; false];
          [true; true;  true;  true]].

Definition corner_dt : ndarray Q :=
  array2 [[1; 1; 5; 1];
          [1; 1; 1; 1];
          [3; 1; 1; 1];
          [1; 1; 1; 1]]%Q.

(** Three peaks in a row; the middle one is the nearest neighbour of both
    outer ones and has the smallest distance to solid. *)
Definition chain_peaks : ndarray bool :=
  array2 [[true;  false; true;  false; false; true];
          [false; false; false; false; false; false]].

Definition chain_dt : ndarray Q :=
  array2 [[6; 1; 5; 1; 1; 7];
          [1; 1; 1; 1; 1; 1]]%Q.

(** As [chain_dt], with a far peak that nothing contests. *)
Definition settled_dt : ndarray Q :=
  array2 [[3; 1; 5 # 2; 1; 1; 1];
          [1; 1; 1;     1; 1; 1]]%Q.

(** Two peaks with the same distance to solid. *)
Definition tie_peaks : ndarray bool :=
  array2 [[true;  false; true];
          [false; false; false]].

Definition tie_dt : ndarray Q :=
  array2 [[3; 1; 3];
          [1; 1; 1]]%Q.

(** A comb-shaped blob that reaches into the bounding box of an L-shaped
    blob without touching it. *)
Definition comb_peaks : ndarray bool :=
  array2 [[false; false; true;  false; true;  false; false];
          [true;  false; true;  false; true;  false; false];
          [true;  false; true;  true;  true;  true;  true];
          [true;  false; false; false; false; false; false];
          [true;  false; false; false; false; false; false];
          [true;  false; false; false; false; false; false];
          [true;  true;  true;  true;  true;  true;  false]].

Definition comb_dt : ndarray Q :=
  tabulate [7; 7]%nat
    (fun x => if coord_eqb x [1; 3] then 5%Q
              else if coord_eqb x [4; 1] then 4%Q else 1%Q).

(** Two one-cell blobs more than two paddings apart. *)
Definition far_peaks : ndarray bool :=
  tabulate [1; 23]%nat (fun x => coord_eqb x [0; 0] || coord_eqb x [0; 22]).

Definition far_dt : ndarray Q :=
  tabulate [1; 23]%nat
    (fun x => if coord_eqb x [0; 0] || coord_eqb x [0; 22] then 3%Q else 1%Q).

(** A window with a one-cell blob in its middle, on a maximum and on a
    slope. *)
Definition window_blob : ndarray bool :=
  array2 [[false; false; false];
          [false; true;  false];
          [false; false; false]].

Definition summit_dt : ndarray Q :=
  array2 [[1; 1; 1];
          [1; 3; 1];
          [1; 1; 1]]%Q.

Definition slope_dt : ndarray Q :=
  array2 [[1; 1; 1];
          [1; 2; 3];
          [1; 1; 1]]%Q.

(** The only peak of [low_high_dt]. *)
Definition high_peak : ndarray bool :=
  array2 [[false; false; false; false; false];
          [false; false; false; true;  false];
          [false; false; false; false; false]].

(** One and three one-cell blobs in a 3-dimensional image. *)
Definition one_cell_3d : ndarray bool :=
  tabulate [1; 1; 5]%nat (fun x => coord_eqb x [0; 0; 2]).

Definition three_cells_3d : ndarray bool :=
  tabulate [1; 1; 5]%nat
    (fun x => coord_eqb x [0; 0; 0] || coord_eqb x [0; 0; 2] || coord_eqb x [0; 0; 4]).

(** A two-cell blob whose cells differ in height, next to a one-cell
    maximum: the higher cell alone is the trial mask of every pass, which
    neither equals the blob nor misses it. *)
Definition uneven_peaks : ndarray bool :=
  array2 [[false; false; false; false; false];
          [false; true;  true;  false; true];
          [false; false; false; false; false]].

Definition uneven_dt : ndarray Q :=
  array2 [[1; 1; 1; 1; 1];
          [1; 3; 2; 1; 2];
          [1; 1; 1; 1; 1]]%Q.

(** * Properties *)

(** ** Flat indices *)

Lemma ravel_lt sh : forall x k, ravel sh x = Some k -> (k < size sh)%nat.
Proof.
  induction sh as [|n sh IH]; intros [|i x] k H; simpl in H; try discriminate.
  - injection H as <-. simpl. lia.
  - destruct ((0 <=? i) && (i <? Z.of_nat n)) eqn:E; try discriminate.
    destruct (ravel sh x) as [k'|] eqn:R; try discriminate.
    injection H as <-. apply IH in R.
    apply andb_true_iff in E. destruct E as [E1 E2].
    apply Z.leb_le in E1. apply Z.ltb_lt in E2. simpl. nia.
Qed.

Lemma unravel_ravel sh : forall x k, ravel sh x = Some k -> unravel sh k = x.
Proof.
  induction sh as [|n sh IH]; intros [|i x] k H; simpl in H; try discriminate.
  - reflexivity.
  - destruct ((0 <=? i) && (i <? Z.of_nat n)) eqn:E; try discriminate.
    destruct (ravel sh x) as [k'|] eqn:R; try discriminate.
    injection H as <-.
    apply andb_true_iff in E. destruct E as [E1 E2].
    apply Z.leb_le in E1. apply Z.ltb_lt in E2.
    pose proof (ravel_lt _ _ R) as L. simpl.
    assert (S0 : size sh <> 0%nat) by lia.
    rewrite Nat.div_add_l by exact S0.
    rewrite (Nat.div_small k') by exact L.
    replace ((Z.to_nat i * size sh + k') mod size sh)%nat with k'
      by (rewrite (Nat.add_comm _ k'), Nat.Div0.mod_add, Nat.mod_small; auto).
    rewrite (IH _ _ R). f_equal. lia.
Qed.

Lemma ravel_unravel sh : forall k, (k < size sh)%nat -> ravel sh (unravel sh k) = Some k.
Proof.
  induction sh as [|n sh IH]; intros k H; simpl in *.
  - f_equal. lia.
  - assert (S0 : size sh <> 0%nat) by (intros E; rewrite E in H; lia).
    assert (D : (k / size sh < n)%nat).
    { apply Nat.Div0.div_lt_upper_bound. lia. }
    assert (M : (k mod size sh < size sh)%nat) by (apply Nat.mod_upper_bound; exact S0).
    replace ((0 <=? Z.of_nat (k / size sh)) && (Z.of_nat (k / size sh) <? Z.of_nat n))
      with true
      by (symmetry; apply andb_true_iff; split;
          [apply Z.leb_le | apply Z.ltb_lt]; lia).
    rewrite (IH _ M). f_equal. rewrite Nat2Z.id.
    pose proof (Nat.div_mod_eq k (size sh)). lia.
Qed.

Lemma in_ndindex sh x : In x (ndindex sh) <-> inb sh x = true.
Proof.
  unfold ndindex, inb. rewrite in_map_iff. split.
  - intros [k [<- Hk]]. apply in_seq in Hk.
    rewrite ravel_unravel by lia. reflexivity.
  - destruct (ravel sh x) as [k|] eqn:R; try discriminate. intros _.
    exists k. split; [eapply unravel_ravel; eauto|].
    apply in_seq. apply ravel_lt in R. lia.
Qed.

Lemma get_tabulate {A} (d : A) sh f x :
  inb sh x = true -> get d (tabulate sh f) x = f x.
Proof.
  unfold inb, get, tabulate, ndindex. simpl.
  destruct (ravel sh x) as [k|] eqn:R; try discriminate. intros _.
  pose proof (ravel_lt _ _ R) as L.
  rewrite map_map.
  rewrite nth_indep with (d' := f (unravel sh 0))
    by (rewrite length_map, length_seq; exact L).
  rewrite (map_nth (fun k => f (unravel sh k)) (seq 0 (size sh)) 0%nat k).
  rewrite seq_nth by exact L. simpl.
  rewrite (unravel_ravel _ _ R). reflexivity.
Qed.

Lemma get_outside {A} (d : A) a x : inb (shape a) x = false -> get d a x = d.
Proof.
  unfold inb, get. destruct (ravel (shape a) x); [discriminate | reflexivity].
Qed.

Lemma NoDup_ndindex sh : NoDup (ndindex sh).
Proof.
  unfold ndindex.
  assert (G : forall l, (forall k, In k l -> (k < size sh)%nat) -> NoDup l ->
                        NoDup (map (unravel sh) l)).
  { induction l as [|k l IH]; intros B N; simpl; [constructor|].
    inversion N as [|? ? Hn N']; subst. constructor.
    - rewrite in_map_iff. intros [k' [E Hk']].
      assert (E' : ravel sh (unravel sh k') = ravel sh (unravel sh k)) by (rewrite E; reflexivity).
      rewrite !ravel_unravel in E' by (apply B; simpl; auto).
      injection E' as ->. contradiction.
    - apply IH; auto. intros; apply B; simpl; auto. }
  apply G; [|apply seq_NoDup].
  intros k Hk. apply in_seq in Hk. lia.
Qed.

(** ** Indices, slices and tabulated arrays *)

Lemma inb_length sh : forall x, inb sh x = true -> length x = length sh.
Proof.
  unfold inb. induction sh as [|n sh IH]; intros [|i x]; simpl; try discriminate; auto.
  destruct ((0 <=? i) && (i <? Z.of_nat n)); try discriminate.
  specialize (IH x). destruct (ravel sh x); try discriminate.
  intros _. f_equal. auto.
Qed.

Lemma inb_cons n sh i x :
  inb (n :: sh) (i :: x) = true <-> (0 <= i < Z.of_nat n) /\ inb sh x = true.
Proof.
  unfold inb. simpl.
  destruct (0 <=? i) eqn:E1; destruct (i <? Z.of_nat n) eqn:E2; simpl;
    try apply Z.leb_le in E1; try apply Z.leb_gt in E1;
    try apply Z.ltb_lt in E2; try apply Z.ltb_ge in E2;
    destruct (ravel sh x); split; intros H; try discriminate; try tauto;
    try (split; [lia | reflexivity]); destruct H; try lia; try discriminate.
Qed.

Lemma get_tabulate_cases {A} (d : A) sh f x :
  (inb sh x = true /\ get d (tabulate sh f) x = f x)
  \/ (inb sh x = false /\ get d (tabulate sh f) x = d).
Proof.
  destruct (inb sh x) eqn:E.
  - left. split; [reflexivity | apply get_tabulate; exact E].
  - right. split; [reflexivity | apply get_outside; exact E].
Qed.

Lemma get_tabulate_true sh f x :
  get false (tabulate sh f) x = true -> inb sh x = true /\ f x = true.
Proof.
  destruct (get_tabulate_cases false sh f x) as [[E ->]|[E ->]]; [auto | discriminate].
Qed.

Lemma vadd_vsub x : forall y, length x = length y -> vadd (vsub x y) y = x.
Proof.
  induction x as [|i x IH]; intros [|j y] H; simpl in *; try discriminate; auto.
  f_equal; [lia | apply IH; lia].
Qed.

Lemma coord_eqb_eq x : forall y, coord_eqb x y = true <-> x = y.
Proof.
  induction x as [|i x IH]; intros [|j y]; simpl; split; intros H;
    try discriminate; auto.
  - apply andb_true_iff in H. destruct H as [H1 H2].
    apply Z.eqb_eq in H1. apply IH in H2. congruence.
  - injection H as -> ->. rewrite Z.eqb_refl. simpl. apply IH. reflexivity.
Qed.

Lemma in_slice_length s : forall x, in_slice s x = true -> length x = length s.
Proof.
  induction s as [|[lo hi] s IH]; intros [|i x]; simpl; try discriminate; auto.
  intros H. apply andb_true_iff in H. destruct H as [_ H]. f_equal. auto.
Qed.

Lemma in_slice_cons lo hi s i x :
  in_slice ((lo, hi) :: s) (i :: x) = true <-> (lo <= i < hi) /\ in_slice s x = true.
Proof.
  simpl. rewrite !andb_true_iff, Z.leb_le, Z.ltb_lt. tauto.
Qed.

(** An index inside a slice, taken relative to the slice's start, is an
    index of the window. *)
Lemma in_slice_local s : forall x,
  in_slice s x = true -> inb (slice_shape s) (vsub x (slice_start s)) = true.
Proof.
  induction s as [|[lo hi] s IH]; intros [|i x] H; try discriminate.
  - reflexivity.
  - apply in_slice_cons in H. destruct H as [B H].
    unfold slice_shape, slice_start. simpl.
    apply inb_cons. split; [lia | apply IH; exact H].
Qed.

Lemma getslice_local {A} (d : A) a s x :
  in_slice s x = true ->
  get d (getslice d a s) (vsub x (slice_start s)) = get d a x.
Proof.
  intros H. unfold getslice.
  rewrite get_tabulate by (apply in_slice_local; exact H).
  rewrite vadd_vsub; [reflexivity|].
  apply in_slice_length in H. unfold slice_start. rewrite length_map. exact H.
Qed.

Lemma get_setslice {A} (d : A) a s v x :
  inb (shape a) x = true ->
  get d (setslice d a s v) x =
    if in_slice s x then
      match v with
      | Arr b => get d b (vsub x (slice_start s))
      | Scalar c => c
      end
    else get d a x.
Proof.
  intros H. unfold setslice. rewrite get_tabulate by exact H. reflexivity.
Qed.

Lemma shape_setslice {A} (d : A) a s v : shape (setslice d a s v) = shape a.
Proof. reflexivity. Qed.

(** ** Connected-component labelling *)

Section Label.

Variables mask structure : ndarray bool.

Lemma flood_sound fuel : forall comp y,
  get false (flood fuel mask structure comp) y = true ->
  get false comp y = true \/ get false mask y = true.
Proof.
  induction fuel as [|fuel IH]; intros comp y H; simpl in H; [auto|].
  destruct (all _) in H; [auto|].
  apply IH in H. destruct H as [H|H]; [|auto].
  apply get_tabulate_true in H. destruct H as [_ H].
  apply orb_true_iff in H. destruct H as [H|H]; [auto|].
  apply andb_true_iff in H. tauto.
Qed.

Lemma flood_extends fuel : forall comp y,
  inb (shape mask) y = true ->
  get false comp y = true ->
  get false (flood fuel mask structure comp) y = true.
Proof.
  induction fuel as [|fuel IH]; intros comp y B H; simpl; [auto|].
  destruct (all _); [auto|].
  apply IH; [exact B|].
  rewrite get_tabulate by exact B. rewrite H. reflexivity.
Qed.

Lemma label_visit_inv visited st x :
  inb (shape mask) x = true ->
  label_inv mask visited st ->
  label_inv mask (x :: visited) (label_visit mask structure st x).
Proof.
  intros Bx (Hs & Hp & Hm & Hv). destruct st as [labels n]. simpl in *.
  unfold label_visit.
  destruct (get false mask x && (get 0 labels x =? 0)) eqn:E.
  - apply andb_true_iff in E. destruct E as [Mx Lx]. apply Z.eqb_eq in Lx.
    set (comp := flood _ _ _ _).
    assert (Cx : get false comp x = true).
    { apply flood_extends; [exact Bx|].
      rewrite get_tabulate by exact Bx. apply coord_eqb_eq. reflexivity. }
    assert (Cm : forall y, get false comp y = true -> get false mask y = true).
    { intros y Hy. apply flood_sound in Hy. destruct Hy as [Hy|Hy]; [|exact Hy].
      apply get_tabulate_true in Hy. destruct Hy as [_ Hy].
      apply coord_eqb_eq in Hy. subst y. exact Mx. }
    unfold label_inv; cbn [fst]. repeat split.
    + intros y.
      match goal with
      | |- context [get 0 (tabulate ?sh ?f) y] =>
          destruct (get_tabulate_cases 0 sh f y) as [[_ ->]|[_ ->]]; [|lia]
      end.
      destruct (get false comp y); [lia | apply Hp].
    + intros y Hy.
      match type of Hy with
      | context [get 0 (tabulate ?sh ?f) y] =>
          destruct (get_tabulate_cases 0 sh f y) as [[_ R]|[_ R]];
          rewrite R in Hy; [|congruence]
      end.
      destruct (get false comp y) eqn:C; [apply Cm; exact C | apply Hm; exact Hy].
    + intros y [<-|Hy] My.
      * rewrite get_tabulate by exact Bx. rewrite Cx. lia.
      * specialize (Hv y Hy My).
        destruct (inb (shape mask) y) eqn:By.
        -- rewrite get_tabulate by exact By. destruct (get false comp y); [lia | exact Hv].
        -- exfalso. apply Hv. apply get_outside. rewrite Hs. exact By.
  - repeat split; simpl; auto.
    intros y [<-|Hy] My; [|auto].
    rewrite My in E. simpl in E. apply Z.eqb_neq in E. exact E.
Qed.

Lemma label_fold_inv l : forall visited st,
  (forall x, In x l -> inb (shape mask) x = true) ->
  label_inv mask visited st ->
  label_inv mask (rev l ++ visited) (fold_left (label_visit mask structure) l st).
Proof.
  induction l as [|x l IH]; intros visited st B I; simpl; [exact I|].
  rewrite <- app_assoc. simpl. apply IH.
  - intros; apply B; simpl; auto.
  - apply label_visit_inv; [apply B; simpl; auto | exact I].
Qed.

Lemma label_inv_initial : label_inv mask [] (full (shape mask) 0, 0%nat).
Proof.
  unfold label_inv, full; cbn [fst]. repeat split.
  - intros y.
    destruct (get_tabulate_cases 0 (shape mask) (fun _ => 0) y) as [[_ ->]|[_ ->]]; lia.
  - intros y.
    destruct (get_tabulate_cases 0 (shape mask) (fun _ => 0) y) as [[_ ->]|[_ ->]];
      congruence.
  - intros y [].
Qed.

Lemma label_inv_final : label_inv mask (ndindex (shape mask)) (label mask structure).
Proof.
  unfold label.
  assert (H : label_inv mask (rev (ndindex (shape mask)) ++ [])
                (fold_left (label_visit mask structure) (ndindex (shape mask))
                           (full (shape mask) 0, 0%nat))).
  { apply label_fold_inv; [|apply label_inv_initial].
    intros x. apply in_ndindex. }
  destruct H as (Hs & Hp & Hm & Hv).
  repeat split; auto.
  intros y Hy. apply Hv. rewrite app_nil_r. apply in_rev in Hy. exact Hy.
Qed.

(** [label] keeps the shape, and a cell is labelled exactly when it is set. *)
Lemma label_shape : shape (fst (label mask structure)) = shape mask.
Proof. apply label_inv_final. Qed.

Lemma label_positive x :
  inb (shape mask) x = true ->
  (0 <? get 0 (fst (label mask structure)) x) = get false mask x.
Proof.
  intros B. destruct label_inv_final as (_ & Hp & Hm & Hv).
  destruct (get false mask x) eqn:M.
  - apply Z.ltb_lt. specialize (Hp x).
    specialize (Hv x (proj2 (in_ndindex _ _) B) M). lia.
  - apply Z.ltb_ge. specialize (Hp x).
    destruct (Z.eq_dec (get 0 (fst (label mask structure)) x) 0) as [E|E]; [lia|].
    apply Hm in E. congruence.
Qed.

Lemma label_on_mask x :
  get 0 (fst (label mask structure)) x <> 0 -> get false mask x = true.
Proof. apply label_inv_final. Qed.

Lemma all_aeqb a b :
  all (aeqb a b) = true <->
  forall y, inb (shape a) y = true -> get false a y = get false b y.
Proof.
  unfold all, aeqb. rewrite forallb_forall. simpl. split.
  - intros H y B. specialize (H y (proj2 (in_ndindex _ _) B)).
    rewrite get_tabulate in H by exact B. apply eqb_prop. exact H.
  - intros H y Hy. apply in_ndindex in Hy.
    rewrite get_tabulate by exact Hy. rewrite (H y Hy). apply eqb_reflx.
Qed.

Lemma filter_length_full {A} (f : A -> bool) l :
  (length l <= length (filter f l))%nat -> forall x, In x l -> f x = true.
Proof.
  induction l as [|a l IH]; intros H x Hx; [destruct Hx|].
  simpl in H. pose proof (filter_length_le f l) as Le.
  destruct (f a) eqn:E; simpl in H; [|lia].
  destruct Hx as [<-|Hx]; [exact E | apply IH; [lia | exact Hx]].
Qed.

Lemma filter_length_grows {A} (f g : A -> bool) l :
  (forall x, In x l -> f x = true -> g x = true) ->
  (exists y, In y l /\ f y = false /\ g y = true) ->
  (length (filter f l) < length (filter g l))%nat.
Proof.
  induction l as [|a l IH]; intros M [y [Hy [Fy Gy]]]; [destruct Hy|].
  assert (Le : (length (filter f l) <= length (filter g l))%nat).
  { clear IH Hy. induction l as [|b l IHl]; [reflexivity|].
    simpl. assert (Mb := M b (or_intror (or_introl eq_refl))).
    assert (IHl' : (length (filter f l) <= length (filter g l))%nat).
    { apply IHl. intros x [<-|Hx]; [apply M; simpl; auto|].
      apply M. simpl. auto. }
    destruct (f b); [rewrite Mb by reflexivity; simpl; lia|].
    destruct (g b); simpl; lia. }
  simpl. destruct Hy as [<-|Hy].
  - rewrite Fy, Gy. simpl. lia.
  - assert (IH' : (length (filter f l) < length (filter g l))%nat).
    { apply IH; [intros x Hx; apply M; simpl; auto | exists y; auto]. }
    assert (Ma := M a (or_introl eq_refl)).
    destruct (f a); [rewrite Ma by reflexivity; simpl; lia|].
    destruct (g a); simpl; lia.
Qed.

(** The fuel given by [label_visit] is enough: the component that [flood]
    returns cannot be grown any further inside the mask. *)
Lemma flood_closed_gen fuel : forall comp,
  shape comp = shape mask ->
  (size (shape mask) <= fuel + asum comp)%nat ->
  forall y, inb (shape mask) y = true ->
    get false mask y = true ->
    get false (binary_dilation (flood fuel mask structure comp) structure) y = true ->
    get false (flood fuel mask structure comp) y = true.
Proof.
  induction fuel as [|fuel IH]; intros comp Sh F y B My G.
  - simpl. unfold asum in F. rewrite Sh in F.
    apply (filter_length_full (get false comp) (ndindex (shape mask))).
    + unfold ndindex at 1. rewrite length_map, length_seq. simpl in F. exact F.
    + apply in_ndindex. exact B.
  - simpl in *.
    set (comp' := tabulate (shape mask)
                    (fun x => get false comp x
                              || (get false mask x
                                  && get false (binary_dilation comp structure) x))) in *.
    destruct (all (aeqb comp' comp)) eqn:E.
    + rewrite all_aeqb in E. rewrite <- (E y B).
      unfold comp'. rewrite get_tabulate by exact B. rewrite My, G. apply orb_true_r.
    + apply IH; auto.
      assert (L : (asum comp < asum comp')%nat).
      { unfold asum. rewrite Sh. simpl.
        apply filter_length_grows.
        - intros x Hx Cx. apply in_ndindex in Hx. unfold comp'.
          rewrite get_tabulate by exact Hx. rewrite Cx. reflexivity.
        - destruct (forallb (get false (aeqb comp' comp)) (ndindex (shape mask))) eqn:A.
          + unfold all in E. simpl in E. congruence.
          + assert (X : exists x, In x (ndindex (shape mask))
                                  /\ get false (aeqb comp' comp) x = false).
            { clear - A. induction (ndindex (shape mask)) as [|a l IHl];
                [discriminate|].
              simpl in A. apply andb_false_iff in A. destruct A as [A|A].
              - exists a. simpl. auto.
              - destruct (IHl A) as [x [Hx Fx]]. exists x. simpl. auto. }
            destruct X as [x [Hx Fx]]. exists x. split; [exact Hx|].
            apply in_ndindex in Hx. unfold aeqb in Fx.
            rewrite get_tabulate in Fx by exact Hx.
            unfold comp' in *. rewrite get_tabulate in * by exact Hx.
            destruct (get false comp x); simpl in *; [discriminate|].
            split; [reflexivity|].
            destruct (get false mask x && _); [reflexivity | discriminate]. }
      lia.
Qed.

Lemma flood_closed seed y :
  shape seed = shape mask ->
  inb (shape mask) y = true ->
  get false mask y = true ->
  get false (binary_dilation (flood (size (shape mask)) mask structure seed) structure) y
  = true ->
  get false (flood (size (shape mask)) mask structure seed) y = true.
Proof.
  intros Sh. apply flood_closed_gen; [exact Sh | lia].
Qed.

End Label.

(** ** Every label is in use *)

Lemma get_true_inb (a : ndarray bool) x : get false a x = true -> inb (shape a) x = true.
Proof.
  intros H. destruct (inb (shape a) x) eqn:B; [reflexivity|].
  rewrite get_outside in H by exact B. discriminate.
Qed.

Lemma vsub_opp z : forall o,
  (length z <= length o)%nat -> vsub (vsub z o) (map Z.opp o) = z.
Proof.
  induction z as [|i z IH]; intros [|j o] H; simpl in *; try lia; try reflexivity.
  f_equal; [lia | apply IH; lia].
Qed.

Lemma vsub_length_le z : forall o, (length (vsub z o) <= length o)%nat.
Proof.
  induction z as [|i z IH]; intros [|j o]; simpl; try lia.
  specialize (IH o). lia.
Qed.

Lemma symmetric_opp structure o :
  symmetric structure = true ->
  In o (offsets structure) -> In (map Z.opp o) (offsets structure).
Proof.
  unfold symmetric. rewrite forallb_forall. intros S Ho.
  specialize (S o Ho). apply existsb_exists in S.
  destruct S as [o' [Ho' E]]. apply coord_eqb_eq in E. rewrite E. exact Ho'.
Qed.

Lemma symmetric_square_cube rank2 :
  symmetric ((if rank2 : bool then square else cube) 3%nat) = true.
Proof. destruct rank2; vm_compute; reflexivity. Qed.

Lemma binary_dilation_get input structure y :
  inb (shape input) y = true ->
  get false (binary_dilation input structure) y
  = existsb (fun o => get false input (vsub y o)) (offsets structure).
Proof. intros B. unfold binary_dilation. rewrite get_tabulate by exact B. reflexivity. Qed.

Section Dense.

Variables mask structure : ndarray bool.

(** A property of the seed that one growth step preserves holds of the
    component that [flood] returns. *)
Lemma flood_preserves (P : ndarray bool -> Prop) fuel :
  (forall comp, P comp ->
     P (tabulate (shape mask)
          (fun x => get false comp x
                    || (get false mask x
                        && get false (binary_dilation comp structure) x)))) ->
  forall comp, P comp -> P (flood fuel mask structure comp).
Proof.
  intros Step. induction fuel as [|fuel IH]; intros comp H; simpl; [exact H|].
  destruct (all _); [exact H|]. apply IH, Step, H.
Qed.

Lemma flood_shape fuel seed :
  shape seed = shape mask -> shape (flood fuel mask structure seed) = shape mask.
Proof.
  intros H. apply (@flood_preserves (fun c => shape c = shape mask)); [|exact H].
  reflexivity.
Qed.

Hypothesis Sym : symmetric structure = true.

Lemma label_visit_dense visited st x :
  inb (shape mask) x = true ->
  label_inv mask visited st ->
  label_dense mask structure st ->
  label_dense mask structure (label_visit mask structure st x).
Proof.
  intros Bx (Hs & Hp & Hm & Hv) (Hd & Hc). destruct st as [labels n].
  cbn [fst snd] in *. unfold label_visit.
  destruct (get false mask x && (get 0 labels x =? 0)) eqn:E; [|split; assumption].
  apply andb_true_iff in E. destruct E as [Mx Lx]. apply Z.eqb_eq in Lx.
  set (seed := tabulate (shape mask) (coord_eqb x)).
  set (comp := flood (size (shape mask)) mask structure seed).
  assert (Sc : shape comp = shape mask) by (apply flood_shape; reflexivity).
  assert (Cx : get false comp x = true).
  { apply flood_extends; [exact Bx|].
    unfold seed. rewrite get_tabulate by exact Bx. apply coord_eqb_eq. reflexivity. }
  assert (C0 : forall y, get false comp y = true ->
                         get false mask y = true /\ get 0 labels y = 0).
  { apply (@flood_preserves
             (fun c => shape c = shape mask
                       /\ forall y, get false c y = true ->
                                    get false mask y = true /\ get 0 labels y = 0)).
    - intros c [Shc Hc0]. split; [reflexivity|]. intros y Hy.
      apply get_tabulate_true in Hy. destruct Hy as [By Hy].
      apply orb_true_iff in Hy. destruct Hy as [Hy|Hy]; [apply Hc0; exact Hy|].
      apply andb_true_iff in Hy. destruct Hy as [My Gy]. split; [exact My|].
      rewrite binary_dilation_get in Gy by (rewrite Shc; exact By).
      apply existsb_exists in Gy. destruct Gy as [o [Ho Cw]].
      destruct (Hc0 _ Cw) as [Mw Lw].
      destruct (Z.eq_dec (get 0 labels y) 0) as [Z0|NZ]; [exact Z0|].
      exfalso. exact (Hc y o Ho NZ Mw Lw).
    - split; [reflexivity|]. intros y Hy. unfold seed in Hy.
      apply get_tabulate_true in Hy. destruct Hy as [_ Hy].
      apply coord_eqb_eq in Hy. subst y. split; assumption. }
  assert (Cc : forall w o, In o (offsets structure) -> get false mask w = true ->
                           get false comp (vsub w o) = true -> get false comp w = true).
  { intros w o Ho Mw Cw. unfold comp.
    assert (Bw : inb (shape mask) w = true) by (apply get_true_inb; exact Mw).
    apply flood_closed; [reflexivity | exact Bw | exact Mw |].
    fold seed. fold comp. rewrite binary_dilation_get by (rewrite Sc; exact Bw).
    apply existsb_exists. exists o. split; assumption. }
  split; cbn [fst snd].
  - intros l Hl. destruct (Nat.eq_dec l (S n)) as [->|NE].
    + exists x. split; [exact Bx|]. rewrite get_tabulate by exact Bx.
      rewrite Cx. reflexivity.
    + destruct (Hd l) as [y [By Ly]]; [lia|]. exists y. split; [exact By|].
      rewrite get_tabulate by exact By.
      destruct (get false comp y) eqn:Cy; [|exact Ly].
      destruct (C0 y Cy) as [_ Z0]. lia.
  - intros z o Ho Lz Mw.
    assert (Bw : inb (shape mask) (vsub z o) = true) by (apply get_true_inb; exact Mw).
    rewrite get_tabulate by exact Bw.
    match type of Lz with
    | context [get 0 (tabulate ?sh ?f) z] =>
        destruct (get_tabulate_cases 0 sh f z) as [[Bz R]|[_ R]];
        rewrite R in Lz; [|congruence]
    end.
    destruct (get false comp z) eqn:Cz.
    + assert (Cw : get false comp (vsub z o) = true).
      { apply (Cc (vsub z o) (map Z.opp o));
          [apply symmetric_opp; assumption | exact Mw |].
        rewrite vsub_opp; [exact Cz|].
        apply inb_length in Bw. apply inb_length in Bz.
        pose proof (vsub_length_le z o). lia. }
      rewrite Cw. lia.
    + destruct (get false comp (vsub z o)) eqn:Cw; [lia|].
      apply (Hc z o Ho Lz Mw).
Qed.

Lemma label_fold_dense l : forall visited st,
  (forall x, In x l -> inb (shape mask) x = true) ->
  label_inv mask visited st ->
  label_dense mask structure st ->
  label_dense mask structure (fold_left (label_visit mask structure) l st).
Proof.
  induction l as [|x l IH]; intros visited st B I D; simpl; [exact D|].
  apply (IH (x :: visited)).
  - intros; apply B; simpl; auto.
  - apply label_visit_inv; [apply B; simpl; auto | exact I].
  - apply (@label_visit_dense visited); [apply B; simpl; auto | exact I | exact D].
Qed.

(** With a symmetric structure, every label from 1 to the blob count sits
    on some cell. *)
Lemma label_in_use l :
  (1 <= l <= snd (label mask structure))%nat ->
  exists y, inb (shape mask) y = true
            /\ get 0 (fst (label mask structure)) y = Z.of_nat l.
Proof.
  assert (D : label_dense mask structure (label mask structure)).
  { unfold label. apply (@label_fold_dense _ []).
    - intros x. apply in_ndindex.
    - apply label_inv_initial.
    - split; cbn [fst snd]; [intros l' Hl'; lia|].
      intros z o _ Lz. exfalso. apply Lz. unfold full.
      destruct (get_tabulate_cases 0 (shape mask) (fun _ => 0) z) as [[_ ->]|[_ ->]];
        reflexivity. }
  apply D.
Qed.

End Dense.

(** ** Bounding boxes *)

Lemma grow_box_length s : forall y, length y = length s -> length (grow_box s y) = length s.
Proof.
  intros y H. unfold grow_box. rewrite length_map, length_combine. lia.
Qed.

Lemma grow_box_keeps s : forall y x,
  length y = length s -> in_slice s x = true -> in_slice (grow_box s y) x = true.
Proof.
  induction s as [|[lo hi] s IH]; intros [|j y] [|i x] L H; try discriminate; auto.
  apply in_slice_cons in H. destruct H as [B H].
  unfold grow_box. simpl. fold (grow_box s y).
  apply in_slice_cons. split; [lia | apply IH; simpl in L; auto; lia].
Qed.

Lemma grow_box_adds s : forall y,
  length y = length s -> in_slice (grow_box s y) y = true.
Proof.
  induction s as [|[lo hi] s IH]; intros [|j y] L; try discriminate; auto.
  unfold grow_box. simpl. fold (grow_box s y).
  apply in_slice_cons. split; [lia | apply IH; simpl in L; lia].
Qed.

Lemma unit_box_covers x : in_slice (map (fun i => (i, i + 1)) x) x = true.
Proof.
  induction x as [|i x IH]; [reflexivity|].
  simpl map. apply in_slice_cons. split; [lia | exact IH].
Qed.

Lemma fold_grow_box xs : forall s,
  (forall y, In y xs -> length y = length s) ->
  length (fold_left grow_box xs s) = length s
  /\ (forall x, in_slice s x = true -> in_slice (fold_left grow_box xs s) x = true)
  /\ (forall y, In y xs -> in_slice (fold_left grow_box xs s) y = true).
Proof.
  induction xs as [|z xs IH]; intros s L; simpl.
  - repeat split; auto; intros y [].
  - assert (Lz : length z = length s) by (apply L; simpl; auto).
    destruct (IH (grow_box s z)) as (H1 & H2 & H3).
    { intros y Hy. rewrite grow_box_length by exact Lz. apply L. simpl. auto. }
    repeat split.
    + rewrite H1. apply grow_box_length. exact Lz.
    + intros x Hx. apply H2. apply grow_box_keeps; assumption.
    + intros y [<-|Hy]; [|auto]. apply H2. apply grow_box_adds. exact Lz.
Qed.

Lemma bounding_box_covers labels l x :
  inb (shape labels) x = true -> get 0 labels x = l ->
  exists b, bounding_box labels l = Some b /\ in_slice b x = true.
Proof.
  intros B E. unfold bounding_box.
  set (cells := filter _ _).
  assert (Hx : In x cells).
  { apply filter_In. split; [apply in_ndindex; exact B | apply Z.eqb_eq; exact E]. }
  assert (HL : forall y, In y cells -> length y = length (shape labels)).
  { intros y Hy. apply filter_In in Hy. destruct Hy as [Hy _].
    apply in_ndindex in Hy. apply inb_length. exact Hy. }
  destruct cells as [|x0 xs]; [destruct Hx|].
  eexists. split; [reflexivity|].
  destruct (fold_grow_box xs (map (fun i => (i, i + 1)) x0)) as (_ & H2 & H3).
  { intros y Hy. rewrite length_map, (HL x0), (HL y); simpl; auto. }
  destruct Hx as [<-|Hx]; [apply H2, unit_box_covers | apply H3, Hx].
Qed.

Lemma fold_max_ge l : forall a v, (v <= a \/ In v l) -> v <= fold_left Z.max l a.
Proof.
  induction l as [|w l IH]; intros a v H; simpl.
  - destruct H as [H|[]]. exact H.
  - apply IH. destruct H as [H|[<-|H]]; [left; lia | left; lia | right; exact H].
Qed.

(** The box that [find_objects] reports for a label holds every cell that
    carries the label. *)
Lemma find_objects_covers labels i x :
  inb (shape labels) x = true -> get 0 labels x = Z.of_nat (i + 1) ->
  exists b, nth i (find_objects labels) None = Some b /\ in_slice b x = true.
Proof.
  intros B E. unfold find_objects.
  set (m := fold_left Z.max _ 0).
  assert (M : Z.of_nat (i + 1) <= m).
  { apply fold_max_ge. right. rewrite <- E. apply in_map, in_ndindex. exact B. }
  assert (L : (i < Z.to_nat m)%nat) by lia.
  rewrite nth_indep with (d' := bounding_box labels (Z.of_nat 0))
    by (rewrite length_map, length_seq; exact L).
  rewrite (map_nth (fun l => bounding_box labels (Z.of_nat l))).
  rewrite seq_nth by exact L.
  replace (1 + i)%nat with (i + 1)%nat by lia.
  apply bounding_box_covers; assumption.
Qed.

Lemma extend_slice_covers b : forall sh x pad,
  0 <= pad -> inb sh x = true -> in_slice b x = true ->
  in_slice (extend_slice b sh pad) x = true.
Proof.
  induction b as [|[lo hi] b IH]; intros [|n sh] [|i x] pad P B H;
    try discriminate; auto.
  apply in_slice_cons in H. destruct H as [Hb H].
  apply inb_cons in B. destruct B as [Bi B].
  unfold extend_slice. simpl. fold (extend_slice b sh pad).
  apply in_slice_cons. split; [lia | apply IH; assumption].
Qed.

(** ** The per-blob step of [trim_saddle_points] *)

Lemma grow_blob_cases n structure dt_i im_i peaks_i : forall peaks_dil,
  grow_blob n structure dt_i im_i peaks_i peaks_dil = Arr peaks_i
  \/ grow_blob n structure dt_i im_i peaks_i peaks_dil = Scalar false.
Proof.
  induction n as [|n IH]; intros peaks_dil; simpl; [auto|].
  destruct (all _); [auto|]. destruct (_ =? _)%nat; [auto|]. apply IH.
Qed.

Lemma trim_blob_unfold dt max_iters structure labels slices_ peaks i :
  trim_blob dt max_iters structure labels slices_ peaks i
  = setslice false peaks (window peaks slices_ i)
      (blob_outcome dt max_iters structure labels (window peaks slices_ i) i).
Proof. reflexivity. Qed.

Lemma blob_mask_get labels s i x :
  in_slice s x = true ->
  get false (blob_mask labels s i) (vsub x (slice_start s))
  = (get 0 labels x =? Z.of_nat (i + 1)).
Proof.
  intros H. unfold blob_mask.
  rewrite get_tabulate by (apply in_slice_local; exact H).
  rewrite getslice_local by exact H. reflexivity.
Qed.

(** The value of every cell after the step of blob [i]: inside the window
    only the cells of blob [i] can be set, and they are set exactly when
    the loop kept the blob; outside the window nothing changes. *)
Lemma trim_blob_get dt max_iters structure labels slices_ peaks i x :
  inb (shape peaks) x = true ->
  get false (trim_blob dt max_iters structure labels slices_ peaks i) x
  = if in_slice (window peaks slices_ i) x then
      match blob_outcome dt max_iters structure labels (window peaks slices_ i) i with
      | Arr _ => get 0 labels x =? Z.of_nat (i + 1)
      | Scalar c => c
      end
    else get false peaks x.
Proof.
  intros B. rewrite trim_blob_unfold, get_setslice by exact B.
  destruct (in_slice _ x) eqn:S; [|reflexivity].
  unfold blob_outcome.
  destruct (grow_blob_cases max_iters structure
              (getslice 0%Q dt (window peaks slices_ i))
              (gt0 (getslice 0%Q dt (window peaks slices_ i)))
              (blob_mask labels (window peaks slices_ i) i)
              (blob_mask labels (window peaks slices_ i) i)) as [-> | ->];
    [apply blob_mask_get; exact S | reflexivity].
Qed.

(** A cell of blob [i] lies in the window of blob [i]. *)
Lemma blob_in_window labels peaks i x :
  shape labels = shape peaks ->
  inb (shape peaks) x = true -> get 0 labels x = Z.of_nat (i + 1) ->
  in_slice (window peaks (find_objects labels) i) x = true.
Proof.
  intros S B E. unfold window.
  destruct (find_objects_covers labels i x) as (b & -> & Hb);
    [rewrite S; exact B | exact E |].
  apply extend_slice_covers; [lia | exact B | exact Hb].
Qed.

Section GrowBlob.

Variables (structure : ndarray bool) (dt_i : ndarray Q) (im_i peaks_i : ndarray bool).

Local Abbreviation true_peak := (found_true_peak structure dt_i im_i peaks_i).
Local Abbreviation saddle := (found_saddle structure dt_i im_i peaks_i).
Local Abbreviation run n j :=
  (grow_blob n structure dt_i im_i peaks_i (dilated structure peaks_i j)).

Lemma grow_blob_step n j :
  run (S n) j =
    if true_peak (S j) then Arr peaks_i
    else if saddle (S j) then Scalar false
    else run n (S j).
Proof. reflexivity. Qed.

Lemma grow_blob_true_peak n : forall j k,
  (j < k <= j + n)%nat ->
  (forall m, (j < m < k)%nat -> true_peak m = false /\ saddle m = false) ->
  true_peak k = true ->
  run n j = Arr peaks_i.
Proof.
  induction n as [|n IH]; intros j k B U T; [lia|].
  rewrite grow_blob_step.
  destruct (Nat.eq_dec k (S j)) as [->|NE]; [rewrite T; reflexivity|].
  destruct (U (S j)) as [-> ->]; [lia|].
  apply (IH (S j) k); [lia | intros m Hm; apply U; lia | exact T].
Qed.

Lemma grow_blob_saddle n : forall j k,
  (j < k <= j + n)%nat ->
  (forall m, (j < m < k)%nat -> true_peak m = false /\ saddle m = false) ->
  true_peak k = false -> saddle k = true ->
  run n j = Scalar false.
Proof.
  induction n as [|n IH]; intros j k B U T Sd; [lia|].
  rewrite grow_blob_step.
  destruct (Nat.eq_dec k (S j)) as [->|NE]; [rewrite T, Sd; reflexivity|].
  destruct (U (S j)) as [-> ->]; [lia|].
  apply (IH (S j) k); [lia | intros m Hm; apply U; lia | exact T | exact Sd].
Qed.

Lemma grow_blob_cap n : forall j,
  (forall m, (j < m <= j + n)%nat -> true_peak m = false /\ saddle m = false) ->
  run n j = Arr peaks_i.
Proof.
  induction n as [|n IH]; intros j U; [reflexivity|].
  rewrite grow_blob_step.
  destruct (U (S j)) as [-> ->]; [lia|].
  apply IH. intros m Hm. apply U. lia.
Qed.

Lemma dilated_shape k : shape (dilated structure peaks_i k) = shape peaks_i.
Proof. induction k as [|k IH]; [reflexivity | exact IH]. Qed.

(** A pass cannot both reproduce a blob mask with a cell in it and miss
    the blob altogether. *)
Lemma saddle_excludes_true_peak k y :
  inb (shape peaks_i) y = true -> get false peaks_i y = true ->
  saddle k = true -> true_peak k = false.
Proof.
  intros B P Sd. destruct (true_peak k) eqn:T; [exfalso | reflexivity].
  unfold true_peak, found_true_peak, saddle, found_saddle, all, asum in *.
  set (ext := trial_mask structure dt_i im_i peaks_i k) in *.
  assert (Sh : shape ext = shape peaks_i) by apply dilated_shape.
  assert (By : In y (ndindex (shape ext))) by (apply in_ndindex; rewrite Sh; exact B).
  rewrite forallb_forall in T. specialize (T y By).
  unfold aeqb in T.
  rewrite get_tabulate in T by (rewrite Sh; exact B).
  rewrite P in T. apply eqb_prop in T.
  apply Nat.eqb_eq, length_zero_iff_nil in Sd.
  assert (In y []) as [].
  rewrite <- Sd. apply filter_In. split.
  - unfold aand at 1. simpl. exact By.
  - unfold aand at 1. rewrite get_tabulate by (rewrite Sh; exact B).
    rewrite T, P. reflexivity.
Qed.

End GrowBlob.

(** ** Every stage keeps the peaks inside the pore space *)

Lemma Qltb_lt a b : Qltb a b = true <-> (a < b)%Q.
Proof.
  unfold Qltb. rewrite negb_true_iff. split.
  - intros H. apply Qnot_le_lt. intros L. apply Qle_bool_iff in L. congruence.
  - intros H. destruct (Qle_bool b a) eqn:E; [|reflexivity].
    apply Qle_bool_iff in E. apply Qlt_not_le in H. contradiction.
Qed.

Lemma squeeze_squeeze {A} (a : ndarray A) : squeeze (squeeze a) = squeeze a.
Proof.
  unfold squeeze. simpl. f_equal.
  induction (shape a) as [|n sh IH]; simpl; [reflexivity|].
  destruct (negb (n =? 1)%nat) eqn:E; simpl; [rewrite E|]; congruence.
Qed.

Lemma find_peaks_in_pore dt r fp peaks x :
  find_peaks dt r fp = Ok peaks ->
  get false peaks x = true -> (0 < get 0 (squeeze dt) x)%Q.
Proof.
  unfold find_peaks. intros H P.
  destruct (match fp with Some f => Ok f | None => _ end) as [f|e];
    simpl in H; [|discriminate].
  injection H as <-.
  apply get_tabulate_true in P. destruct P as [B P].
  apply andb_true_iff in P. destruct P as [_ P].
  apply get_tabulate_true in P. destruct P as [_ P].
  apply Qltb_lt. exact P.
Qed.

Lemma find_peaks_shape dt r fp peaks :
  find_peaks dt r fp = Ok peaks -> shape peaks = shape (squeeze dt).
Proof.
  unfold find_peaks. intros H.
  destruct (match fp with Some f => Ok f | None => _ end) as [f|e];
    simpl in H; [|discriminate].
  injection H as <-. reflexivity.
Qed.

Lemma trim_blob_subset dt max_iters structure labels slices_ peaks0 peaks i x :
  (forall y, get 0 labels y <> 0 -> get false peaks0 y = true) ->
  (get false peaks x = true -> get false peaks0 x = true) ->
  get false (trim_blob dt max_iters structure labels slices_ peaks i) x = true ->
  get false peaks0 x = true.
Proof.
  intros L I H.
  destruct (inb (shape peaks) x) eqn:B.
  - rewrite trim_blob_get in H by exact B.
    destruct (in_slice _ x); [|auto].
    unfold blob_outcome in H.
    destruct (grow_blob_cases max_iters structure
                (getslice 0%Q dt (window peaks slices_ i))
                (gt0 (getslice 0%Q dt (window peaks slices_ i)))
                (blob_mask labels (window peaks slices_ i) i)
                (blob_mask labels (window peaks slices_ i) i)) as [R|R];
      rewrite R in H; [|discriminate].
    apply L. apply Z.eqb_eq in H. lia.
  - rewrite get_outside in H; [discriminate | exact B].
Qed.

(** The output of [trim_saddle_points] is a subset of its input. *)
Lemma trim_saddle_points_subset peaks dt max_iters x :
  get false (trim_saddle_points peaks dt max_iters) x = true ->
  get false peaks x = true.
Proof.
  unfold trim_saddle_points.
  pose proof (label_on_mask peaks (cross (ndim peaks))) as L.
  destruct (label peaks (cross (ndim peaks))) as [labels N]. simpl in L.
  set (step := trim_blob _ _ _ _ _).
  assert (G : forall l p,
             (get false p x = true -> get false peaks x = true) ->
             get false (fold_left step l p) x = true -> get false peaks x = true).
  { induction l as [|i l IH]; intros p I; simpl; [exact I|].
    apply IH. unfold step. apply trim_blob_subset; assumption. }
  apply G. auto.
Qed.

Lemma trim_saddle_points_shape peaks dt max_iters :
  shape (trim_saddle_points peaks dt max_iters) = shape peaks.
Proof.
  unfold trim_saddle_points.
  destruct (label peaks (cross (ndim peaks))) as [labels N].
  set (step := trim_blob _ _ _ _ _).
  assert (G : forall l p, shape (fold_left step l p) = shape p).
  { induction l as [|i l IH]; intros p; simpl; [reflexivity|].
    rewrite IH. reflexivity. }
  apply G.
Qed.

(** Clearing boxes only ever writes zeros. *)
Lemma clear_box_get slices_ labels s x :
  get 0 (clear_box slices_ labels s) x = get 0 labels x
  \/ get 0 (clear_box slices_ labels s) x = 0.
Proof.
  unfold clear_box. destruct (nth s slices_ None) as [b|]; [|auto].
  destruct (inb (shape labels) x) eqn:B.
  - rewrite get_setslice by exact B. destruct (in_slice b x); auto.
  - right. apply get_outside. exact B.
Qed.

Lemma clear_box_shape slices_ labels s :
  shape (clear_box slices_ labels s) = shape labels.
Proof. unfold clear_box. destruct (nth s slices_ None); reflexivity. Qed.

Lemma clear_boxes_shape slices_ l : forall labels,
  shape (fold_left (clear_box slices_) l labels) = shape labels.
Proof.
  induction l as [|s l IH]; intros labels; simpl; [reflexivity|].
  rewrite IH. apply clear_box_shape.
Qed.

Lemma clear_boxes_get slices_ l x : forall labels,
  get 0 (fold_left (clear_box slices_) l labels) x = get 0 labels x
  \/ get 0 (fold_left (clear_box slices_) l labels) x = 0.
Proof.
  induction l as [|s l IH]; intros labels; simpl; [auto|].
  destruct (IH (clear_box slices_ labels s)) as [H|H]; [|auto].
  rewrite H. apply clear_box_get.
Qed.

(** The output of [trim_nearby_peaks] is a subset of its input. *)
Lemma trim_nearby_peaks_subset peaks dt out x :
  trim_nearby_peaks peaks dt = Ok out ->
  get false out x = true -> get false peaks x = true.
Proof.
  unfold trim_nearby_peaks. set (st := (if (ndim dt =? 2)%nat then square else cube) 3%nat).
  pose proof (label_on_mask peaks st) as L.
  destruct (label peaks st) as [labels N]. simpl in L.
  destruct (analyse labels N dt) as [nb|e]; simpl; [|discriminate].
  intros H P. injection H as <-.
  apply get_tabulate_true in P. destruct P as [_ P]. apply Z.ltb_lt in P.
  apply L.
  destruct (clear_boxes_get (find_objects labels) (drop_peaks nb) x labels) as [E|E];
    rewrite E in P; lia.
Qed.




(** ** Defects shown on concrete inputs *)

(** C3.  On [two_peaks] both cells are blobs of their own (labels 1 and
    2), and each is confirmed as a true peak by the first pass of its loop.
    The step of blob 0 nevertheless clears the cell of blob 1, which lies in
    its padded window, and the step of blob 1 clears the cell of blob 0:
    of the two true peaks only the last one processed is left. *)
Theorem trim_blob_overwrites_other_blobs :
  let labels := fst (label two_peaks (cross 2)) in
  let slices_ := find_objects labels in
  let step := trim_blob two_peaks_dt 10 (square 3) labels slices_ in
  get 0 labels [1; 1] = 1 /\ get 0 labels [1; 3] = 2
  /\ get false two_peaks [1; 3] = true
  /\ get false (step two_peaks 0%nat) [1; 1] = true
  /\ get false (step two_peaks 0%nat) [1; 3] = false
  /\ get false (step (step two_peaks 0%nat) 1%nat) [1; 1] = false
  /\ trim_saddle_points two_peaks two_peaks_dt 10
     = array2 [[false; false; false; false; false];
               [false; false; false; true;  false];
               [false; false; false; false; false]].
Proof. vm_compute. repeat split; reflexivity. Qed.

(** C2.  A blob that its loop keeps is not kept by [trim_saddle_points].
    On [two_peaks] the loop of blob 0 stops at its first pass with the
    trial mask equal to the blob mask and leaves the blob mask in
    [peaks_i], yet the cell of the blob is cleared in the result.  On
    [uneven_peaks] none of the ten passes of the loop of blob 0 meets
    either test, the loop ends at the cap with the blob mask, and both
    cells of the blob are cleared in the result.  In both cases the write
    of the window of the blob processed next clears them. *)
Theorem kept_blob_is_cleared :
  (let labels := fst (label two_peaks (cross 2)) in
   let s := window two_peaks (find_objects labels) 0 in
   let dt_i := getslice 0%Q two_peaks_dt s in
   let peaks_i := blob_mask labels s 0 in
   get 0 labels [1; 1] = 1
   /\ found_true_peak (square 3) dt_i (gt0 dt_i) peaks_i 1 = true
   /\ blob_outcome two_peaks_dt 10 (square 3) labels s 0 = Arr peaks_i
   /\ get false two_peaks [1; 1] = true
   /\ get false (trim_saddle_points two_peaks two_peaks_dt 10) [1; 1] = false)
  /\ (let labels := fst (label uneven_peaks (cross 2)) in
      let s := window uneven_peaks (find_objects labels) 0 in
      let dt_i := getslice 0%Q uneven_dt s in
      let peaks_i := blob_mask labels s 0 in
      get 0 labels [1; 1] = 1 /\ get 0 labels [1; 2] = 1
      /\ (forall k, (1 <= k <= 10)%nat ->
            found_true_peak (square 3) dt_i (gt0 dt_i) peaks_i k = false
            /\ found_saddle (square 3) dt_i (gt0 dt_i) peaks_i k = false)
      /\ blob_outcome uneven_dt 10 (square 3) labels s 0 = Arr peaks_i
      /\ get false uneven_peaks [1; 1] = true
      /\ get false uneven_peaks [1; 2] = true
      /\ trim_saddle_points uneven_peaks uneven_dt 10
         = array2 [[false; false; false; false; false];
                   [false; false; false; false; true];
                   [false; false; false; false; false]]).
Proof.
  split.
  - vm_compute. repeat split; reflexivity.
  - cbv zeta. split; [vm_compute; reflexivity|]. split; [vm_compute; reflexivity|].
    split.
    + intros k Hk.
      do 11 (destruct k as [|k]; [try lia; vm_compute; split; reflexivity|]). lia.
    + vm_compute. repeat split; reflexivity.
Qed.

(** C4.  An image without pore space has no peaks, and [trim_nearby_peaks]
    then raises: [vstack] is called on an empty sequence of centroids.  The
    error reaches the caller of [snow]. *)
Theorem no_peaks_raises :
  find_peaks (full [2; 2]%nat 0%Q) 4 None = Ok (full [2; 2]%nat false)
  /\ trim_saddle_points (full [2; 2]%nat false) (full [2; 2]%nat 0%Q) 10
     = full [2; 2]%nat false
  /\ trim_nearby_peaks (full [2; 2]%nat false) (full [2; 2]%nat 0%Q) = Raise ValueError
  /\ snow (full [2; 2]%nat 0%Q) = Raise ValueError.
Proof. vm_compute. repeat split; reflexivity. Qed.

(** Any mask in which [label] finds no blob makes [trim_nearby_peaks]
    raise. *)
Lemma trim_nearby_peaks_without_blobs peaks dt :
  snd (label peaks ((if (ndim dt =? 2)%nat then square else cube) 3%nat)) = 0%nat ->
  trim_nearby_peaks peaks dt = Raise ValueError.
Proof.
  unfold trim_nearby_peaks.
  destruct (label peaks _) as [labels N]. simpl. intros ->. reflexivity.
Qed.

(** C7.  On [ridge_dt], [find_peaks] returns two blobs (the top row and
    the isolated cell).  Both are true peaks, yet [trim_saddle_points]
    returns three blobs: the window of the isolated cell covers columns 10
    to 30 of the top row and the write of its result cuts the row in two.
    The counts are those of [label] with its default structure, which
    [snow] prints, and they are the same with full connectivity. *)
Theorem trim_saddle_points_can_add_a_peak :
  exists p2 p3,
    find_peaks ridge_dt 4 None = Ok p2
    /\ trim_saddle_points p2 ridge_dt 10 = p3
    /\ count_peaks p2 = 2%nat
    /\ count_peaks p3 = 3%nat
    /\ snd (label p2 (square 3)) = 2%nat
    /\ snd (label p3 (square 3)) = 3%nat.
Proof.
  eexists. eexists. split; [vm_compute; reflexivity|].
  split; [vm_compute; reflexivity|].
  split; [vm_compute; reflexivity|].
  split; [vm_compute; reflexivity|].
  split; vm_compute; reflexivity.
Qed.

(** The same can happen in [trim_nearby_peaks] when it is called on
    [comb_peaks]: the L-shaped blob is removed by clearing its bounding
    box, which cuts the comb, a blob that is kept, into three. *)
Lemma trim_nearby_peaks_can_add_a_peak :
  exists nb out,
    analysis comb_peaks comb_dt = Ok nb
    /\ drop_peaks nb = [1%nat]
    /\ trim_nearby_peaks comb_peaks comb_dt = Ok out
    /\ count_peaks comb_peaks = 2%nat
    /\ count_peaks out = 3%nat.
Proof.
  eexists. eexists. split; [vm_compute; reflexivity|].
  split; [vm_compute; reflexivity|].
  split; [vm_compute; reflexivity|].
  split; vm_compute; reflexivity.
Qed.

(** C10.  On [corner_peaks] the removal set is the L-shaped blob alone
    (peak 0); the one-cell blob (peak 1, label 2) is not in it, but its
    cell lies in the bounding box of the L and is cleared with it. *)
Theorem clear_box_clears_kept_blob :
  let st := label corner_peaks (square 3) in
  exists nb,
    analyse (fst st) (snd st) corner_dt = Ok nb
    /\ drop_peaks nb = [0%nat]
    /\ get 0 (fst st) [0; 2] = 2
    /\ get false corner_peaks [0; 2] = true
    /\ trim_nearby_peaks corner_peaks corner_dt = Ok (full [4; 4]%nat false).
Proof.
  eexists. split; [vm_compute; reflexivity|].
  vm_compute. repeat split; reflexivity.
Qed.

(** ** ProximityMerger *)

Lemma trim_nearby_peaks_unfold peaks dt :
  trim_nearby_peaks peaks dt =
    (let labels := fst (label peaks ((if (ndim dt =? 2)%nat then square else cube) 3%nat)) in
     nb <- analysis peaks dt ;;
     let cleared := fold_left (clear_box (find_objects labels)) (drop_peaks nb) labels in
     Ok (tabulate (shape cleared) (fun x => 0 <? get 0 cleared x))).
Proof.
  unfold trim_nearby_peaks, analysis.
  destruct (label peaks _) as [labels N]. reflexivity.
Qed.

Lemma analyse_fields labels N dt nb :
  analyse labels N dt = Ok nb ->
  crds nb <> []
  /\ dist_to_neighbor nb = map (query2 (crds nb)) (crds nb)
  /\ nearest_neighbor nb = map (neighbour_index (length (crds nb))) (dist_to_neighbor nb)
  /\ dist_to_solid nb = map (get 0%Q dt) (crds nb)
  /\ hits nb = filter (fun i => closer (nth i (dist_to_neighbor nb) None)
                                       (nth i (dist_to_solid nb) 0%Q))
                      (seq 0 (length (crds nb)))
  /\ drop_peaks nb = unique (map (drop_choice (dist_to_solid nb) (nearest_neighbor nb))
                                 (hits nb)).
Proof.
  unfold analyse, vstack_int.
  destruct (center_of_mass labels labels (seq 1 N)) as [|c cs]; simpl; [discriminate|].
  intros H. injection H as <-. simpl. repeat split. discriminate.
Qed.

Lemma unique_In l k : In k (unique l) <-> In k l.
Proof.
  unfold unique. rewrite filter_In, in_seq, existsb_exists. split.
  - intros [_ [j [Hj E]]]. apply Nat.eqb_eq in E. subst. exact Hj.
  - intros H. split.
    + pose proof (proj1 (list_max_le l (list_max l)) (Nat.le_refl _)) as F.
      rewrite Forall_forall in F. specialize (F k H). lia.
    + exists k. split; [exact H | apply Nat.eqb_refl].
Qed.








Lemma clear_boxes_clears slices_ k b x l : forall labels,
  In k l -> nth k slices_ None = Some b -> in_slice b x = true ->
  inb (shape labels) x = true ->
  get 0 (fold_left (clear_box slices_) l labels) x = 0.
Proof.
  induction l as [|s l IH]; intros labels Hk Hb Hx B; [destruct Hk|].
  simpl. destruct (Nat.eq_dec s k) as [->|NE].
  - assert (Z0 : get 0 (clear_box slices_ labels k) x = 0).
    { unfold clear_box. rewrite Hb, get_setslice by exact B. rewrite Hx. reflexivity. }
    destruct (clear_boxes_get slices_ l x (clear_box slices_ labels k)) as [E|E];
      rewrite E; [exact Z0 | reflexivity].
  - destruct Hk as [E|Hk]; [contradiction|].
    apply IH; auto. rewrite clear_box_shape. exact B.
Qed.

(** C5 (amended).  After [trim_nearby_peaks], for every contested centroid
    [i] the peak chosen between [i] and its nearest neighbour is gone:
    every cell of that blob is cleared in the output.  So no contested
    centroid survives together with its nearest neighbour. *)
Theorem contested_centroid_loses_a_peak
    (peaks : ndarray bool) (dt : ndarray Q) (nb : neighbours) (out : ndarray bool)
    (i : nat) :
  analysis peaks dt = Ok nb ->
  trim_nearby_peaks peaks dt = Ok out ->
  In i (hits nb) ->
  let labels := fst (label peaks ((if (ndim dt =? 2)%nat then square else cube) 3%nat)) in
  let k := drop_choice (dist_to_solid nb) (nearest_neighbor nb) i in
  (k = i \/ k = nth i (nearest_neighbor nb) 0%nat)
  /\ forall x, inb (shape peaks) x = true -> get 0 labels x = Z.of_nat (k + 1) ->
               get false out x = false.
Proof.
  intros A T Hi labels k. split.
  - unfold k, drop_choice. destruct (Qltb _ _); auto.
  - intros x B E.
    assert (Sh : shape labels = shape peaks) by apply label_shape.
    rewrite trim_nearby_peaks_unfold, A in T. simpl in T. injection T as <-.
    fold labels.
    rewrite get_tabulate by (rewrite clear_boxes_shape, Sh; exact B).
    apply Z.ltb_ge.
    destruct (find_objects_covers labels k x) as (b & Hb & Hx);
      [rewrite Sh; exact B | exact E |].
    rewrite (@clear_boxes_clears (find_objects labels) k b x); [lia | | exact Hb | exact Hx |].
    + unfold analysis in A. destruct (analyse_fields _ _ _ A) as (_ & _ & _ & _ & _ & Hd).
      rewrite Hd. apply unique_In. apply in_map. exact Hi.
    + rewrite Sh. exact B.
Qed.

Lemma contested_centroid_loses_a_peak_witness :
  let nb := returned (mkNeighbours [] [] [] [] [] []) (analysis chain_peaks chain_dt) in
  let out := returned (full [] false) (trim_nearby_peaks chain_peaks chain_dt) in
  analysis chain_peaks chain_dt = Ok nb
  /\ trim_nearby_peaks chain_peaks chain_dt = Ok out
  /\ In 0%nat (hits nb)
  /\ drop_choice (dist_to_solid nb) (nearest_neighbor nb) 0 = 1%nat
  /\ get false out [0; 2] = false.
Proof.
  intros nb out.
  assert (A : analysis chain_peaks chain_dt = Ok nb) by (vm_compute; reflexivity).
  assert (T : trim_nearby_peaks chain_peaks chain_dt = Ok out) by (vm_compute; reflexivity).
  assert (Hi : In 0%nat (hits nb)) by (vm_compute; auto).
  assert (K : drop_choice (dist_to_solid nb) (nearest_neighbor nb) 0 = 1%nat)
    by (vm_compute; reflexivity).
  split; [exact A | split; [exact T | split; [exact Hi | split; [exact K |]]]].
  destruct (@contested_centroid_loses_a_peak chain_peaks chain_dt nb out 0%nat A T Hi)
    as [_ F].
  apply F; [vm_compute; reflexivity | rewrite K; vm_compute; reflexivity].
Defined.

(** C5 (as stated) fails on [chain_peaks]: the middle peak is removed, and
    the two outer peaks survive although their distance, 5, is less than
    the field value at either of them (6 and 7). *)
Theorem surviving_pair_can_satisfy_merge_trigger :
  exists out nb,
    trim_nearby_peaks chain_peaks chain_dt = Ok out
    /\ analysis out chain_dt = Ok nb
    /\ crds nb = [[0; 0]; [0; 5]]
    /\ merge_trigger chain_dt [0; 0] [0; 5] = true.
Proof.
  eexists. eexists.
  split; [vm_compute; reflexivity|].
  split; [vm_compute; reflexivity|].
  split; vm_compute; reflexivity.
Qed.

(** C8 (as stated) fails on [chain_peaks]: the first run leaves the two
    outer peaks, which are contested against each other, and the second
    run removes the one at column 0. *)
Theorem trim_nearby_peaks_not_idempotent :
  exists out out2,
    trim_nearby_peaks chain_peaks chain_dt = Ok out
    /\ trim_nearby_peaks out chain_dt = Ok out2
    /\ get false out [0; 0] = true
    /\ get false out2 [0; 0] = false
    /\ out2 <> out.
Proof.
  eexists. eexists.
  split; [vm_compute; reflexivity|].
  split; [vm_compute; reflexivity|].
  split; [vm_compute; reflexivity|].
  split; [vm_compute; reflexivity|].
  intros E. discriminate E.
Qed.

Lemma tabulate_ext {A} sh (f g : coord -> A) :
  (forall x, inb sh x = true -> f x = g x) -> tabulate sh f = tabulate sh g.
Proof.
  intros H. unfold tabulate. f_equal. apply map_ext_in.
  intros x Hx. apply H, in_ndindex, Hx.
Qed.

Lemma unique_nil : unique [] = [].
Proof. reflexivity. Qed.

(** ** PeakDetector *)

Lemma qmax_cases a b : (qmax a b = a \/ qmax a b = b) /\ (a <= qmax a b)%Q /\ (b <= qmax a b)%Q.
Proof.
  unfold qmax. destruct (Qle_bool a b) eqn:E.
  - apply Qle_bool_iff in E. repeat split; auto. apply Qle_refl.
  - assert (L : (b < a)%Q).
    { apply Qnot_le_lt. intros L. apply Qle_bool_iff in L. congruence. }
    repeat split; auto; [apply Qle_refl | apply Qlt_le_weak; exact L].
Qed.

Lemma fold_qmax_spec l : forall a,
  (fold_left qmax l a = a \/ In (fold_left qmax l a) l)
  /\ (a <= fold_left qmax l a)%Q
  /\ (forall v, In v l -> (v <= fold_left qmax l a)%Q).
Proof.
  induction l as [|w l IH]; intros a; simpl.
  - repeat split; auto; [apply Qle_refl | intros v []].
  - destruct (IH (qmax a w)) as (H1 & H2 & H3).
    destruct (qmax_cases a w) as (C & La & Lw).
    repeat split.
    + destruct H1 as [H1|H1]; [|auto].
      rewrite H1. destruct C as [-> | ->]; auto.
    + eapply Qle_trans; eauto.
    + intros v [<-|Hv]; [eapply Qle_trans; eauto | auto].
Qed.

Lemma max_list_spec l :
  l <> [] -> In (max_list l) l /\ forall v, In v l -> (v <= max_list l)%Q.
Proof.
  destruct l as [|a l]; [congruence|]. intros _. simpl.
  destruct (fold_qmax_spec l a) as (H1 & H2 & H3). split.
  - destruct H1 as [-> | H1]; auto.
  - intros v [<-|Hv]; auto.
Qed.

(** The maximum depends on the set of values only. *)
Lemma max_list_same l1 l2 :
  l1 <> [] -> (forall v, In v l1 <-> In v l2) -> (max_list l1 == max_list l2)%Q.
Proof.
  intros N H.
  assert (N2 : l2 <> []).
  { destruct l1 as [|a l1]; [congruence|]. intros ->. apply (H a). simpl. auto. }
  destruct (max_list_spec N) as [I1 U1]. destruct (max_list_spec N2) as [I2 U2].
  apply Qle_antisym; [apply U2, H, I1 | apply U1, H, I2].
Qed.

Lemma reflect1_inside n i : 0 <= i < Z.of_nat n -> reflect1 n i = i.
Proof.
  intros H. unfold reflect1. rewrite Z.mod_small by lia.
  destruct (i <? Z.of_nat n) eqn:E; [reflexivity | apply Z.ltb_ge in E; lia].
Qed.

(** Reflection at the border never moves a cell further away from a cell
    inside the array. *)
Lemma reflect1_close n x o :
  0 <= x < Z.of_nat n ->
  0 <= reflect1 n (x + o) < Z.of_nat n
  /\ (reflect1 n (x + o) - x) * (reflect1 n (x + o) - x) <= o * o.
Proof.
  intros H. unfold reflect1.
  set (N := Z.of_nat n) in *.
  assert (P : 0 < 2 * N) by lia.
  pose proof (Z.mod_pos_bound (x + o) (2 * N) P) as M.
  pose proof (Z.div_mod (x + o) (2 * N) ltac:(lia)) as D.
  set (q := (x + o) / (2 * N)) in *. set (m := (x + o) mod (2 * N)) in *.
  destruct (m <? N) eqn:E; [apply Z.ltb_lt in E | apply Z.ltb_ge in E].
  - split; [lia|].
    assert (C : q = 0 \/ q >= 1 \/ q <= -1) by lia.
    destruct C as [C|[C|C]].
    + subst q. replace (m - x) with o by lia. lia.
    + assert (N <= N * q) by nia.
      assert (- o <= m - x <= o) by lia. nia.
    + assert (N * q <= - N) by nia.
      assert (o <= m - x <= - o) by lia. nia.
  - split; [lia|].
    assert (C : q >= 0 \/ q <= -1) by lia.
    destruct C as [C|C].
    + assert (0 <= N * q) by nia.
      assert (- o <= 2 * N - 1 - m - x <= o) by lia. nia.
    + assert (N * q <= - N) by nia.
      assert (o <= 2 * N - 1 - m - x <= - o) by lia. nia.
Qed.

Lemma sumsq_nonneg o : 0 <= sumsq o.
Proof. induction o as [|i o IH]; simpl; [lia | nia]. Qed.

Lemma sumsq_zero rank : sumsq (repeat 0 rank) = 0.
Proof. induction rank as [|rank IH]; simpl; [reflexivity | rewrite IH; reflexivity]. Qed.

Lemma reflect_close sh : forall x o,
  inb sh x = true -> length o = length sh ->
  inb sh (reflect sh (vadd x o)) = true
  /\ dist2 (reflect sh (vadd x o)) x <= sumsq o.
Proof.
  unfold dist2.
  induction sh as [|n sh IH]; intros [|i x] [|j o] B L; try discriminate.
  - split; [reflexivity | simpl; lia].
  - apply inb_cons in B. destruct B as [Bi B].
    destruct (IH x o B) as [I1 I2]; [simpl in L; lia|].
    destruct (@reflect1_close n i j Bi) as [R1 R2].
    simpl. split; [apply inb_cons; split; assumption | lia].
Qed.

Lemma reflect_inside sh : forall y, inb sh y = true -> reflect sh y = y.
Proof.
  induction sh as [|n sh IH]; intros [|i y] B; try discriminate; [reflexivity|].
  apply inb_cons in B. destruct B as [Bi B].
  simpl. rewrite reflect1_inside by exact Bi. rewrite IH by exact B. reflexivity.
Qed.

Lemma vadd_vsub_l x : forall y, length x = length y -> vadd x (vsub y x) = y.
Proof.
  induction x as [|i x IH]; intros [|j y] H; simpl in *; try discriminate; auto.
  f_equal; [lia | apply IH; lia].
Qed.

Lemma vsub_length x : forall y, length x = length y -> length (vsub x y) = length x.
Proof.
  induction x as [|i x IH]; intros [|j y] H; simpl in *; try discriminate; auto.
Qed.

Lemma vsub_repeat c rank : forall p,
  length p = rank -> vsub p (repeat c rank) = map (fun i => i - c) p.
Proof.
  induction rank as [|rank IH]; intros [|i p] H; simpl in *; try discriminate; auto.
  f_equal. apply IH. lia.
Qed.

Lemma half_odd r : ((2 * r + 1) / 2 = r)%nat.
Proof. symmetry. apply (Nat.div_unique _ _ _ 1%nat); lia. Qed.

Lemma centre_nball rank r : centre (nball rank r) = repeat (Z.of_nat r) rank.
Proof.
  unfold centre, nball, tabulate. cbn [shape].
  induction rank as [|rank IH]; [reflexivity|].
  cbn [repeat map]. rewrite IH, half_odd. reflexivity.
Qed.

Lemma sumsq_bound r o :
  0 <= r -> sumsq o <= r * r -> Forall (fun i => - r <= i <= r) o.
Proof.
  intros R. induction o as [|i o IH]; intros H; constructor; simpl in H;
    pose proof (sumsq_nonneg o).
  - nia.
  - apply IH. nia.
Qed.

Lemma inb_repeat_shift r rank : forall o,
  length o = rank -> Forall (fun i => - Z.of_nat r <= i <= Z.of_nat r) o ->
  inb (repeat (2 * r + 1)%nat rank) (map (fun i => i + Z.of_nat r) o) = true.
Proof.
  induction rank as [|rank IH]; intros [|i o] L F; try discriminate; [reflexivity|].
  inversion F as [|? ? Fi Fo]; subst.
  simpl repeat. simpl map. apply inb_cons. split; [lia | apply IH; [simpl in L; lia | exact Fo]].
Qed.

(** The offsets of a ball are the integer vectors of its rank and of
    length at most [r]. *)
Lemma offsets_nball rank r o :
  In o (offsets (nball rank r)) <->
  length o = rank /\ sumsq o <= Z.of_nat r * Z.of_nat r.
Proof.
  unfold offsets. rewrite centre_nball, in_map_iff. split.
  - intros [p [E Hp]]. apply filter_In in Hp. destruct Hp as [Hp G].
    apply in_ndindex in Hp.
    assert (L : length p = rank).
    { apply inb_length in Hp. unfold nball in Hp. simpl in Hp.
      rewrite repeat_length in Hp. exact Hp. }
    unfold nball in G. rewrite get_tabulate in G by exact Hp.
    apply Z.leb_le in G. rewrite vsub_repeat in E by exact L. subst o.
    split; [rewrite length_map; exact L | exact G].
  - intros [L S].
    assert (B : inb (repeat (2 * r + 1)%nat rank) (map (fun i => i + Z.of_nat r) o) = true).
    { apply inb_repeat_shift; [exact L | apply sumsq_bound; [lia | exact S]]. }
    assert (C : centred r (map (fun i => i + Z.of_nat r) o) = o).
    { unfold centred. rewrite map_map. rewrite <- (map_id o) at 2.
      apply map_ext. intros i. lia. }
    exists (map (fun i => i + Z.of_nat r) o). split.
    + rewrite vsub_repeat by (rewrite length_map; exact L). exact C.
    + apply filter_In. split; [apply in_ndindex; exact B|].
      unfold nball. rewrite get_tabulate by exact B. rewrite C.
      apply Z.leb_le. exact S.
Qed.

(** With a ball as footprint, the maximum filter in [reflect] mode takes
    the maximum over the cells of the array within distance [r]. *)
Lemma maximum_filter_nball input rank r x :
  length (shape input) = rank -> inb (shape input) x = true ->
  (get 0%Q (maximum_filter input (nball rank r)) x == neighbourhood_max input r x)%Q.
Proof.
  intros Rk B. unfold maximum_filter, neighbourhood_max.
  rewrite get_tabulate by exact B.
  assert (Lx : length x = rank) by (rewrite <- Rk; apply inb_length; exact B).
  assert (Z0 : In (repeat 0 rank) (offsets (nball rank r))).
  { apply offsets_nball. split; [apply repeat_length|].
    rewrite sumsq_zero. nia. }
  apply max_list_same.
  - destruct (offsets (nball rank r)); [destruct Z0 | discriminate].
  - intros v. rewrite !in_map_iff. split.
    + intros [o [E Ho]]. apply offsets_nball in Ho. destruct Ho as [Lo So].
      destruct (@reflect_close (shape input) x o B) as [I1 I2]; [lia|].
      exists (reflect (shape input) (vadd x o)). split; [exact E|].
      apply filter_In. split; [apply in_ndindex; exact I1 | apply Z.leb_le; lia].
    + intros [y [E Hy]]. apply filter_In in Hy. destruct Hy as [Hy D].
      apply in_ndindex in Hy. apply Z.leb_le in D.
      assert (Ly : length y = rank) by (rewrite <- Rk; apply inb_length; exact Hy).
      exists (vsub y x). split.
      * rewrite vadd_vsub_l by lia. rewrite reflect_inside by exact Hy. exact E.
      * apply offsets_nball. split; [rewrite vsub_length; lia | exact D].
Qed.

Lemma biased_get dt y :
  inb (shape dt) y = true ->
  get 0%Q (biased dt) y
  = (get 0 dt y + (if Qltb 0 (get 0 dt y) then 0 else 2))%Q.
Proof.
  intros B. unfold biased, aplus, scale_mask, anot, gt0.
  rewrite get_tabulate by exact B. f_equal.
  rewrite !get_tabulate by exact B.
  destruct (Qltb 0 (get 0%Q dt y)); reflexivity.
Qed.

(** C1 (amended).  For a field whose squeezed form [d] has two or three
    axes, [find_peaks] returns a mask of the shape of [d] in which a cell
    [x] is set exactly when [d[x] > 0] and [d[x]] equals the maximum, over
    the cells within distance [r] of [x], of the biased field, which is [d]
    on pore cells and [d + 2] on solid cells. *)
Theorem find_peaks_local_maxima (dt : ndarray Q) (r : nat) :
  let d := squeeze dt in
  (ndim d = 2 \/ ndim d = 3)%nat ->
  exists peaks,
    find_peaks dt r None = Ok peaks
    /\ shape peaks = shape d
    /\ (forall y, inb (shape d) y = true ->
          get 0%Q (biased d) y
          = (get 0 d y + (if Qltb 0 (get 0 d y) then 0 else 2))%Q)
    /\ (forall x, inb (shape d) x = true ->
          (get false peaks x = true <->
           (0 < get 0 d x)%Q /\ (get 0 d x == neighbourhood_max (biased d) r x)%Q)).
Proof.
  intros d Hd.
  assert (F : exists rank, ndim d = rank /\
                find_peaks dt r None
                = Ok (aand (aeq d (maximum_filter (biased d) (nball rank r))) (gt0 d))).
  { unfold find_peaks. fold d.
    assert (E : ndim (gt0 d) = ndim d) by reflexivity. rewrite E.
    destruct Hd as [H|H]; rewrite H; simpl.
    - exists 2%nat. split; reflexivity.
    - exists 3%nat. split; reflexivity. }
  destruct F as (rank & Rk & F).
  eexists. split; [exact F|]. split; [reflexivity|].
  split; [intros y; apply biased_get|].
  intros x B. unfold aand, aeq, gt0.
  rewrite get_tabulate by exact B. rewrite !get_tabulate by exact B.
  rewrite andb_true_iff, Qltb_lt, Qeq_bool_iff.
  pose proof (@maximum_filter_nball (biased d) rank r x Rk B) as M.
  split; intros [H1 H2].
  - split; [exact H2 | rewrite <- M; exact H1].
  - split; [rewrite M; exact H2 | exact H1].
Qed.

Lemma find_peaks_local_maxima_witness :
  (ndim (squeeze low_high_dt) = 2 \/ ndim (squeeze low_high_dt) = 3)%nat
  /\ exists peaks,
       find_peaks low_high_dt 4 None = Ok peaks
       /\ get false peaks [1; 3] = true
       /\ get false peaks [1; 1] = false.
Proof.
  assert (H : (ndim (squeeze low_high_dt) = 2 \/ ndim (squeeze low_high_dt) = 3)%nat)
    by (left; reflexivity).
  split; [exact H|].
  destruct (@find_peaks_local_maxima low_high_dt 4 H) as (peaks & F & _ & _ & E).
  exists peaks. split; [exact F|]. split.
  - apply E; [reflexivity|]. split; vm_compute; reflexivity.
  - destruct (get false peaks [1; 1]) eqn:P; [|reflexivity].
    apply E in P; [|reflexivity]. destruct P as [_ P].
    vm_compute in P. discriminate P.
Defined.

(** C1 (as stated) fails on [lone_pore]: the pore cell is positive and is
    the maximum of the field over its neighbourhood, but the solid cells
    around it enter the filter with the value 2, so the cell is not
    reported as a peak. *)
Theorem bias_hides_a_maximum :
  exists peaks,
    find_peaks lone_pore 4 None = Ok peaks
    /\ inb (shape (squeeze lone_pore)) [1; 1] = true
    /\ Qlt 0 (get 0%Q (squeeze lone_pore) [1; 1])
    /\ Qeq (get 0%Q (squeeze lone_pore) [1; 1])
           (neighbourhood_max (squeeze lone_pore) 4 [1; 1])
    /\ get false peaks [1; 1] = false
    /\ ~ (get false peaks [1; 1] = true <->
          Qlt 0 (get 0%Q (squeeze lone_pore) [1; 1])
          /\ Qeq (get 0%Q (squeeze lone_pore) [1; 1])
                 (neighbourhood_max (squeeze lone_pore) 4 [1; 1])).
Proof.
  eexists. split; [vm_compute; reflexivity|].
  split; [reflexivity|].
  assert (P : Qlt 0 (get 0%Q (squeeze lone_pore) [1; 1])) by (vm_compute; reflexivity).
  assert (M : Qeq (get 0%Q (squeeze lone_pore) [1; 1])
                  (neighbourhood_max (squeeze lone_pore) 4 [1; 1]))
    by (vm_compute; reflexivity).
  split; [exact P|]. split; [exact M|]. split; [vm_compute; reflexivity|].
  intros [_ H]. specialize (H (conj P M)). vm_compute in H. discriminate H.
Qed.

(** * Further properties of the code *)

Ltac each_index y B :=
  apply in_ndindex in B; vm_compute in B;
  repeat (destruct B as [B|B]; [subst y|]); try destruct B.

(** ** Further properties of [find_peaks] *)

Lemma find_peaks_ok_rank dt r peaks :
  find_peaks dt r None = Ok peaks ->
  exists rank, ndim (squeeze dt) = rank /\ (rank = 2 \/ rank = 3)%nat
    /\ peaks = aand (aeq (squeeze dt)
                         (maximum_filter (biased (squeeze dt)) (nball rank r)))
                    (gt0 (squeeze dt)).
Proof.
  unfold find_peaks. set (d := squeeze dt).
  assert (E : ndim (gt0 d) = ndim d) by reflexivity. rewrite E.
  destruct (ndim d =? 2)%nat eqn:E2.
  - simpl. intros H. injection H as <-. apply Nat.eqb_eq in E2.
    exists 2%nat. repeat split; auto.
  - destruct (ndim d =? 3)%nat eqn:E3; simpl; [|discriminate].
    intros H. injection H as <-. apply Nat.eqb_eq in E3.
    exists 3%nat. repeat split; auto.
Qed.

Lemma find_peaks_get dt r peaks x :
  find_peaks dt r None = Ok peaks ->
  inb (shape (squeeze dt)) x = true ->
  (get false peaks x = true <->
   (0 < get 0 (squeeze dt) x)%Q
   /\ (get 0 (squeeze dt) x == neighbourhood_max (biased (squeeze dt)) r x)%Q).
Proof.
  intros F B. destruct (@find_peaks_ok_rank dt r peaks F) as (rank & Rk & _ & ->).
  unfold aand, aeq, gt0.
  rewrite get_tabulate by exact B. rewrite !get_tabulate by exact B.
  rewrite andb_true_iff, Qltb_lt, Qeq_bool_iff.
  pose proof (@maximum_filter_nball (biased (squeeze dt)) rank r x Rk B) as M.
  split; intros [H1 H2].
  - split; [exact H2 | rewrite <- M; exact H1].
  - split; [rewrite M; exact H2 | exact H1].
Qed.

Lemma find_peaks_other_rank dt r :
  ndim (squeeze dt) <> 2%nat -> ndim (squeeze dt) <> 3%nat ->
  find_peaks dt r None = Raise UnsupportedDimension.
Proof.
  intros H2 H3. unfold find_peaks. set (d := squeeze dt) in *.
  assert (E : ndim (gt0 d) = ndim d) by reflexivity. rewrite E.
  apply Nat.eqb_neq in H2. apply Nat.eqb_neq in H3. rewrite H2, H3. reflexivity.
Qed.

Lemma find_peaks_returns dt r :
  (ndim (squeeze dt) = 2 \/ ndim (squeeze dt) = 3)%nat ->
  exists peaks, find_peaks dt r None = Ok peaks.
Proof.
  intros H. unfold find_peaks. set (d := squeeze dt) in *.
  assert (E : ndim (gt0 d) = ndim d) by reflexivity. rewrite E.
  destruct H as [H|H]; rewrite H; simpl; eexists; reflexivity.
Qed.

(** X1.  [find_peaks] without a footprint raises exactly when the squeezed
    field has neither two nor three axes, and the error is then
    UnsupportedDimension.  For two and three axes the footprint it builds,
    [disk(r)] or [ball(r)], has the rank of the field. *)
Theorem find_peaks_unsupported_dimension (dt : ndarray Q) (r : nat) :
  (find_peaks dt r None = Raise UnsupportedDimension <->
   ndim (squeeze dt) <> 2%nat /\ ndim (squeeze dt) <> 3%nat)
  /\ (forall e, find_peaks dt r None = Raise e -> e = UnsupportedDimension)
  /\ (ndim (squeeze dt) = 2%nat -> ndim (disk r) = ndim (squeeze dt))
  /\ (ndim (squeeze dt) = 3%nat -> ndim (ball r) = ndim (squeeze dt)).
Proof.
  unfold find_peaks. set (d := squeeze dt).
  assert (E : ndim (gt0 d) = ndim d) by reflexivity. rewrite E.
  split; [|split; [|split]].
  - destruct (ndim d =? 2)%nat eqn:E2; [apply Nat.eqb_eq in E2 | apply Nat.eqb_neq in E2].
    + simpl. split; [discriminate | intros [H _]; contradiction].
    + destruct (ndim d =? 3)%nat eqn:E3;
        [apply Nat.eqb_eq in E3 | apply Nat.eqb_neq in E3]; simpl.
      * split; [discriminate | intros [_ H]; contradiction].
      * split; auto.
  - intros e. destruct (ndim d =? 2)%nat; simpl; [discriminate|].
    destruct (ndim d =? 3)%nat; simpl; [discriminate|]. congruence.
  - intros ->. reflexivity.
  - intros ->. reflexivity.
Qed.

Lemma max_list_pointwise {A} (f g : A -> Q) l :
  l <> [] -> (forall x, In x l -> (f x == g x)%Q) ->
  (max_list (map f l) == max_list (map g l))%Q.
Proof.
  intros N H.
  assert (Nf : map f l <> []) by (destruct l; [congruence | discriminate]).
  assert (Ng : map g l <> []) by (destruct l; [congruence | discriminate]).
  destruct (max_list_spec Nf) as [If Uf]. destruct (max_list_spec Ng) as [Ig Ug].
  apply in_map_iff in If. destruct If as [a [Ea Ha]].
  apply in_map_iff in Ig. destruct Ig as [b [Eb Hb]].
  apply Qle_antisym.
  - rewrite <- Ea, (H a Ha). apply Ug, in_map, Ha.
  - rewrite <- Eb, <- (H b Hb). apply Uf, in_map, Hb.
Qed.

Lemma dist2_self x : dist2 x x = 0.
Proof.
  unfold dist2. induction x as [|i x IH]; simpl; [reflexivity|].
  rewrite IH. lia.
Qed.

Lemma in_neighbourhood sh r x y :
  In y (neighbourhood sh r x) <->
  inb sh y = true /\ dist2 y x <= Z.of_nat r * Z.of_nat r.
Proof.
  unfold neighbourhood. rewrite filter_In, in_ndindex, Z.leb_le. tauto.
Qed.

(** X2.  When every cell within distance [r] of [x] is a pore cell, [x]
    is reported as a peak exactly when its value equals the maximum of the
    (unbiased) field over that neighbourhood. *)
Theorem find_peaks_away_from_solid (dt : ndarray Q) (r : nat) (peaks : ndarray bool)
    (x : coord) :
  let d := squeeze dt in
  find_peaks dt r None = Ok peaks ->
  inb (shape d) x = true ->
  (forall y, inb (shape d) y = true -> dist2 y x <= Z.of_nat r * Z.of_nat r ->
             (0 < get 0 d y)%Q) ->
  (get false peaks x = true <-> (get 0 d x == neighbourhood_max d r x)%Q).
Proof.
  intros d F B P.
  assert (Px : (0 < get 0 d x)%Q) by (apply P; [exact B | rewrite dist2_self; nia]).
  assert (M : (neighbourhood_max (biased d) r x == neighbourhood_max d r x)%Q).
  { unfold neighbourhood_max. apply max_list_pointwise.
    - match goal with
      | |- ?l <> [] => assert (I : In x l)
      end.
      { apply in_neighbourhood. split; [exact B | rewrite dist2_self; nia]. }
      intros E. rewrite E in I. destruct I.
    - intros y Hy. apply in_neighbourhood in Hy. destruct Hy as [By Dy].
      rewrite biased_get by exact By.
      assert (Py : (0 < get 0 d y)%Q) by (apply P; assumption).
      apply Qltb_lt in Py. rewrite Py. apply Qplus_0_r. }
  rewrite (@find_peaks_get dt r peaks x F B). fold d. rewrite M. tauto.
Qed.

Lemma find_peaks_away_from_solid_witness :
  let peaks := returned (full [] false) (find_peaks low_high_dt 4 None) in
  find_peaks low_high_dt 4 None = Ok peaks
  /\ get false peaks [1; 3] = true
  /\ Qeq (get 0%Q (squeeze low_high_dt) [1; 3])
         (neighbourhood_max (squeeze low_high_dt) 4 [1; 3]).
Proof.
  intros peaks.
  assert (F : find_peaks low_high_dt 4 None = Ok peaks) by (vm_compute; reflexivity).
  assert (P : get false peaks [1; 3] = true) by (vm_compute; reflexivity).
  split; [exact F | split; [exact P|]].
  apply (@find_peaks_away_from_solid low_high_dt 4 peaks [1; 3] F).
  - reflexivity.
  - intros y B _. each_index y B; vm_compute; reflexivity.
  - exact P.
Defined.

(** X3.  A cell with a solid cell [y] within distance [r] whose value is
    less than [dt[y] + 2] is never reported as a peak: next to a solid cell
    of value 0 every peak has a value of at least 2. *)
Theorem find_peaks_rejects_cells_near_solid (dt : ndarray Q) (r : nat)
    (peaks : ndarray bool) (x y : coord) :
  let d := squeeze dt in
  find_peaks dt r None = Ok peaks ->
  inb (shape d) x = true ->
  inb (shape d) y = true ->
  dist2 y x <= Z.of_nat r * Z.of_nat r ->
  (get 0 d y <= 0)%Q ->
  (get 0 d x < get 0 d y + 2)%Q ->
  get false peaks x = false.
Proof.
  intros d F Bx By D S L.
  destruct (get false peaks x) eqn:P; [exfalso | reflexivity].
  apply (@find_peaks_get dt r peaks x F Bx) in P. fold d in P. destruct P as [_ P].
  assert (N : map (get 0%Q (biased d)) (neighbourhood (shape (biased d)) r x) <> []).
  { assert (I : In y (neighbourhood (shape (biased d)) r x))
      by (apply in_neighbourhood; split; assumption).
    intros E. apply (in_map (get 0%Q (biased d))) in I. rewrite E in I. destruct I. }
  destruct (max_list_spec N) as [_ U].
  assert (Le : (get 0 (biased d) y <= neighbourhood_max (biased d) r x)%Q).
  { apply U, in_map, in_neighbourhood. split; assumption. }
  rewrite biased_get in Le by exact By.
  assert (Sy : Qltb 0 (get 0%Q d y) = false).
  { destruct (Qltb 0 (get 0%Q d y)) eqn:E; [|reflexivity].
    apply Qltb_lt in E. lra. }
  rewrite Sy in Le. rewrite <- P in Le. lra.
Qed.

Lemma find_peaks_rejects_cells_near_solid_witness :
  let peaks := returned (full [] false) (find_peaks lone_pore 4 None) in
  find_peaks lone_pore 4 None = Ok peaks
  /\ Qle (get 0%Q (squeeze lone_pore) [0; 0]) 0
  /\ get false peaks [1; 1] = false.
Proof.
  intros peaks.
  assert (F : find_peaks lone_pore 4 None = Ok peaks) by (vm_compute; reflexivity).
  assert (S : Qle (get 0%Q (squeeze lone_pore) [0; 0]) 0) by (vm_compute; discriminate).
  split; [exact F | split; [exact S|]].
  apply (@find_peaks_rejects_cells_near_solid lone_pore 4 peaks [1; 1] [0; 0] F).
  - reflexivity.
  - reflexivity.
  - vm_compute. discriminate.
  - exact S.
  - vm_compute. reflexivity.
Defined.

(** ** Labels are bounded by the blob count *)

Lemma label_visit_le mask structure st x :
  (forall y, get 0 (fst st) y <= Z.of_nat (snd st)) ->
  forall y, get 0 (fst (label_visit mask structure st x)) y
            <= Z.of_nat (snd (label_visit mask structure st x)).
Proof.
  intros H y. destruct st as [labels n]. unfold label_visit. cbn [fst snd] in *.
  destruct (get false mask x && (get 0 labels x =? 0)); cbn [fst snd]; [|apply H].
  match goal with
  | |- context [get 0 (tabulate ?sh ?f) y] =>
      destruct (get_tabulate_cases 0 sh f y) as [[_ ->]|[_ ->]]; [|lia]
  end.
  destruct (get false _ y); [lia | specialize (H y); lia].
Qed.

Lemma label_le mask structure y :
  get 0 (fst (label mask structure)) y <= Z.of_nat (snd (label mask structure)).
Proof.
  unfold label.
  assert (G : forall l st, (forall y, get 0 (fst st) y <= Z.of_nat (snd st)) ->
               forall y, get 0 (fst (fold_left (label_visit mask structure) l st)) y
                         <= Z.of_nat (snd (fold_left (label_visit mask structure) l st))).
  { induction l as [|x l IH]; intros st H; simpl; [exact H|].
    apply IH. apply label_visit_le. exact H. }
  apply G. intros z. cbn [fst snd]. unfold full.
  destruct (get_tabulate_cases 0 (shape mask) (fun _ => 0) z) as [[_ ->]|[_ ->]]; lia.
Qed.

(** A mask without a set cell has no blob, and a mask with a set cell has
    at least one. *)
Lemma label_empty mask structure :
  (forall x, inb (shape mask) x = true -> get false mask x = false) ->
  label mask structure = (full (shape mask) 0, 0%nat).
Proof.
  intros H. unfold label.
  assert (G : forall l st, (forall x, In x l -> get false mask x = false) ->
               fold_left (label_visit mask structure) l st = st).
  { induction l as [|x l IH]; intros st Hl; simpl; [reflexivity|].
    rewrite IH by (intros; apply Hl; simpl; auto).
    unfold label_visit. destruct st as [labels n].
    rewrite (Hl x) by (simpl; auto). reflexivity. }
  apply G. intros x Hx. apply H, in_ndindex, Hx.
Qed.

Lemma label_of_set_cell mask structure x :
  inb (shape mask) x = true -> get false mask x = true ->
  1 <= get 0 (fst (label mask structure)) x <= Z.of_nat (snd (label mask structure)).
Proof.
  intros B M. pose proof (label_positive mask structure x B) as P.
  rewrite M in P. apply Z.ltb_lt in P.
  pose proof (label_le mask structure x). lia.
Qed.

Lemma label_count_zero mask structure :
  snd (label mask structure) = 0%nat ->
  forall x, inb (shape mask) x = true -> get false mask x = false.
Proof.
  intros Z0 x B. destruct (get false mask x) eqn:M; [|reflexivity].
  pose proof (label_of_set_cell mask structure x B M) as L.
  rewrite Z0 in L. lia.
Qed.

(** ** Further properties of [trim_saddle_points] *)

Lemma window_shape peaks peaks' slices_ i :
  shape peaks' = shape peaks -> window peaks' slices_ i = window peaks slices_ i.
Proof. intros E. unfold window. rewrite E. reflexivity. Qed.

Lemma trim_blob_shape dt max_iters structure labels slices_ peaks i :
  shape (trim_blob dt max_iters structure labels slices_ peaks i) = shape peaks.
Proof. reflexivity. Qed.

Lemma fold_trim_blob_shape dt max_iters structure labels slices_ l : forall p,
  shape (fold_left (trim_blob dt max_iters structure labels slices_) l p) = shape p.
Proof.
  induction l as [|i l IH]; intros p; simpl; [reflexivity|].
  rewrite IH. reflexivity.
Qed.

Lemma blob_outcome_cases dt max_iters structure labels s i :
  blob_outcome dt max_iters structure labels s i = Arr (blob_mask labels s i)
  \/ blob_outcome dt max_iters structure labels s i = Scalar false.
Proof. unfold blob_outcome. apply grow_blob_cases. Qed.

(** The value of a cell of blob [i] right after the step of blob [i]. *)
Lemma trim_blob_own_cell dt max_iters structure labels peaks0 p i x :
  shape labels = shape peaks0 -> shape p = shape peaks0 ->
  inb (shape peaks0) x = true -> get 0 labels x = Z.of_nat (i + 1) ->
  get false (trim_blob dt max_iters structure labels (find_objects labels) p i) x
  = blob_kept dt max_iters structure labels (window peaks0 (find_objects labels) i) i.
Proof.
  intros Sl Sp B E.
  rewrite trim_blob_get by (rewrite Sp; exact B).
  rewrite (@window_shape peaks0 p (find_objects labels) i Sp).
  rewrite (blob_in_window labels peaks0 i x Sl B E).
  unfold blob_kept.
  destruct (blob_outcome_cases dt max_iters structure labels
              (window peaks0 (find_objects labels) i) i) as [-> | ->];
    [apply Z.eqb_eq; exact E | reflexivity].
Qed.

Lemma trim_blob_other_cell dt max_iters structure labels peaks0 p j x :
  shape p = shape peaks0 -> inb (shape peaks0) x = true ->
  in_slice (window peaks0 (find_objects labels) j) x = false ->
  get false (trim_blob dt max_iters structure labels (find_objects labels) p j) x
  = get false p x.
Proof.
  intros Sp B W.
  rewrite trim_blob_get by (rewrite Sp; exact B).
  rewrite (@window_shape peaks0 p (find_objects labels) j Sp), W. reflexivity.
Qed.

Lemma fold_trim_blob_separated dt max_iters structure labels peaks0 i x l : forall p,
  shape labels = shape peaks0 -> shape p = shape peaks0 ->
  inb (shape peaks0) x = true -> get 0 labels x = Z.of_nat (i + 1) ->
  (forall j, In j l -> j <> i ->
             in_slice (window peaks0 (find_objects labels) j) x = false) ->
  get false (fold_left (trim_blob dt max_iters structure labels (find_objects labels)) l p) x
  = if existsb (Nat.eqb i) l
    then blob_kept dt max_iters structure labels (window peaks0 (find_objects labels) i) i
    else get false p x.
Proof.
  induction l as [|j l IH]; intros p Sl Sp B E H; simpl; [reflexivity|].
  rewrite IH; auto; [|intros; apply H; simpl; auto].
  destruct (Nat.eq_dec i j) as [<-|NE].
  - rewrite Nat.eqb_refl. simpl.
    rewrite (@trim_blob_own_cell dt max_iters structure labels peaks0 p i x) by assumption.
    destruct (existsb (Nat.eqb i) l); reflexivity.
  - assert (F : (i =? j)%nat = false) by (apply Nat.eqb_neq; exact NE).
    rewrite F. simpl.
    rewrite (@trim_blob_other_cell dt max_iters structure labels peaks0 p j x);
      [reflexivity | exact Sp | exact B | apply H; simpl; auto].
Qed.

Lemma existsb_eqb_seq i n : (i < n)%nat -> existsb (Nat.eqb i) (seq 0 n) = true.
Proof.
  intros H. apply existsb_exists. exists i. split; [apply in_seq; lia | apply Nat.eqb_refl].
Qed.

(** X4.  [trim_saddle_points] keeps the shape of the mask and sets no
    cell that was not set in its input. *)
Theorem trim_saddle_points_never_adds (peaks : ndarray bool) (dt : ndarray Q)
    (max_iters : nat) :
  shape (trim_saddle_points peaks dt max_iters) = shape peaks
  /\ forall x, get false (trim_saddle_points peaks dt max_iters) x = true ->
               get false peaks x = true.
Proof.
  split; [apply trim_saddle_points_shape|].
  intros x. apply trim_saddle_points_subset.
Qed.

(** X5.  A mask without a set cell is returned as it is (the loop over
    blobs runs zero times). *)
Theorem trim_saddle_points_empty_mask (peaks : ndarray bool) (dt : ndarray Q)
    (max_iters : nat) :
  (forall x, inb (shape peaks) x = true -> get false peaks x = false) ->
  trim_saddle_points peaks dt max_iters = peaks.
Proof.
  intros H. unfold trim_saddle_points.
  rewrite (label_empty peaks (cross (ndim peaks)) H). reflexivity.
Qed.

Lemma trim_saddle_points_empty_mask_witness :
  (forall x, inb (shape (full [2; 2]%nat false)) x = true ->
             get false (full [2; 2]%nat false) x = false)
  /\ trim_saddle_points (full [2; 2]%nat false) (full [2; 2]%nat 1%Q) 10
     = full [2; 2]%nat false.
Proof.
  assert (H : forall x, inb (shape (full [2; 2]%nat false)) x = true ->
                        get false (full [2; 2]%nat false) x = false).
  { intros x B. each_index x B; reflexivity. }
  split; [exact H|].
  apply (@trim_saddle_points_empty_mask (full [2; 2]%nat false) (full [2; 2]%nat 1%Q) 10 H).
Defined.

(** X6.  When a cell of blob [i] lies in the window of no other blob, its
    value in the result is decided by the loop of blob [i] alone: it is set
    exactly when that loop kept the blob. *)
Theorem trim_saddle_points_separated_blobs (peaks : ndarray bool) (dt : ndarray Q)
    (max_iters : nat) (i : nat) (x : coord) :
  let structure := (if (ndim dt =? 2)%nat then square else cube) 3%nat in
  let labels := fst (label peaks (cross (ndim peaks))) in
  let N := snd (label peaks (cross (ndim peaks))) in
  let slices_ := find_objects labels in
  inb (shape peaks) x = true ->
  get 0 labels x = Z.of_nat (i + 1) ->
  (forall j, (j < N)%nat -> j <> i -> in_slice (window peaks slices_ j) x = false) ->
  get false (trim_saddle_points peaks dt max_iters) x
  = blob_kept dt max_iters structure labels (window peaks slices_ i) i.
Proof.
  intros structure labels N slices_ B E H.
  assert (Sl : shape labels = shape peaks) by apply label_shape.
  assert (Li : (i < N)%nat).
  { pose proof (label_le peaks (cross (ndim peaks)) x) as L.
    fold labels N in L. lia. }
  unfold trim_saddle_points.
  destruct (label peaks (cross (ndim peaks))) as [labels' N'] eqn:EL.
  cbn [fst snd] in *. subst labels N. fold structure.
  rewrite (@fold_trim_blob_separated dt max_iters structure labels' peaks i x);
    auto.
  - rewrite existsb_eqb_seq by exact Li. reflexivity.
  - intros j Hj NE. apply H; [apply in_seq in Hj; lia | exact NE].
Qed.

Lemma trim_saddle_points_separated_blobs_witness :
  let labels := fst (label far_peaks (cross (ndim far_peaks))) in
  get 0 labels [0; 0] = Z.of_nat (0 + 1)
  /\ in_slice (window far_peaks (find_objects labels) 1) [0; 0] = false
  /\ get false (trim_saddle_points far_peaks far_dt 10) [0; 0]
     = blob_kept far_dt 10 (square 3) labels (window far_peaks (find_objects labels) 0) 0.
Proof.
  intros labels.
  assert (H1 : get 0 labels [0; 0] = Z.of_nat (0 + 1)) by (vm_compute; reflexivity).
  assert (H2 : in_slice (window far_peaks (find_objects labels) 1) [0; 0] = false)
    by (vm_compute; reflexivity).
  split; [exact H1 | split; [exact H2|]].
  apply (@trim_saddle_points_separated_blobs far_peaks far_dt 10 0%nat [0; 0]);
    try reflexivity; try exact H1.
  intros j Hj NE.
  assert (N2 : snd (label far_peaks (cross (ndim far_peaks))) = 2%nat)
    by (vm_compute; reflexivity).
  rewrite N2 in Hj. assert (j = 1%nat) by lia. subst j. exact H2.
Defined.

(** X7.  The cells of the blob with the highest label, which is processed
    last, are set in the result exactly when the loop of that blob kept
    it, whatever the other blobs are. *)
Theorem trim_saddle_points_last_blob (peaks : ndarray bool) (dt : ndarray Q)
    (max_iters : nat) (x : coord) :
  let structure := (if (ndim dt =? 2)%nat then square else cube) 3%nat in
  let labels := fst (label peaks (cross (ndim peaks))) in
  let N := snd (label peaks (cross (ndim peaks))) in
  let slices_ := find_objects labels in
  inb (shape peaks) x = true ->
  (1 <= N)%nat ->
  get 0 labels x = Z.of_nat N ->
  get false (trim_saddle_points peaks dt max_iters) x
  = blob_kept dt max_iters structure labels (window peaks slices_ (N - 1)) (N - 1).
Proof.
  intros structure labels N slices_ B N1 E.
  assert (Sl : shape labels = shape peaks) by apply label_shape.
  unfold trim_saddle_points.
  destruct (label peaks (cross (ndim peaks))) as [labels' N'] eqn:EL.
  cbn [fst snd] in *. subst labels N. fold structure.
  replace N' with (S (N' - 1)) at 1 by lia.
  rewrite seq_S, fold_left_app. simpl.
  apply trim_blob_own_cell; auto.
  - apply fold_trim_blob_shape.
  - rewrite E. f_equal. lia.
Qed.

Lemma trim_saddle_points_last_blob_witness :
  let labels := fst (label two_peaks (cross (ndim two_peaks))) in
  let N := snd (label two_peaks (cross (ndim two_peaks))) in
  (1 <= N)%nat
  /\ get 0 labels [1; 3] = Z.of_nat N
  /\ get false (trim_saddle_points two_peaks two_peaks_dt 10) [1; 3]
     = blob_kept two_peaks_dt 10 (square 3) labels
                 (window two_peaks (find_objects labels) (N - 1)) (N - 1).
Proof.
  intros labels N.
  assert (H1 : (1 <= N)%nat) by (vm_compute; lia).
  assert (H2 : get 0 labels [1; 3] = Z.of_nat N) by (vm_compute; reflexivity).
  split; [exact H1 | split; [exact H2|]].
  apply (@trim_saddle_points_last_blob two_peaks two_peaks_dt 10 [1; 3]);
    try reflexivity; try exact H1; try exact H2.
Defined.

(** X8.  For a mask with exactly one blob the result is either the mask
    itself or a mask without any set cell. *)
Theorem trim_saddle_points_single_blob (peaks : ndarray bool) (dt : ndarray Q)
    (max_iters : nat) :
  snd (label peaks (cross (ndim peaks))) = 1%nat ->
  (forall x, inb (shape peaks) x = true ->
             get false (trim_saddle_points peaks dt max_iters) x = get false peaks x)
  \/ (forall x, get false (trim_saddle_points peaks dt max_iters) x = false).
Proof.
  intros N1.
  set (structure := (if (ndim dt =? 2)%nat then square else cube) 3%nat).
  set (labels := fst (label peaks (cross (ndim peaks)))).
  assert (Sl : shape labels = shape peaks) by apply label_shape.
  assert (L1 : forall x, inb (shape peaks) x = true -> get false peaks x = true ->
                         get 0 labels x = Z.of_nat (0 + 1)).
  { intros x B M. pose proof (label_of_set_cell peaks (cross (ndim peaks)) x B M) as L.
    rewrite N1 in L. fold labels in L. simpl. lia. }
  assert (R : trim_saddle_points peaks dt max_iters
              = trim_blob dt max_iters structure labels (find_objects labels) peaks 0).
  { unfold trim_saddle_points, labels.
    destruct (label peaks (cross (ndim peaks))) as [labels' N']. cbn [fst snd] in *.
    subst N'. reflexivity. }
  rewrite R.
  destruct (blob_kept dt max_iters structure labels
              (window peaks (find_objects labels) 0) 0) eqn:K.
  - left. intros x B. destruct (get false peaks x) eqn:M.
    + rewrite (@trim_blob_own_cell dt max_iters structure labels peaks peaks 0%nat x);
        auto.
    + destruct (get false (trim_blob dt max_iters structure labels
                             (find_objects labels) peaks 0) x) eqn:T; [|reflexivity].
      assert (P : get false peaks x = true).
      { apply (@trim_blob_subset dt max_iters structure labels (find_objects labels)
                 peaks peaks 0%nat x); auto.
        apply label_on_mask. }
      congruence.
  - right. intros x.
    destruct (get false (trim_blob dt max_iters structure labels
                           (find_objects labels) peaks 0) x) eqn:T; [|reflexivity].
    assert (P : get false peaks x = true).
    { apply (@trim_blob_subset dt max_iters structure labels (find_objects labels)
               peaks peaks 0%nat x); auto.
      apply label_on_mask. }
    destruct (inb (shape peaks) x) eqn:B.
    + rewrite (@trim_blob_own_cell dt max_iters structure labels peaks peaks 0%nat x)
        in T; auto. congruence.
    + rewrite get_outside in P by exact B. discriminate.
Qed.

Lemma trim_saddle_points_single_blob_witness :
  snd (label high_peak (cross (ndim high_peak))) = 1%nat
  /\ ((forall x, inb (shape high_peak) x = true ->
                 get false (trim_saddle_points high_peak low_high_dt 10) x
                 = get false high_peak x)
      \/ (forall x, get false (trim_saddle_points high_peak low_high_dt 10) x = false)).
Proof.
  assert (H : snd (label high_peak (cross (ndim high_peak))) = 1%nat)
    by (vm_compute; reflexivity).
  split; [exact H|].
  apply (@trim_saddle_points_single_blob high_peak low_high_dt 10 H).
Defined.

(** ** The value of every cell of the result of [trim_saddle_points] *)

Lemma fold_trim_blob_later dt max_iters structure labels peaks0 i x l : forall p,
  shape p = shape peaks0 ->
  inb (shape peaks0) x = true -> get 0 labels x = Z.of_nat (i + 1) ->
  (forall j, In j l -> j <> i) ->
  get false (fold_left (trim_blob dt max_iters structure labels (find_objects labels)) l p) x
  = get false p x
    && forallb (fun j => negb (in_slice (window peaks0 (find_objects labels) j) x)) l.
Proof.
  induction l as [|j l IH]; intros p Sp B E H; simpl; [rewrite andb_true_r; reflexivity|].
  rewrite IH; [| rewrite trim_blob_shape; exact Sp | exact B | exact E
               | intros; apply H; simpl; auto].
  rewrite trim_blob_get by (rewrite Sp; exact B).
  rewrite (@window_shape peaks0 p (find_objects labels) j Sp).
  destruct (in_slice (window peaks0 (find_objects labels) j) x) eqn:W; simpl.
  - rewrite andb_false_r.
    destruct (blob_outcome_cases dt max_iters structure labels
                (window peaks0 (find_objects labels) j) j) as [-> | ->];
      [|reflexivity].
    assert (NE : j <> i) by (apply H; simpl; auto).
    assert (F : (get 0 labels x =? Z.of_nat (j + 1)) = false)
      by (apply Z.eqb_neq; lia).
    rewrite F. reflexivity.
  - reflexivity.
Qed.

(** X24.  The value of a cell of blob [i] in the result of
    [trim_saddle_points]: the cell is set exactly when the loop of blob
    [i] kept the blob and the cell lies in the window of no blob that is
    processed after blob [i].  In particular the cells of a blob that its
    loop found to be a saddle are always cleared. *)
Theorem trim_saddle_points_cell (peaks : ndarray bool) (dt : ndarray Q)
    (max_iters : nat) (i : nat) (x : coord) :
  let structure := (if (ndim dt =? 2)%nat then square else cube) 3%nat in
  let labels := fst (label peaks (cross (ndim peaks))) in
  let N := snd (label peaks (cross (ndim peaks))) in
  let slices_ := find_objects labels in
  inb (shape peaks) x = true ->
  get 0 labels x = Z.of_nat (i + 1) ->
  get false (trim_saddle_points peaks dt max_iters) x
  = blob_kept dt max_iters structure labels (window peaks slices_ i) i
    && forallb (fun j => negb (in_slice (window peaks slices_ j) x))
               (seq (i + 1) (N - (i + 1))).
Proof.
  intros structure labels N slices_ B E.
  assert (Sl : shape labels = shape peaks) by apply label_shape.
  assert (Li : (i < N)%nat).
  { pose proof (label_le peaks (cross (ndim peaks)) x) as L.
    fold labels N in L. lia. }
  unfold trim_saddle_points.
  destruct (label peaks (cross (ndim peaks))) as [labels' N'] eqn:EL.
  cbn [fst snd] in *. subst labels N slices_. fold structure.
  replace N' with (i + (1 + (N' - (i + 1))))%nat at 1 by lia.
  rewrite seq_app, fold_left_app, seq_app, fold_left_app. cbn [seq fold_left].
  replace (0 + i)%nat with i by lia.
  rewrite (@fold_trim_blob_later dt max_iters structure labels' peaks i x).
  - rewrite (@trim_blob_own_cell dt max_iters structure labels' peaks _ i x);
      [reflexivity | exact Sl | apply fold_trim_blob_shape | exact B | exact E].
  - rewrite trim_blob_shape. apply fold_trim_blob_shape.
  - exact B.
  - exact E.
  - intros j Hj. apply in_seq in Hj. lia.
Qed.

Lemma trim_saddle_points_cell_witness :
  let labels := fst (label two_peaks (cross (ndim two_peaks))) in
  let slices_ := find_objects labels in
  inb (shape two_peaks) [1; 1] = true
  /\ get 0 labels [1; 1] = Z.of_nat (0 + 1)
  /\ blob_kept two_peaks_dt 10 (square 3) labels (window two_peaks slices_ 0) 0 = true
  /\ in_slice (window two_peaks slices_ 1) [1; 1] = true
  /\ get false (trim_saddle_points two_peaks two_peaks_dt 10) [1; 1] = false.
Proof.
  intros labels slices_.
  assert (B : inb (shape two_peaks) [1; 1] = true) by (vm_compute; reflexivity).
  assert (E : get 0 labels [1; 1] = Z.of_nat (0 + 1)) by (vm_compute; reflexivity).
  assert (K : blob_kept two_peaks_dt 10 (square 3) labels (window two_peaks slices_ 0) 0
              = true) by (vm_compute; reflexivity).
  assert (W : in_slice (window two_peaks slices_ 1) [1; 1] = true)
    by (vm_compute; reflexivity).
  split; [exact B | split; [exact E | split; [exact K | split; [exact W|]]]].
  rewrite (@trim_saddle_points_cell two_peaks two_peaks_dt 10 0%nat [1; 1] B E).
  vm_compute. reflexivity.
Defined.

(** ** The terminal conditions of the per-blob loop *)

(** X25.  The loop body of [trim_saddle_points] on blob [i], with any
    iteration cap, seen at a cell [x] of the blob right after the step of
    blob [i] and before the steps of the blobs that follow: if the first
    pass at which one of the two tests fires finds the trial mask equal to
    the blob mask, the loop stops with the blob mask and [x] is set; if
    that pass finds the trial mask disjoint from the blob mask, the loop
    stops with [False] and [x] is cleared; if no pass up to the cap fires,
    the loop ends with the blob mask and [x] is set. *)
Theorem trim_blob_terminal_conditions
    (dt : ndarray Q) (max_iters : nat) (structure : ndarray bool)
    (labels : ndarray Z) (peaks : ndarray bool) (i : nat) (x : coord) :
  shape labels = shape peaks ->
  inb (shape peaks) x = true ->
  get 0 labels x = Z.of_nat (i + 1) ->
  let s := window peaks (find_objects labels) i in
  let dt_i := getslice 0%Q dt s in
  let peaks_i := blob_mask labels s i in
  let true_peak := found_true_peak structure dt_i (gt0 dt_i) peaks_i in
  let saddle := found_saddle structure dt_i (gt0 dt_i) peaks_i in
  let undecided_before k :=
    forall m, (1 <= m < k)%nat -> true_peak m = false /\ saddle m = false in
  let outcome := blob_outcome dt max_iters structure labels s i in
  let after := trim_blob dt max_iters structure labels (find_objects labels) peaks i in
  (forall k, (1 <= k <= max_iters)%nat -> undecided_before k -> true_peak k = true ->
     outcome = Arr peaks_i /\ get false after x = true)
  /\ (forall k, (1 <= k <= max_iters)%nat -> undecided_before k -> saddle k = true ->
     outcome = Scalar false /\ get false after x = false)
  /\ (undecided_before (S max_iters) ->
     outcome = Arr peaks_i /\ get false after x = true).
Proof.
  intros Sh B E s dt_i peaks_i true_peak saddle undecided_before outcome after.
  assert (W : in_slice s x = true) by (apply blob_in_window; assumption).
  assert (G : get false after x =
              match outcome with
              | Arr _ => true
              | Scalar c => c
              end).
  { unfold after. rewrite trim_blob_get by exact B. fold s. rewrite W.
    fold outcome. destruct outcome; [apply Z.eqb_eq; exact E | reflexivity]. }
  assert (NT : forall k, saddle k = true -> true_peak k = false).
  { intros k Hk.
    apply saddle_excludes_true_peak with (y := vsub x (slice_start s));
      [apply in_slice_local; exact W | | exact Hk].
    unfold peaks_i. rewrite blob_mask_get by exact W. apply Z.eqb_eq. exact E. }
  assert (R : outcome = grow_blob max_iters structure dt_i (gt0 dt_i) peaks_i
                                  (dilated structure peaks_i 0)) by reflexivity.
  split; [|split].
  - intros k Hk U T. rewrite G, R.
    rewrite (@grow_blob_true_peak structure dt_i (gt0 dt_i) peaks_i max_iters 0%nat k);
      [split; reflexivity | lia | intros m Hm; apply U; lia | exact T].
  - intros k Hk U Sd. rewrite G, R.
    rewrite (@grow_blob_saddle structure dt_i (gt0 dt_i) peaks_i max_iters 0%nat k);
      [split; reflexivity | lia | intros m Hm; apply U; lia | apply NT; exact Sd | exact Sd].
  - intros U. rewrite G, R.
    rewrite (@grow_blob_cap structure dt_i (gt0 dt_i) peaks_i max_iters 0%nat);
      [split; reflexivity | intros m Hm; apply U; lia].
Qed.

Lemma trim_blob_terminal_conditions_witness :
  let labels := fst (label two_peaks (cross 2)) in
  shape labels = shape two_peaks
  /\ inb (shape two_peaks) [1; 1] = true
  /\ get 0 labels [1; 1] = Z.of_nat (0 + 1)
  /\ get false (trim_blob two_peaks_dt 10 (square 3) labels (find_objects labels)
                          two_peaks 0) [1; 1] = true.
Proof.
  intros labels.
  assert (H1 : shape labels = shape two_peaks) by (vm_compute; reflexivity).
  assert (H2 : inb (shape two_peaks) [1; 1] = true) by (vm_compute; reflexivity).
  assert (H3 : get 0 labels [1; 1] = Z.of_nat (0 + 1)) by (vm_compute; reflexivity).
  split; [exact H1 | split; [exact H2 | split; [exact H3 |]]].
  destruct (@trim_blob_terminal_conditions two_peaks_dt 10 (square 3) labels
              two_peaks 0 [1; 1] H1 H2 H3) as [T _].
  apply (T 1%nat).
  - lia.
  - intros m Hm. lia.
  - vm_compute. reflexivity.
Defined.

(** ** The first pass of the per-blob loop *)

Lemma amax_ge a y : inb (shape a) y = true -> (get 0 a y <= amax a)%Q.
Proof.
  intros B. unfold amax.
  assert (I : In (get 0%Q a y) (map (get 0%Q a) (ndindex (shape a))))
    by (apply in_map, in_ndindex; exact B).
  assert (N : map (get 0%Q a) (ndindex (shape a)) <> [])
    by (intros E; rewrite E in I; destruct I).
  apply (max_list_spec N). exact I.
Qed.

Lemma amax_attained a y :
  inb (shape a) y = true -> exists z, inb (shape a) z = true /\ amax a = get 0%Q a z.
Proof.
  intros B. unfold amax.
  assert (I : In (get 0%Q a y) (map (get 0%Q a) (ndindex (shape a))))
    by (apply in_map, in_ndindex; exact B).
  assert (N : map (get 0%Q a) (ndindex (shape a)) <> [])
    by (intros E; rewrite E in I; destruct I).
  destruct (max_list_spec N) as [M _]. apply in_map_iff in M.
  destruct M as [z [E Hz]]. exists z. split; [apply in_ndindex; exact Hz | symmetry; exact E].
Qed.

Lemma asum_zero a :
  asum a = 0%nat <-> forall y, inb (shape a) y = true -> get false a y = false.
Proof.
  unfold asum. rewrite length_zero_iff_nil. split.
  - intros E y B. destruct (get false a y) eqn:G; [|reflexivity].
    assert (I : In y (filter (get false a) (ndindex (shape a))))
      by (apply filter_In; split; [apply in_ndindex; exact B | exact G]).
    rewrite E in I. destruct I.
  - intros H. destruct (filter (get false a) (ndindex (shape a))) as [|y l] eqn:E;
      [reflexivity|].
    assert (I : In y (filter (get false a) (ndindex (shape a)))) by (rewrite E; simpl; auto).
    apply filter_In in I. destruct I as [I G]. apply in_ndindex in I.
    rewrite (H y I) in G. discriminate.
Qed.

(** The trial mask of the first pass at a cell of the window. *)
Lemma first_trial_get structure dt_i peaks_i y :
  shape dt_i = shape peaks_i -> inb (shape peaks_i) y = true ->
  get false (trial_mask structure dt_i (gt0 dt_i) peaks_i 1) y
  = Qeq_bool (if get false (binary_dilation peaks_i structure) y
              then amax (amask dt_i (binary_dilation peaks_i structure)) else 0%Q)
             (get 0%Q dt_i y)
    && Qltb 0 (get 0%Q dt_i y).
Proof.
  intros Sh B. unfold trial_mask. simpl dilated.
  unfold aand, aeq, scale_mask, gt0. simpl shape.
  rewrite get_tabulate by exact B. rewrite !get_tabulate by (try rewrite Sh; exact B).
  reflexivity.
Qed.

Lemma grow_blob_first_pass n structure dt_i im_i peaks_i :
  grow_blob (S n) structure dt_i im_i peaks_i peaks_i =
    if found_true_peak structure dt_i im_i peaks_i 1 then Arr peaks_i
    else if found_saddle structure dt_i im_i peaks_i 1 then Scalar false
    else grow_blob n structure dt_i im_i peaks_i (dilated structure peaks_i 1).
Proof. reflexivity. Qed.

(** X9.  In the per-blob loop with a cap of at least one: when after the
    first dilation some cell of the dilated mask holds a field value
    strictly greater than that of every cell of the blob, the blob is a
    saddle at the first pass and the loop ends with [False]. *)
Theorem first_pass_finds_saddle (structure : ndarray bool) (dt_i : ndarray Q)
    (peaks_i : ndarray bool) (n : nat) (y0 z : coord) :
  shape dt_i = shape peaks_i ->
  inb (shape peaks_i) y0 = true -> get false peaks_i y0 = true ->
  inb (shape peaks_i) z = true ->
  get false (binary_dilation peaks_i structure) z = true ->
  (forall y, inb (shape peaks_i) y = true -> get false peaks_i y = true ->
             (get 0 dt_i y < get 0 dt_i z)%Q) ->
  grow_blob (S n) structure dt_i (gt0 dt_i) peaks_i peaks_i = Scalar false.
Proof.
  intros Sh B0 P0 Bz Dz H.
  set (dil := binary_dilation peaks_i structure) in *.
  assert (Mz : (get 0 dt_i z <= amax (amask dt_i dil))%Q).
  { assert (E : get 0%Q (amask dt_i dil) z = get 0%Q dt_i z).
    { unfold amask. rewrite get_tabulate by (rewrite Sh; exact Bz).
      rewrite Dz. reflexivity. }
    rewrite <- E. apply amax_ge. simpl. rewrite Sh. exact Bz. }
  assert (T : forall y, inb (shape peaks_i) y = true -> get false peaks_i y = true ->
                get false (trial_mask structure dt_i (gt0 dt_i) peaks_i 1) y = false).
  { intros y B P. rewrite first_trial_get by assumption. fold dil.
    specialize (H y B P).
    destruct (get false dil y).
    - replace (Qeq_bool (amax (amask dt_i dil)) (get 0%Q dt_i y)) with false; [reflexivity|].
      symmetry. apply not_true_is_false. intros E. apply Qeq_bool_iff in E. lra.
    - destruct (Qeq_bool 0 (get 0%Q dt_i y)) eqn:E; [|reflexivity].
      apply Qeq_bool_iff in E.
      destruct (Qltb 0 (get 0%Q dt_i y)) eqn:L; [|reflexivity].
      apply Qltb_lt in L. lra. }
  assert (ShT : shape (trial_mask structure dt_i (gt0 dt_i) peaks_i 1) = shape peaks_i)
    by reflexivity.
  rewrite grow_blob_first_pass.
  assert (TP : found_true_peak structure dt_i (gt0 dt_i) peaks_i 1 = false).
  { unfold found_true_peak.
    destruct (all _) eqn:A; [|reflexivity].
    rewrite all_aeqb in A. specialize (A y0). rewrite ShT in A.
    rewrite (T y0 B0 P0), P0 in A. specialize (A B0). discriminate. }
  assert (SD : found_saddle structure dt_i (gt0 dt_i) peaks_i 1 = true).
  { unfold found_saddle. apply Nat.eqb_eq. apply asum_zero.
    intros y B. simpl in B. unfold aand.
    rewrite get_tabulate by exact B.
    destruct (get false peaks_i y) eqn:P; [|apply andb_false_r].
    rewrite (T y B P). reflexivity. }
  rewrite TP, SD. reflexivity.
Qed.

Lemma first_pass_finds_saddle_witness :
  get false (binary_dilation window_blob (square 3)) [1; 2] = true
  /\ grow_blob 10 (square 3) slope_dt (gt0 slope_dt) window_blob window_blob = Scalar false.
Proof.
  assert (D : get false (binary_dilation window_blob (square 3)) [1; 2] = true)
    by (vm_compute; reflexivity).
  split; [exact D|].
  apply (@first_pass_finds_saddle (square 3) slope_dt window_blob 9 [1; 1] [1; 2]);
    try exact D; try reflexivity.
  intros y B P. each_index y B; vm_compute in P; try discriminate P.
  vm_compute. reflexivity.
Defined.

(** X10.  In the per-blob loop with a cap of at least one: when the cells of
    the blob all hold the same positive value [v], lie in the dilated
    mask, and every other cell of the dilated mask holds less than [v],
    the first pass confirms the blob and the loop ends with the blob
    mask. *)
Theorem first_pass_confirms_peak (structure : ndarray bool) (dt_i : ndarray Q)
    (peaks_i : ndarray bool) (n : nat) (v : Q) (y0 : coord) :
  shape dt_i = shape peaks_i ->
  (0 < v)%Q ->
  inb (shape peaks_i) y0 = true -> get false peaks_i y0 = true ->
  (forall y, inb (shape peaks_i) y = true -> get false peaks_i y = true ->
             get false (binary_dilation peaks_i structure) y = true
             /\ (get 0 dt_i y == v)%Q) ->
  (forall y, inb (shape peaks_i) y = true ->
             get false (binary_dilation peaks_i structure) y = true ->
             get false peaks_i y = false -> (get 0 dt_i y < v)%Q) ->
  grow_blob (S n) structure dt_i (gt0 dt_i) peaks_i peaks_i = Arr peaks_i.
Proof.
  intros Sh V B0 P0 In_ Out_.
  set (dil := binary_dilation peaks_i structure) in *.
  assert (ShA : shape (amask dt_i dil) = shape peaks_i) by (simpl; exact Sh).
  assert (G : forall y, inb (shape peaks_i) y = true ->
                get 0%Q (amask dt_i dil) y
                = if get false dil y then get 0%Q dt_i y else 0%Q).
  { intros y B. unfold amask. rewrite get_tabulate by (rewrite Sh; exact B). reflexivity. }
  assert (M : (amax (amask dt_i dil) == v)%Q).
  { apply Qle_antisym.
    - destruct (@amax_attained (amask dt_i dil) y0) as [w [Bw ->]];
        [rewrite ShA; exact B0|].
      rewrite ShA in Bw. rewrite (G w Bw).
      destruct (get false dil w) eqn:D; [|lra].
      destruct (get false peaks_i w) eqn:P.
      + destruct (In_ w Bw P) as [_ E]. lra.
      + specialize (Out_ w Bw D P). lra.
    - destruct (In_ y0 B0 P0) as [D0 E0].
      assert (L : (get 0 (amask dt_i dil) y0 <= amax (amask dt_i dil))%Q)
        by (apply amax_ge; rewrite ShA; exact B0).
      rewrite (G y0 B0), D0 in L. lra. }
  rewrite grow_blob_first_pass.
  assert (TP : found_true_peak structure dt_i (gt0 dt_i) peaks_i 1 = true).
  { unfold found_true_peak. apply all_aeqb. intros y B. simpl in B.
    rewrite first_trial_get by assumption. fold dil.
    destruct (get false peaks_i y) eqn:P.
    - destruct (In_ y B P) as [D E]. rewrite D.
      apply andb_true_iff. split; [apply Qeq_bool_iff; lra | apply Qltb_lt; lra].
    - destruct (get false dil y) eqn:D.
      + specialize (Out_ y B D P).
        replace (Qeq_bool (amax (amask dt_i dil)) (get 0%Q dt_i y)) with false; [reflexivity|].
        symmetry. apply not_true_is_false. intros E. apply Qeq_bool_iff in E. lra.
      + destruct (Qeq_bool 0 (get 0%Q dt_i y)) eqn:E; [|reflexivity].
        apply Qeq_bool_iff in E.
        destruct (Qltb 0 (get 0%Q dt_i y)) eqn:L; [|reflexivity].
        apply Qltb_lt in L. lra. }
  rewrite TP. reflexivity.
Qed.

Lemma first_pass_confirms_peak_witness :
  Qlt 0 3
  /\ grow_blob 10 (square 3) summit_dt (gt0 summit_dt) window_blob window_blob
     = Arr window_blob.
Proof.
  assert (V : Qlt 0 3) by reflexivity.
  split; [exact V|].
  apply (@first_pass_confirms_peak (square 3) summit_dt window_blob 9 3%Q [1; 1]);
    try exact V; try reflexivity.
  - intros y B P. each_index y B; vm_compute in P; try discriminate P.
    split; vm_compute; reflexivity.
  - intros y B D P. each_index y B; vm_compute in P; try discriminate P;
      vm_compute; reflexivity.
Defined.

(** ** Further properties of [trim_nearby_peaks] *)

Lemma center_of_mass_length input labels index :
  length (center_of_mass input labels index) = length index.
Proof. unfold center_of_mass. apply length_map. Qed.

Lemma analyse_returns labels N dt :
  (N = 0%nat -> analyse labels N dt = Raise ValueError)
  /\ (N <> 0%nat -> exists nb, analyse labels N dt = Ok nb /\ length (crds nb) = N).
Proof.
  unfold analyse, vstack_int.
  pose proof (center_of_mass_length labels labels (seq 1 N)) as L.
  rewrite length_seq in L.
  destruct (center_of_mass labels labels (seq 1 N)) as [|c cs] eqn:E; simpl in *.
  - split; [reflexivity | intros H; lia].
  - split; [intros H; lia|]. intros _. eexists. split; [reflexivity|].
    simpl. rewrite length_map. lia.
Qed.

Lemma analyse_length labels N dt nb :
  analyse labels N dt = Ok nb -> length (crds nb) = N /\ N <> 0%nat.
Proof.
  intros H. destruct (analyse_returns labels N dt) as [R0 R1].
  destruct (Nat.eq_dec N 0) as [E|E].
  - rewrite (R0 E) in H. discriminate.
  - destruct (R1 E) as [nb' [H' L]]. rewrite H in H'. injection H' as <-. auto.
Qed.

Lemma trim_nearby_peaks_get peaks dt nb x :
  analysis peaks dt = Ok nb ->
  let labels := fst (label peaks ((if (ndim dt =? 2)%nat then square else cube) 3%nat)) in
  exists out,
    trim_nearby_peaks peaks dt = Ok out
    /\ shape out = shape peaks
    /\ (inb (shape peaks) x = true ->
        get false out x
        = (0 <? get 0 (fold_left (clear_box (find_objects labels)) (drop_peaks nb) labels) x)).
Proof.
  intros A labels. rewrite trim_nearby_peaks_unfold, A. simpl. fold labels.
  eexists. split; [reflexivity|].
  assert (Sh : shape (fold_left (clear_box (find_objects labels)) (drop_peaks nb) labels)
               = shape peaks).
  { rewrite clear_boxes_shape. apply label_shape. }
  split; [exact Sh|].
  intros B. rewrite get_tabulate by (rewrite Sh; exact B). reflexivity.
Qed.

(** X11.  When [trim_nearby_peaks] returns, its result has the shape of
    the mask and sets no cell that was not set in the mask. *)
Theorem trim_nearby_peaks_never_adds (peaks : ndarray bool) (dt : ndarray Q)
    (out : ndarray bool) :
  trim_nearby_peaks peaks dt = Ok out ->
  shape out = shape peaks
  /\ forall x, get false out x = true -> get false peaks x = true.
Proof.
  intros T. split.
  - rewrite trim_nearby_peaks_unfold in T.
    destruct (analysis peaks dt) as [nb|e]; simpl in T; [|discriminate].
    injection T as <-. simpl. rewrite clear_boxes_shape. apply label_shape.
  - intros x. apply (@trim_nearby_peaks_subset peaks dt out x T).
Qed.

Lemma trim_nearby_peaks_never_adds_witness :
  let out := returned (full [] false) (trim_nearby_peaks chain_peaks chain_dt) in
  trim_nearby_peaks chain_peaks chain_dt = Ok out
  /\ shape out = shape chain_peaks
  /\ (get false out [0; 0] = true -> get false chain_peaks [0; 0] = true).
Proof.
  intros out.
  assert (T : trim_nearby_peaks chain_peaks chain_dt = Ok out) by (vm_compute; reflexivity).
  split; [exact T|].
  destruct (@trim_nearby_peaks_never_adds chain_peaks chain_dt out T) as [S H].
  split; [exact S | apply H].
Defined.

Lemma trim_nearby_peaks_empty_raises peaks dt :
  (forall x, inb (shape peaks) x = true -> get false peaks x = false) ->
  trim_nearby_peaks peaks dt = Raise ValueError.
Proof.
  intros H. apply trim_nearby_peaks_without_blobs.
  rewrite (label_empty peaks _ H). reflexivity.
Qed.

Lemma trim_nearby_peaks_nonempty_returns peaks dt x :
  inb (shape peaks) x = true -> get false peaks x = true ->
  exists out, trim_nearby_peaks peaks dt = Ok out.
Proof.
  intros B M.
  set (st := (if (ndim dt =? 2)%nat then square else cube) 3%nat).
  pose proof (label_of_set_cell peaks st x B M) as L.
  destruct (analyse_returns (fst (label peaks st)) (snd (label peaks st)) dt) as [_ R].
  destruct R as [nb [A _]]; [lia|].
  destruct (@trim_nearby_peaks_get peaks dt nb x A) as [out [T _]].
  exists out. exact T.
Qed.

(** X12.  For a mask and a field of one shape with 2 or 3 dimensions, so
    that the structure handed to [label] has the rank of the mask:
    [trim_nearby_peaks] raises ValueError on a mask without a set cell and
    returns on a mask with a set cell. *)
Theorem trim_nearby_peaks_raises_iff_empty (peaks : ndarray bool) (dt : ndarray Q) :
  shape peaks = shape dt ->
  ndim dt = 2%nat \/ ndim dt = 3%nat ->
  ndim ((if (ndim dt =? 2)%nat then square else cube) 3%nat) = ndim peaks
  /\ ((forall x, inb (shape peaks) x = true -> get false peaks x = false) ->
      trim_nearby_peaks peaks dt = Raise ValueError)
  /\ ((exists x, inb (shape peaks) x = true /\ get false peaks x = true) ->
      exists out, trim_nearby_peaks peaks dt = Ok out).
Proof.
  intros Sh Rk. split; [|split].
  - unfold ndim in *. rewrite Sh. destruct Rk as [-> | ->]; reflexivity.
  - apply trim_nearby_peaks_empty_raises.
  - intros [x [B M]]. apply (@trim_nearby_peaks_nonempty_returns peaks dt x B M).
Qed.

Lemma trim_nearby_peaks_raises_iff_empty_witness :
  shape tie_peaks = shape tie_dt
  /\ ndim tie_dt = 2%nat
  /\ (exists out, trim_nearby_peaks tie_peaks tie_dt = Ok out)
  /\ trim_nearby_peaks (full [2; 3]%nat false) tie_dt = Raise ValueError.
Proof.
  assert (S1 : shape tie_peaks = shape tie_dt) by reflexivity.
  assert (S2 : shape (full [2; 3]%nat false) = shape tie_dt) by reflexivity.
  assert (R : ndim tie_dt = 2%nat) by reflexivity.
  split; [exact S1 | split; [exact R|]]. split.
  - destruct (@trim_nearby_peaks_raises_iff_empty tie_peaks tie_dt S1 (or_introl R))
      as (_ & _ & H).
    apply H. exists [0; 0]. split; vm_compute; reflexivity.
  - destruct (@trim_nearby_peaks_raises_iff_empty (full [2; 3]%nat false) tie_dt S2
                (or_introl R)) as (_ & H & _).
    apply H. intros x B. each_index x B; reflexivity.
Defined.

Lemma unique_empty l : l = [] -> unique l = [].
Proof. intros ->. reflexivity. Qed.

(** Without a contested centroid nothing is marked, and with nothing
    marked the mask comes back as it went in. *)
Lemma no_hits_no_drops labels N dt nb :
  analyse labels N dt = Ok nb -> hits nb = [] -> drop_peaks nb = [].
Proof.
  intros A H. destruct (analyse_fields _ _ _ A) as (_ & _ & _ & _ & _ & Hd).
  rewrite Hd, H. reflexivity.
Qed.

Lemma no_drops_unchanged peaks dt nb :
  analysis peaks dt = Ok nb -> drop_peaks nb = [] ->
  exists out,
    trim_nearby_peaks peaks dt = Ok out
    /\ shape out = shape peaks
    /\ forall x, inb (shape peaks) x = true -> get false out x = get false peaks x.
Proof.
  intros A D.
  rewrite trim_nearby_peaks_unfold, A. simpl. rewrite D. simpl.
  eexists. split; [reflexivity|]. split; [simpl; apply label_shape|].
  intros x B. rewrite get_tabulate by (rewrite label_shape; exact B).
  apply label_positive. exact B.
Qed.

(** X13.  When no centroid is contested, [trim_nearby_peaks] returns the
    mask unchanged. *)
Theorem trim_nearby_peaks_uncontested (peaks : ndarray bool) (dt : ndarray Q)
    (nb : neighbours) :
  analysis peaks dt = Ok nb ->
  hits nb = [] ->
  exists out,
    trim_nearby_peaks peaks dt = Ok out
    /\ shape out = shape peaks
    /\ forall x, inb (shape peaks) x = true -> get false out x = get false peaks x.
Proof.
  intros A H. apply (@no_drops_unchanged peaks dt nb A).
  unfold analysis in A. apply (no_hits_no_drops _ _ _ A H).
Qed.

Lemma trim_nearby_peaks_uncontested_witness :
  let peaks := returned (full [] false) (trim_nearby_peaks chain_peaks settled_dt) in
  let nb := returned (mkNeighbours [] [] [] [] [] []) (analysis peaks settled_dt) in
  analysis peaks settled_dt = Ok nb
  /\ hits nb = []
  /\ exists out,
       trim_nearby_peaks peaks settled_dt = Ok out
       /\ shape out = shape peaks
       /\ forall x, inb (shape peaks) x = true -> get false out x = get false peaks x.
Proof.
  intros peaks nb.
  assert (A : analysis peaks settled_dt = Ok nb) by (vm_compute; reflexivity).
  assert (H : hits nb = []) by (vm_compute; reflexivity).
  split; [exact A | split; [exact H|]].
  apply (@trim_nearby_peaks_uncontested peaks settled_dt nb A H).
Defined.

Lemma query2_single c : query2 [c] c = None.
Proof.
  unfold query2. simpl. reflexivity.
Qed.

(** X14.  A mask with a single blob is returned unchanged: the tree
    reports an infinite distance for the missing neighbour, so the only
    centroid is never contested. *)
Theorem trim_nearby_peaks_single_blob (peaks : ndarray bool) (dt : ndarray Q) :
  snd (label peaks ((if (ndim dt =? 2)%nat then square else cube) 3%nat)) = 1%nat ->
  exists out,
    trim_nearby_peaks peaks dt = Ok out
    /\ shape out = shape peaks
    /\ forall x, inb (shape peaks) x = true -> get false out x = get false peaks x.
Proof.
  intros N1.
  set (st := (if (ndim dt =? 2)%nat then square else cube) 3%nat) in *.
  destruct (analyse_returns (fst (label peaks st)) (snd (label peaks st)) dt) as [_ R].
  destruct R as [nb [A L]]; [lia|].
  apply (@no_drops_unchanged peaks dt nb A).
  apply (no_hits_no_drops _ _ _ A).
  destruct (analyse_fields _ _ _ A) as (_ & Hq & _ & _ & Hh & _).
  rewrite Hh, Hq. rewrite N1 in L.
  destruct (crds nb) as [|c [|c' cs]]; simpl in L; try lia.
  cbn [length seq map filter nth]. rewrite query2_single. reflexivity.
Qed.

Lemma trim_nearby_peaks_single_blob_witness :
  snd (label high_peak ((if (ndim low_high_dt =? 2)%nat then square else cube) 3%nat))
  = 1%nat
  /\ exists out,
       trim_nearby_peaks high_peak low_high_dt = Ok out
       /\ shape out = shape high_peak
       /\ forall x, inb (shape high_peak) x = true ->
                    get false out x = get false high_peak x.
Proof.
  assert (H : snd (label high_peak
                     ((if (ndim low_high_dt =? 2)%nat then square else cube) 3%nat))
              = 1%nat) by (vm_compute; reflexivity).
  split; [exact H|].
  apply (@trim_nearby_peaks_single_blob high_peak low_high_dt H).
Defined.

(** ** The neighbour query *)

Lemma closest_In l e : closest l = Some e -> In e l.
Proof.
  revert e. induction l as [|a l IH]; intros e H; simpl in H; [discriminate|].
  destruct (closest l) as [e'|] eqn:C.
  - destruct (fst e' <? fst a); injection H as <-; simpl; auto.
  - injection H as <-. simpl. auto.
Qed.

Lemma in_combine_seq {A} (f : A -> Z) (dflt : A) data : forall a d j,
  In (d, j) (combine (map f data) (seq a (length data))) ->
  (a <= j < a + length data)%nat /\ d = f (nth (j - a) data dflt).
Proof.
  induction data as [|c data IH]; intros a d j H; simpl in H; [destruct H|].
  destruct H as [H|H].
  - injection H as <- <-. split; [simpl; lia|]. rewrite Nat.sub_diag. reflexivity.
  - apply IH in H. destruct H as [B E]. split; [simpl; lia|].
    replace (j - a)%nat with (S (j - S a)) by lia. exact E.
Qed.

Lemma query2_spec data p d j :
  query2 data p = Some (d, j) ->
  (j < length data)%nat /\ d = dist2 p (nth j data []).
Proof.
  unfold query2.
  destruct (closest (combine (map (dist2 p) data) (seq 0 (length data)))) as [[d0 j0]|];
    [|discriminate].
  intros H. apply closest_In in H. apply filter_In in H. destruct H as [H _].
  apply (in_combine_seq (dist2 p) []) in H. destruct H as [B E].
  rewrite Nat.sub_0_r in E. split; [lia | exact E].
Qed.

(** X15.  There are as many centroids as blobs.  For every contested
    centroid the tree reported a real neighbour: its index is below the
    number of blobs and its distance is the distance of the two
    centroids.  Every index in the removal set is below the number of
    blobs, so the look-up [dist_to_solid[nearest_neighbor[peak]]]
    stays in range. *)
Theorem contested_neighbour_in_range (labels : ndarray Z) (N : nat) (dt : ndarray Q)
    (nb : neighbours) :
  analyse labels N dt = Ok nb ->
  length (crds nb) = N
  /\ (forall i, In i (hits nb) ->
        (i < N)%nat
        /\ exists d2 j,
             nth i (dist_to_neighbor nb) None = Some (d2, j)
             /\ nth i (nearest_neighbor nb) 0%nat = j
             /\ (j < N)%nat
             /\ d2 = dist2 (nth i (crds nb) []) (nth j (crds nb) []))
  /\ (forall k, In k (drop_peaks nb) -> (k < N)%nat).
Proof.
  intros A. destruct (analyse_length _ _ _ A) as [L _].
  destruct (analyse_fields _ _ _ A) as (_ & Hq & Hn & _ & Hh & Hd).
  assert (H1 : forall i, In i (hits nb) ->
            (i < N)%nat
            /\ exists d2 j,
                 nth i (dist_to_neighbor nb) None = Some (d2, j)
                 /\ nth i (nearest_neighbor nb) 0%nat = j
                 /\ (j < N)%nat
                 /\ d2 = dist2 (nth i (crds nb) []) (nth j (crds nb) [])).
  { intros i Hi. rewrite Hh in Hi. apply filter_In in Hi. destruct Hi as [Hi C].
    apply in_seq in Hi. split; [lia|].
    destruct (nth i (dist_to_neighbor nb) None) as [[d2 j]|] eqn:Q; [|discriminate].
    exists d2, j. split; [reflexivity|].
    assert (Q' : query2 (crds nb) (nth i (crds nb) []) = Some (d2, j)).
    { rewrite <- Q, Hq.
      rewrite nth_indep with (d' := query2 (crds nb) [])
        by (rewrite length_map; lia).
      symmetry. apply (map_nth (query2 (crds nb))). }
    apply query2_spec in Q'. destruct Q' as [Bj E].
    split; [|split; [lia | exact E]].
    rewrite Hn.
    rewrite nth_indep with (d' := neighbour_index (length (crds nb)) None)
      by (rewrite length_map, Hq, length_map; lia).
    rewrite (map_nth (neighbour_index (length (crds nb)))), Q. reflexivity. }
  split; [exact L|]. split; [exact H1|].
  intros k Hk. rewrite Hd in Hk. apply (proj1 (unique_In _ _)) in Hk.
  apply in_map_iff in Hk.
  destruct Hk as [i [E Hi]]. destruct (H1 i Hi) as [Bi (d2 & j & _ & Nj & Bj & _)].
  subst k. unfold drop_choice. rewrite Nj. destruct (Qltb _ _); assumption.
Qed.

Lemma contested_neighbour_in_range_witness :
  let st := label chain_peaks (square 3) in
  let nb := returned (mkNeighbours [] [] [] [] [] []) (analyse (fst st) (snd st) chain_dt) in
  analyse (fst st) (snd st) chain_dt = Ok nb
  /\ In 2%nat (hits nb)
  /\ nth 2 (nearest_neighbor nb) 0%nat = 1%nat
  /\ (forall k, In k (drop_peaks nb) -> (k < snd st)%nat).
Proof.
  intros st nb.
  assert (A : analyse (fst st) (snd st) chain_dt = Ok nb) by (vm_compute; reflexivity).
  split; [exact A|].
  split; [vm_compute; auto|].
  split; [vm_compute; reflexivity|].
  apply (@contested_neighbour_in_range (fst st) (snd st) chain_dt nb A).
Defined.

(** ** The removal set of [trim_nearby_peaks] *)

Lemma hits_in_range labels N dt nb i :
  analyse labels N dt = Ok nb -> In i (hits nb) ->
  (i < N)%nat /\ (nth i (nearest_neighbor nb) 0 < N)%nat.
Proof.
  intros A Hi. destruct (analyse_length _ _ _ A) as [L _].
  destruct (analyse_fields _ _ _ A) as (_ & Hq & Hn & _ & Hh & _).
  rewrite Hh in Hi. apply filter_In in Hi. destruct Hi as [Hi C].
  apply in_seq in Hi. split; [lia|].
  destruct (nth i (dist_to_neighbor nb) None) as [[d2 j]|] eqn:Q; [|discriminate].
  assert (Q' : query2 (crds nb) (nth i (crds nb) []) = Some (d2, j)).
  { rewrite <- Q, Hq.
    rewrite nth_indep with (d' := query2 (crds nb) [])
      by (rewrite length_map; lia).
    symmetry. apply (map_nth (query2 (crds nb))). }
  apply query2_spec in Q'. destruct Q' as [Bj _].
  rewrite Hn.
  rewrite nth_indep with (d' := neighbour_index (length (crds nb)) None)
    by (rewrite length_map, Hq, length_map; lia).
  rewrite (map_nth (neighbour_index (length (crds nb)))), Q. simpl. lia.
Qed.

Lemma drop_peaks_in_range labels N dt nb k :
  analyse labels N dt = Ok nb -> In k (drop_peaks nb) -> (k < N)%nat.
Proof.
  intros A Hk.
  destruct (analyse_fields _ _ _ A) as (_ & _ & _ & _ & _ & Hd).
  rewrite Hd in Hk. apply (proj1 (unique_In _ _)) in Hk.
  apply in_map_iff in Hk. destruct Hk as [i [E Hi]].
  destruct (@hits_in_range labels N dt nb i A Hi) as [Bi Bj].
  subst k. unfold drop_choice. destruct (Qltb _ _); assumption.
Qed.

Lemma hits_give_drops labels N dt nb :
  analyse labels N dt = Ok nb -> hits nb <> [] -> exists k, In k (drop_peaks nb).
Proof.
  intros A H. destruct (analyse_fields _ _ _ A) as (_ & _ & _ & _ & _ & Hd).
  destruct (hits nb) as [|i l] eqn:E; [congruence|].
  exists (drop_choice (dist_to_solid nb) (nearest_neighbor nb) i).
  rewrite Hd. apply unique_In. simpl. auto.
Qed.

(** A blob of the removal set has a cell, which is set in the mask and
    cleared in the result. *)
Lemma removed_blob_has_a_cell peaks dt nb out k :
  analysis peaks dt = Ok nb ->
  trim_nearby_peaks peaks dt = Ok out ->
  In k (drop_peaks nb) ->
  let labels := fst (label peaks ((if (ndim dt =? 2)%nat then square else cube) 3%nat)) in
  exists b y,
    nth k (find_objects labels) None = Some b
    /\ inb (shape peaks) y = true
    /\ get 0 labels y = Z.of_nat (k + 1)
    /\ in_slice b y = true
    /\ get false peaks y = true
    /\ get false out y = false.
Proof.
  intros A T Hk labels.
  set (st := (if (ndim dt =? 2)%nat then square else cube) 3%nat) in *.
  assert (Sym : symmetric st = true).
  { unfold st. destruct (ndim dt =? 2)%nat; vm_compute; reflexivity. }
  assert (Sh : shape labels = shape peaks) by apply label_shape.
  assert (Bk : (k < snd (label peaks st))%nat).
  { unfold analysis in A. fold st in A. apply (@drop_peaks_in_range _ _ dt nb k A Hk). }
  destruct (@label_in_use peaks st Sym (k + 1)%nat) as [y [By Ly]]; [lia|].
  fold labels in Ly.
  destruct (find_objects_covers labels k y) as (b & Hb & Hy);
    [rewrite Sh; exact By | exact Ly |].
  exists b, y. split; [exact Hb|]. split; [exact By|]. split; [exact Ly|].
  split; [exact Hy|]. split.
  - apply (@label_on_mask peaks st). fold labels. lia.
  - rewrite trim_nearby_peaks_unfold, A in T. simpl in T. injection T as <-.
    fold st. fold labels.
    rewrite get_tabulate by (rewrite clear_boxes_shape, Sh; exact By).
    apply Z.ltb_ge.
    rewrite (@clear_boxes_clears (find_objects labels) k b y);
      [lia | exact Hk | exact Hb | exact Hy | rewrite Sh; exact By].
Qed.

Lemma settled_output_unchanged peaks dt out nb :
  trim_nearby_peaks peaks dt = Ok out ->
  analysis out dt = Ok nb ->
  hits nb = [] ->
  trim_nearby_peaks out dt = Ok out.
Proof.
  intros T A H.
  assert (D : drop_peaks nb = []).
  { unfold analysis in A. apply (no_hits_no_drops _ _ _ A H). }
  rewrite (trim_nearby_peaks_unfold out), A. simpl. rewrite D. simpl.
  rewrite label_shape. f_equal.
  transitivity (tabulate (shape out) (get false out)).
  - apply tabulate_ext. intros x B. apply label_positive. exact B.
  - rewrite trim_nearby_peaks_unfold in T.
    destruct (analysis peaks dt) as [nb0|e]; simpl in T; [|discriminate].
    injection T as <-. apply tabulate_ext. intros x B.
    rewrite get_tabulate by exact B. reflexivity.
Qed.

(** ** ProximityMerger: a second run *)

(** C8 (amended).  A second run of [trim_nearby_peaks] on the output of a
    first one, with the same field.  If the output has no set cell, the
    second run raises ValueError.  If it has one, the centroids of the
    output are computed, and the second run returns the output unchanged
    exactly when none of them is contested; when one is contested, the
    second run returns a mask in which a cell that is set in the output is
    cleared. *)
Theorem trim_nearby_peaks_second_run
    (peaks : ndarray bool) (dt : ndarray Q) (out : ndarray bool) :
  trim_nearby_peaks peaks dt = Ok out ->
  ((forall x, inb (shape out) x = true -> get false out x = false) ->
   trim_nearby_peaks out dt = Raise ValueError)
  /\ ((exists x, inb (shape out) x = true /\ get false out x = true) ->
      exists nb,
        analysis out dt = Ok nb
        /\ (trim_nearby_peaks out dt = Ok out <-> hits nb = [])
        /\ (hits nb <> [] ->
            exists out2 y,
              trim_nearby_peaks out dt = Ok out2
              /\ get false out y = true /\ get false out2 y = false)).
Proof.
  intros T. split; [apply trim_nearby_peaks_empty_raises|].
  intros [x [B M]].
  set (st := (if (ndim dt =? 2)%nat then square else cube) 3%nat).
  pose proof (label_of_set_cell out st x B M) as L.
  destruct (analyse_returns (fst (label out st)) (snd (label out st)) dt) as [_ R].
  destruct R as [nb [A _]]; [lia|].
  exists nb. split; [exact A|].
  assert (C : hits nb <> [] ->
              exists out2 y,
                trim_nearby_peaks out dt = Ok out2
                /\ get false out y = true /\ get false out2 y = false).
  { intros H. destruct (@hits_give_drops _ _ dt nb A H) as [k Hk].
    destruct (@trim_nearby_peaks_get out dt nb x A) as [out2 [T2 _]].
    destruct (@removed_blob_has_a_cell out dt nb out2 k A T2 Hk)
      as (b & y & _ & _ & _ & _ & My & Cy).
    exists out2, y. auto. }
  split; [|exact C]. split.
  - intros T2. destruct (hits nb) as [|i l] eqn:H; [reflexivity|].
    destruct C as (out2 & y & T2' & My & Cy); [discriminate|].
    rewrite T2 in T2'. injection T2' as <-. congruence.
  - apply (@settled_output_unchanged peaks dt out nb T A).
Qed.

Lemma trim_nearby_peaks_second_run_witness :
  let out := returned (full [] false) (trim_nearby_peaks chain_peaks settled_dt) in
  trim_nearby_peaks chain_peaks settled_dt = Ok out
  /\ get false out [0; 0] = true
  /\ get false out [0; 2] = false
  /\ trim_nearby_peaks out settled_dt = Ok out.
Proof.
  intros out.
  assert (T : trim_nearby_peaks chain_peaks settled_dt = Ok out) by (vm_compute; reflexivity).
  assert (B : inb (shape out) [0; 0] = true) by (vm_compute; reflexivity).
  assert (M : get false out [0; 0] = true) by (vm_compute; reflexivity).
  split; [exact T | split; [exact M |]].
  split; [vm_compute; reflexivity|].
  destruct (@trim_nearby_peaks_second_run chain_peaks settled_dt out T) as [_ S].
  destruct S as (nb & A & [_ U] & _); [exists [0; 0]; split; [exact B | exact M]|].
  apply U. vm_compute in A. injection A as <-. reflexivity.
Defined.

(** X26.  Every blob in the removal set of [trim_nearby_peaks] exists:
    [label] numbers the blobs without a gap, so for each index [s] of the
    set [slices[s]] is a bounding box, it holds a cell of the blob, and
    that cell, set in the mask, is cleared in the result. *)
Theorem removed_blobs_exist (peaks : ndarray bool) (dt : ndarray Q)
    (nb : neighbours) (out : ndarray bool) (s : nat) :
  let labels := fst (label peaks ((if (ndim dt =? 2)%nat then square else cube) 3%nat)) in
  analysis peaks dt = Ok nb ->
  trim_nearby_peaks peaks dt = Ok out ->
  In s (drop_peaks nb) ->
  exists b y,
    nth s (find_objects labels) None = Some b
    /\ inb (shape peaks) y = true
    /\ get 0 labels y = Z.of_nat (s + 1)
    /\ in_slice b y = true
    /\ get false peaks y = true
    /\ get false out y = false.
Proof.
  intros labels A T Hs. apply (@removed_blob_has_a_cell peaks dt nb out s A T Hs).
Qed.

Lemma removed_blobs_exist_witness :
  let nb := returned (mkNeighbours [] [] [] [] [] []) (analysis chain_peaks chain_dt) in
  let out := returned (full [] false) (trim_nearby_peaks chain_peaks chain_dt) in
  analysis chain_peaks chain_dt = Ok nb
  /\ trim_nearby_peaks chain_peaks chain_dt = Ok out
  /\ In 1%nat (drop_peaks nb)
  /\ exists b y,
       nth 1 (find_objects (fst (label chain_peaks (square 3)))) None = Some b
       /\ inb (shape chain_peaks) y = true
       /\ get 0 (fst (label chain_peaks (square 3))) y = Z.of_nat (1 + 1)
       /\ in_slice b y = true
       /\ get false chain_peaks y = true
       /\ get false out y = false.
Proof.
  intros nb out.
  assert (A : analysis chain_peaks chain_dt = Ok nb) by (vm_compute; reflexivity).
  assert (T : trim_nearby_peaks chain_peaks chain_dt = Ok out) by (vm_compute; reflexivity).
  assert (D : In 1%nat (drop_peaks nb)) by (vm_compute; auto).
  split; [exact A | split; [exact T | split; [exact D|]]].
  apply (@removed_blobs_exist chain_peaks chain_dt nb out 1%nat A T D).
Defined.

(** ** Removal when bounding boxes hold no foreign cell *)

Lemma clear_box_value slices_ labels s x :
  inb (shape labels) x = true ->
  get 0 (clear_box slices_ labels s) x
  = if in_box slices_ x s then 0 else get 0 labels x.
Proof.
  intros B. unfold clear_box, in_box.
  destruct (nth s slices_ None) as [b|]; [|reflexivity].
  rewrite get_setslice by exact B. reflexivity.
Qed.

Lemma clear_boxes_value slices_ x l : forall labels,
  inb (shape labels) x = true ->
  get 0 (fold_left (clear_box slices_) l labels) x
  = if existsb (in_box slices_ x) l then 0 else get 0 labels x.
Proof.
  induction l as [|s l IH]; intros labels B; simpl; [reflexivity|].
  rewrite IH by (rewrite clear_box_shape; exact B).
  rewrite clear_box_value by exact B.
  destruct (in_box slices_ x s); simpl; [|reflexivity].
  destruct (existsb (in_box slices_ x) l); reflexivity.
Qed.

(** X16.  At a cell that lies in the bounding box of no removed blob other
    than its own, the result is set exactly when the cell was set and its
    blob is not in the removal set. *)
Theorem trim_nearby_peaks_exact_removal (peaks : ndarray bool) (dt : ndarray Q)
    (nb : neighbours) (out : ndarray bool) (x : coord) :
  let labels := fst (label peaks ((if (ndim dt =? 2)%nat then square else cube) 3%nat)) in
  analysis peaks dt = Ok nb ->
  trim_nearby_peaks peaks dt = Ok out ->
  inb (shape peaks) x = true ->
  (forall s, In s (drop_peaks nb) -> in_box (find_objects labels) x s = true ->
             get 0 labels x = Z.of_nat (s + 1)) ->
  get false out x
  = get false peaks x
    && negb (existsb (fun s => get 0 labels x =? Z.of_nat (s + 1)) (drop_peaks nb)).
Proof.
  intros labels A T B H.
  destruct (@trim_nearby_peaks_get peaks dt nb x A) as [out' [T' [_ G]]].
  rewrite T in T'. injection T' as <-. fold labels in G.
  rewrite (G B).
  assert (Sl : shape labels = shape peaks) by apply label_shape.
  rewrite clear_boxes_value by (rewrite Sl; exact B).
  pose proof (label_positive peaks
                ((if (ndim dt =? 2)%nat then square else cube) 3%nat) x B) as P.
  fold labels in P.
  destruct (existsb (in_box (find_objects labels) x) (drop_peaks nb)) eqn:E.
  - apply existsb_exists in E. destruct E as [s [Hs Bx]].
    specialize (H s Hs Bx).
    assert (X : existsb (fun s => get 0 labels x =? Z.of_nat (s + 1)) (drop_peaks nb) = true).
    { apply existsb_exists. exists s. split; [exact Hs | apply Z.eqb_eq; exact H]. }
    rewrite X. simpl. rewrite andb_false_r. reflexivity.
  - rewrite P.
    destruct (existsb (fun s => get 0 labels x =? Z.of_nat (s + 1)) (drop_peaks nb)) eqn:X;
      [|rewrite andb_true_r; reflexivity].
    exfalso. apply existsb_exists in X. destruct X as [s [Hs Ls]]. apply Z.eqb_eq in Ls.
    destruct (find_objects_covers labels s x) as (b & Hb & Hx);
      [rewrite Sl; exact B | exact Ls |].
    assert (Y : existsb (in_box (find_objects labels) x) (drop_peaks nb) = true).
    { apply existsb_exists. exists s. split; [exact Hs|]. unfold in_box. rewrite Hb. exact Hx. }
    congruence.
Qed.

Lemma trim_nearby_peaks_exact_removal_witness :
  let labels := fst (label chain_peaks
                       ((if (ndim chain_dt =? 2)%nat then square else cube) 3%nat)) in
  let nb := returned (mkNeighbours [] [] [] [] [] []) (analysis chain_peaks chain_dt) in
  let out := returned (full [] false) (trim_nearby_peaks chain_peaks chain_dt) in
  analysis chain_peaks chain_dt = Ok nb
  /\ trim_nearby_peaks chain_peaks chain_dt = Ok out
  /\ drop_peaks nb = [1%nat]
  /\ get false out [0; 2]
     = get false chain_peaks [0; 2]
       && negb (existsb (fun s => get 0 labels [0; 2] =? Z.of_nat (s + 1)) (drop_peaks nb)).
Proof.
  intros labels nb out.
  assert (A : analysis chain_peaks chain_dt = Ok nb) by (vm_compute; reflexivity).
  assert (T : trim_nearby_peaks chain_peaks chain_dt = Ok out) by (vm_compute; reflexivity).
  assert (D : drop_peaks nb = [1%nat]) by (vm_compute; reflexivity).
  split; [exact A | split; [exact T | split; [exact D|]]].
  apply (@trim_nearby_peaks_exact_removal chain_peaks chain_dt nb out [0; 2] A T);
    [reflexivity|].
  intros s Hs _. rewrite D in Hs. destruct Hs as [<-|[]]. vm_compute. reflexivity.
Defined.

(** ** Outcomes of [snow] *)

Lemma snow_cases im :
  let dt := squeeze im in
  match find_peaks dt 4 None with
  | Raise e => snow im = Raise e
  | Ok p2 =>
      match trim_nearby_peaks (trim_saddle_points p2 dt 10) dt with
      | Raise e => snow im = Raise e
      | Ok p4 => snow im = Ok (fst (label p4 (cross (ndim p4))))
      end
  end.
Proof.
  intros dt. unfold snow. fold dt.
  destruct (find_peaks dt 4 None) as [p2|e]; simpl; [|reflexivity].
  destruct (trim_nearby_peaks (trim_saddle_points p2 dt 10) dt) as [p4|e]; simpl;
    [|reflexivity].
  destruct (label p4 (cross (ndim p4))). reflexivity.
Qed.

(** X18.  [snow] raises UnsupportedDimension when the squeezed field has
    neither two nor three axes.  Otherwise it raises ValueError when no
    peak is left after [trim_saddle_points], and returns a marker image
    when one is. *)
Theorem snow_outcomes (im : ndarray Q) :
  let dt := squeeze im in
  (ndim dt <> 2%nat /\ ndim dt <> 3%nat -> snow im = Raise UnsupportedDimension)
  /\ (forall p2, find_peaks dt 4 None = Ok p2 ->
        let p3 := trim_saddle_points p2 dt 10 in
        ((forall x, inb (shape p3) x = true -> get false p3 x = false) ->
         snow im = Raise ValueError)
        /\ ((exists x, inb (shape p3) x = true /\ get false p3 x = true) ->
            exists markers, snow im = Ok markers)).
Proof.
  intros dt. pose proof (snow_cases im) as C. fold dt in C. cbv zeta in C. split.
  - intros [H2 H3].
    assert (F : find_peaks dt 4 None = Raise UnsupportedDimension).
    { apply find_peaks_other_rank; unfold dt; rewrite squeeze_squeeze; assumption. }
    rewrite F in C. exact C.
  - intros p2 F p3. rewrite F in C. fold p3 in C. split.
    + intros H. rewrite (trim_nearby_peaks_empty_raises p3 dt H) in C. exact C.
    + intros [x [B M]].
      destruct (@trim_nearby_peaks_nonempty_returns p3 dt x B M) as [out T].
      rewrite T in C. eexists. exact C.
Qed.

(** X19.  On a field of two or three axes without a positive value, of
    any size, [snow] raises ValueError. *)
Theorem snow_without_pore_space_raises (im : ndarray Q) :
  let dt := squeeze im in
  (ndim dt = 2 \/ ndim dt = 3)%nat ->
  (forall x, inb (shape dt) x = true -> (get 0 dt x <= 0)%Q) ->
  snow im = Raise ValueError.
Proof.
  intros dt Hd Hs. pose proof (snow_cases im) as C. fold dt in C. cbv zeta in C.
  destruct (@find_peaks_returns dt 4) as [p2 F];
    [unfold dt; rewrite squeeze_squeeze; exact Hd|].
  rewrite F in C.
  assert (E2 : forall x, get false p2 x = false).
  { intros x. destruct (get false p2 x) eqn:P; [|reflexivity].
    pose proof (@find_peaks_in_pore dt 4 None p2 x F P) as Pos.
    unfold dt in Pos. rewrite squeeze_squeeze in Pos. fold dt in Pos.
    destruct (inb (shape dt) x) eqn:B.
    - specialize (Hs x B). lra.
    - rewrite get_outside in Pos by exact B. lra. }
  assert (E3 : forall x, inb (shape (trim_saddle_points p2 dt 10)) x = true ->
                         get false (trim_saddle_points p2 dt 10) x = false).
  { intros x _. destruct (get false (trim_saddle_points p2 dt 10) x) eqn:P; [|reflexivity].
    apply trim_saddle_points_subset in P. rewrite E2 in P. discriminate. }
  rewrite (trim_nearby_peaks_empty_raises _ dt E3) in C. exact C.
Qed.

Lemma snow_without_pore_space_raises_witness :
  (ndim (squeeze (full [3; 3]%nat 0%Q)) = 2 \/ ndim (squeeze (full [3; 3]%nat 0%Q)) = 3)%nat
  /\ snow (full [3; 3]%nat 0%Q) = Raise ValueError.
Proof.
  assert (H : (ndim (squeeze (full [3; 3]%nat 0%Q)) = 2
               \/ ndim (squeeze (full [3; 3]%nat 0%Q)) = 3)%nat) by (left; reflexivity).
  split; [exact H|].
  apply (@snow_without_pore_space_raises (full [3; 3]%nat 0%Q) H).
  intros x B. each_index x B; vm_compute; discriminate.
Defined.

(** X20.  A marker image returned by [snow] has the shape of the squeezed
    field, is positive exactly on the cells of the mask returned by
    [trim_nearby_peaks], and holds labels between 0 and the number of
    blobs of that mask. *)
Theorem snow_markers (im : ndarray Q) (markers : ndarray Z) :
  snow im = Ok markers ->
  exists p2 p4,
    find_peaks (squeeze im) 4 None = Ok p2
    /\ trim_nearby_peaks (trim_saddle_points p2 (squeeze im) 10) (squeeze im) = Ok p4
    /\ shape markers = shape (squeeze im)
    /\ forall x, inb (shape (squeeze im)) x = true ->
         (0 <? get 0 markers x) = get false p4 x
         /\ 0 <= get 0 markers x <= Z.of_nat (count_peaks p4).
Proof.
  intros S. pose proof (snow_cases im) as C. cbv zeta in C.
  destruct (find_peaks (squeeze im) 4 None) as [p2|e] eqn:F; [|congruence].
  destruct (trim_nearby_peaks (trim_saddle_points p2 (squeeze im) 10) (squeeze im))
    as [p4|e] eqn:T; [|congruence].
  rewrite S in C. injection C as ->.
  exists p2, p4. split; [reflexivity|]. split; [exact T|].
  assert (Sh : shape p4 = shape (squeeze im)).
  { rewrite trim_nearby_peaks_unfold in T.
    destruct (analysis _ _) as [nb|e']; simpl in T; [|discriminate].
    injection T as <-. simpl. rewrite clear_boxes_shape, label_shape.
    rewrite trim_saddle_points_shape. rewrite (find_peaks_shape _ _ _ F).
    rewrite squeeze_squeeze. reflexivity. }
  split; [rewrite label_shape; exact Sh|].
  intros x B. rewrite <- Sh in B. split.
  - apply label_positive. exact B.
  - split; [|apply label_le].
    pose proof (label_positive p4 (cross (ndim p4)) x B) as P.
    destruct (get false p4 x); [apply Z.ltb_lt in P; lia|].
    apply Z.ltb_ge in P.
    destruct (Z.eq_dec (get 0 (fst (label p4 (cross (ndim p4)))) x) 0) as [E|E]; [lia|].
    apply label_on_mask in E. apply Z.ltb_ge in P.
    pose proof (label_positive p4 (cross (ndim p4)) x B) as P'.
    rewrite E in P'. apply Z.ltb_lt in P'. lia.
Qed.

Lemma snow_markers_witness :
  let markers := returned (full [] 0) (snow low_high_dt) in
  snow low_high_dt = Ok markers
  /\ get 0 markers [1; 3] = 1
  /\ shape markers = shape (squeeze low_high_dt).
Proof.
  intros markers.
  assert (S : snow low_high_dt = Ok markers) by (vm_compute; reflexivity).
  split; [exact S | split; [vm_compute; reflexivity|]].
  destruct (@snow_markers low_high_dt markers S) as (p2 & p4 & _ & _ & Sh & _).
  exact Sh.
Defined.

(** ** Centroids *)

Lemma center_of_mass_map input labels index :
  center_of_mass input labels index = map (centroid input labels) index.
Proof. reflexivity. Qed.

Lemma Qfloor_div m t : 0 < t -> Qfloor (Qdiv (inject_Z m) (inject_Z t)) = m / t.
Proof.
  intros H. destruct t as [|p|p]; try lia.
  unfold Qdiv, Qinv, inject_Z, Qmult, Qfloor. simpl.
  rewrite Z.mul_1_r. reflexivity.
Qed.

Lemma trunc_div m t : 0 <= m -> 0 < t -> trunc (Qdiv (inject_Z m) (inject_Z t)) = m / t.
Proof.
  intros Hm H. destruct t as [|p|p]; try lia.
  unfold trunc, Qdiv, Qinv, inject_Z, Qmult. simpl.
  rewrite Z.mul_1_r. apply Z.quot_div_nonneg; lia.
Qed.

Lemma in_slice_nth s : forall x k,
  in_slice s x = true -> (k < length s)%nat ->
  fst (nth k s (0, 0)) <= nth k x 0 < snd (nth k s (0, 0)).
Proof.
  induction s as [|[lo hi] s IH]; intros [|i x] k H L; try discriminate; simpl in L; [lia|].
  apply in_slice_cons in H. destruct H as [B H].
  destruct k as [|k]; simpl; [exact B | apply IH; [exact H | lia]].
Qed.

Lemma in_slice_from_nth s : forall c,
  length c = length s ->
  (forall k, (k < length s)%nat ->
             fst (nth k s (0, 0)) <= nth k c 0 < snd (nth k s (0, 0))) ->
  in_slice s c = true.
Proof.
  induction s as [|[lo hi] s IH]; intros [|i c] L H; try discriminate; [reflexivity|].
  apply in_slice_cons. split.
  - apply (H 0%nat). simpl. lia.
  - apply IH; [simpl in L; lia|]. intros k Hk. apply (H (S k)). simpl. lia.
Qed.

Lemma in_full_box sh : forall x, in_slice (full_box sh) x = inb sh x.
Proof.
  induction sh as [|n sh IH]; intros [|i x]; try reflexivity.
  unfold full_box. simpl map. fold (full_box sh).
  destruct (inb (n :: sh) (i :: x)) eqn:E.
  - apply inb_cons in E. destruct E as [B E]. apply in_slice_cons.
    split; [exact B | rewrite IH; exact E].
  - destruct (in_slice ((0, Z.of_nat n) :: full_box sh) (i :: x)) eqn:S; [|reflexivity].
    apply in_slice_cons in S. destruct S as [B S]. rewrite IH in S.
    assert (X : inb (n :: sh) (i :: x) = true) by (apply inb_cons; auto).
    congruence.
Qed.

Lemma weighted_sums_bounds (input : ndarray Z) w k lo hi cells :
  0 < w ->
  (forall x, In x cells -> get 0 input x = w /\ lo <= nth k x 0 < hi) ->
  let total := fold_right (fun x acc => get 0 input x + acc) 0 cells in
  let moment := fold_right (fun x acc => get 0 input x * nth k x 0 + acc) 0 cells in
  total = w * Z.of_nat (length cells)
  /\ lo * total <= moment <= (hi - 1) * total.
Proof.
  intros W H. induction cells as [|x cells IH]; simpl; [lia|].
  destruct IH as [T M]; [intros y Hy; apply H; simpl; auto|].
  destruct (H x) as [E B]; [simpl; auto|].
  cbv zeta in *. rewrite E. split; [lia|]. nia.
Qed.

Lemma inb_nth_nonneg sh : forall x k, inb sh x = true -> 0 <= nth k x 0.
Proof.
  induction sh as [|n sh IH]; intros [|i x] k B; try discriminate.
  - destruct k; simpl; lia.
  - apply inb_cons in B. destruct B as [Bi B].
    destruct k as [|k]; simpl; [lia | apply IH; exact B].
Qed.

Lemma moment_nonneg (input : ndarray Z) w k cells sh :
  0 < w ->
  (forall x, In x cells -> get 0 input x = w /\ inb sh x = true) ->
  0 <= fold_right (fun x acc => get 0 input x * nth k x 0 + acc) 0 cells.
Proof.
  intros W H. induction cells as [|x cells IH]; simpl; [lia|].
  destruct (H x) as [E B]; [simpl; auto|].
  pose proof (inb_nth_nonneg sh x k B).
  assert (0 <= fold_right (fun x acc => get 0 input x * nth k x 0 + acc) 0 cells)
    by (apply IH; intros y Hy; apply H; simpl; auto).
  rewrite E. nia.
Qed.

(** The centre of mass of a blob of constant weight lies in any box that
    holds the blob, also after rounding down. *)
Lemma centroid_in_box input labels l s w y :
  0 < w ->
  (forall x, inb (shape labels) x = true -> get 0 labels x = Z.of_nat l ->
             get 0 input x = w /\ in_slice s x = true) ->
  inb (shape labels) y = true -> get 0 labels y = Z.of_nat l ->
  in_slice s (map Qfloor (centroid input labels l)) = true
  /\ in_slice s (map trunc (centroid input labels l)) = true.
Proof.
  intros W H By Ly. unfold centroid. cbv zeta.
  set (cells := filter (fun x => get 0 labels x =? Z.of_nat l) (ndindex (shape labels))).
  assert (Hc : forall x, In x cells -> get 0 input x = w /\ in_slice s x = true).
  { intros x Hx. apply filter_In in Hx. destruct Hx as [Hx E].
    apply in_ndindex in Hx. apply Z.eqb_eq in E. apply H; assumption. }
  assert (Iy : In y cells).
  { apply filter_In. split; [apply in_ndindex; exact By | apply Z.eqb_eq; exact Ly]. }
  assert (Ls : length s = ndim labels).
  { destruct (Hc y Iy) as [_ S]. apply in_slice_length in S.
    apply inb_length in By. unfold ndim. lia. }
  assert (Pos : 0 < Z.of_nat (length cells)).
  { destruct cells; [destruct Iy | simpl; lia]. }
  assert (K : forall k, (k < length s)%nat ->
            let total := fold_right (fun x acc => get 0 input x + acc) 0 cells in
            let moment := fold_right (fun x acc => get 0 input x * nth k x 0 + acc) 0 cells in
            0 < total
            /\ fst (nth k s (0, 0)) * total <= moment
               <= (snd (nth k s (0, 0)) - 1) * total).
  { intros k Hk.
    destruct (@weighted_sums_bounds input w k (fst (nth k s (0, 0)))
                (snd (nth k s (0, 0))) cells W) as [T M].
    - intros x Hx. destruct (Hc x Hx) as [E S]. split; [exact E|].
      apply in_slice_nth; assumption.
    - cbv zeta. split; [nia | exact M]. }
  assert (D : forall k, (k < length s)%nat ->
            let total := fold_right (fun x acc => get 0 input x + acc) 0 cells in
            let moment := fold_right (fun x acc => get 0 input x * nth k x 0 + acc) 0 cells in
            fst (nth k s (0, 0)) <= moment / total < snd (nth k s (0, 0))).
  { intros k Hk. destruct (K k Hk) as [T [M1 M2]]. cbv zeta in *. split.
    - apply Z.div_le_lower_bound; [exact T | lia].
    - apply Z.div_lt_upper_bound; [exact T | nia]. }
  match goal with
  | |- context [map ?F (seq 0 (ndim labels))] => set (Fn := F)
  end.
  assert (Nth : forall (g : Q -> Z) k, (k < length s)%nat ->
            nth k (map g (map Fn (seq 0 (ndim labels)))) 0 = g (Fn k)).
  { intros g k Hk. rewrite map_map.
    rewrite nth_indep with (d' := (fun k => g (Fn k)) 0%nat)
      by (rewrite length_map, length_seq; lia).
    rewrite (map_nth (fun k => g (Fn k))).
    rewrite seq_nth by lia. reflexivity. }
  split.
  - apply in_slice_from_nth; [rewrite !length_map, length_seq; lia|].
    intros k Hk. rewrite (Nth Qfloor k Hk). unfold Fn. cbv beta.
    destruct (K k Hk) as [T _]. cbv zeta in T.
    rewrite Qfloor_div by exact T. apply D. exact Hk.
  - apply in_slice_from_nth; [rewrite !length_map, length_seq; lia|].
    intros k Hk. rewrite (Nth trunc k Hk). unfold Fn. cbv beta.
    destruct (K k Hk) as [T _]. cbv zeta in T.
    rewrite trunc_div; [apply D; exact Hk | | exact T].
    apply (@moment_nonneg input w k cells (shape labels)); [exact W|].
    intros x Hx. split; [apply (Hc x Hx)|].
    apply filter_In in Hx. destruct Hx as [Hx _]. apply in_ndindex in Hx. exact Hx.
Qed.

(** ** Centroids in [trim_nearby_peaks] *)

Lemma analyse_crds labels N dt nb :
  analyse labels N dt = Ok nb ->
  crds nb = map (map trunc) (center_of_mass labels labels (seq 1 N)).
Proof.
  unfold analyse.
  destruct (vstack_int (center_of_mass labels labels (seq 1 N))) as [r|e] eqn:V;
    simpl; [|discriminate].
  intros H. injection H as <-. simpl.
  unfold vstack_int in V.
  destruct (center_of_mass labels labels (seq 1 N)); [discriminate|].
  injection V as <-. reflexivity.
Qed.

Lemma nth_crds labels N dt nb i :
  analyse labels N dt = Ok nb -> (i < N)%nat ->
  nth i (crds nb) [] = map trunc (centroid labels labels (i + 1)).
Proof.
  intros A L. rewrite (analyse_crds _ _ _ A), center_of_mass_map, map_map.
  rewrite nth_indep with (d' := (fun l => map trunc (centroid labels labels l)) 0%nat)
    by (rewrite length_map, length_seq; exact L).
  rewrite (map_nth (fun l => map trunc (centroid labels labels l))).
  rewrite seq_nth by exact L. f_equal. f_equal. lia.
Qed.

(** X17.  The centroid of every blob, truncated to integers, lies inside
    the bounding box of the blob and so inside the image, and the blob's
    distance to solid is the field value at that cell: the look-up
    [dt[crds]] never leaves the array. *)
Theorem centroid_lookup_in_bounds (peaks : ndarray bool) (dt : ndarray Q)
    (nb : neighbours) (i : nat) (y : coord) :
  let labels := fst (label peaks ((if (ndim dt =? 2)%nat then square else cube) 3%nat)) in
  analysis peaks dt = Ok nb ->
  inb (shape peaks) y = true ->
  get 0 labels y = Z.of_nat (i + 1) ->
  let c := nth i (crds nb) [] in
  inb (shape peaks) c = true
  /\ (exists b, nth i (find_objects labels) None = Some b /\ in_slice b c = true)
  /\ nth i (dist_to_solid nb) 0%Q = get 0%Q dt c.
Proof.
  intros labels A B E c.
  set (st := (if (ndim dt =? 2)%nat then square else cube) 3%nat) in *.
  assert (Sl : shape labels = shape peaks) by apply label_shape.
  assert (Li : (i < snd (label peaks st))%nat).
  { pose proof (label_le peaks st y) as L. fold labels in L. lia. }
  unfold analysis in A. fold st labels in A.
  assert (C : c = map trunc (centroid labels labels (i + 1))).
  { unfold c. eapply nth_crds; eauto. }
  destruct (find_objects_covers labels i y) as (b & Hb & Hy);
    [rewrite Sl; exact B | exact E |].
  assert (W : 0 < Z.of_nat (i + 1)) by lia.
  split; [|split].
  - rewrite <- in_full_box, C, <- Sl.
    apply (@centroid_in_box labels labels (i + 1) (full_box (shape labels))
             (Z.of_nat (i + 1)) y W); [|rewrite Sl; exact B | exact E].
    intros x Bx Ex. split; [exact Ex | rewrite in_full_box; exact Bx].
  - exists b. split; [exact Hb|]. rewrite C.
    apply (@centroid_in_box labels labels (i + 1) b (Z.of_nat (i + 1)) y W);
      [|rewrite Sl; exact B | exact E].
    intros x Bx Ex. split; [exact Ex|].
    destruct (find_objects_covers labels i x Bx Ex) as (b' & Hb' & Hx).
    rewrite Hb in Hb'. injection Hb' as <-. exact Hx.
  - destruct (analyse_fields _ _ _ A) as (_ & _ & _ & Hs & _).
    destruct (analyse_length _ _ _ A) as [Lc _].
    rewrite Hs.
    rewrite nth_indep with (d' := get 0%Q dt []) by (rewrite length_map; lia).
    apply (map_nth (get 0%Q dt)).
Qed.

Lemma centroid_lookup_in_bounds_witness :
  let labels := fst (label corner_peaks
                       ((if (ndim corner_dt =? 2)%nat then square else cube) 3%nat)) in
  let nb := returned (mkNeighbours [] [] [] [] [] []) (analysis corner_peaks corner_dt) in
  analysis corner_peaks corner_dt = Ok nb
  /\ get 0 labels [3; 3] = Z.of_nat (0 + 1)
  /\ nth 0 (crds nb) [] = [2; 0]
  /\ inb (shape corner_peaks) (nth 0 (crds nb) []) = true.
Proof.
  intros labels nb.
  assert (A : analysis corner_peaks corner_dt = Ok nb) by (vm_compute; reflexivity).
  assert (E : get 0 labels [3; 3] = Z.of_nat (0 + 1)) by (vm_compute; reflexivity).
  split; [exact A | split; [exact E | split; [vm_compute; reflexivity|]]].
  destruct (@centroid_lookup_in_bounds corner_peaks corner_dt nb 0%nat [3; 3] A)
    as [I _]; [reflexivity | exact E | exact I].
Defined.

(** ** [reduce_peaks_to_points] *)

(** X22.  For a 3-dimensional mask with at most one blob the index list
    [range(1, N)] is empty and the assignment sets the whole image: the
    result is all [True]. *)
Theorem reduce_peaks_to_points_few_blobs (peaks : ndarray bool) :
  ndim peaks = 3%nat ->
  (snd (label peaks (cube 3)) <= 1)%nat ->
  reduce_peaks_to_points peaks = Some (full (shape peaks) true).
Proof.
  intros R N1. unfold reduce_peaks_to_points.
  apply Nat.eqb_eq in R. rewrite R.
  destruct (label peaks (cube 3)) as [markers N]. simpl in N1.
  replace (N - 1)%nat with 0%nat by lia. reflexivity.
Qed.

Lemma reduce_peaks_to_points_few_blobs_witness :
  ndim one_cell_3d = 3%nat
  /\ (snd (label one_cell_3d (cube 3)) <= 1)%nat
  /\ reduce_peaks_to_points one_cell_3d = Some (full (shape one_cell_3d) true).
Proof.
  assert (R : ndim one_cell_3d = 3%nat) by reflexivity.
  assert (N : (snd (label one_cell_3d (cube 3)) <= 1)%nat) by (vm_compute; lia).
  split; [exact R | split; [exact N|]].
  apply (@reduce_peaks_to_points_few_blobs one_cell_3d R N).
Defined.

Lemma filter_eqb_le_1 c l :
  NoDup l -> (length (filter (fun x => coord_eqb x c) l) <= 1)%nat.
Proof.
  induction l as [|a l IH]; intros N; simpl; [lia|].
  inversion N as [|? ? Na Nl]; subst.
  destruct (coord_eqb a c) eqn:E; [|apply IH; exact Nl].
  apply coord_eqb_eq in E. subst a. simpl.
  replace (filter (fun x => coord_eqb x c) l) with (@nil coord); [simpl; lia|].
  symmetry. destruct (filter (fun x => coord_eqb x c) l) as [|b l'] eqn:F; [reflexivity|].
  assert (I : In b (filter (fun x => coord_eqb x c) l)) by (rewrite F; simpl; auto).
  apply filter_In in I. destruct I as [I Eb]. apply coord_eqb_eq in Eb. subst b.
  contradiction.
Qed.

Lemma filter_existsb_le inds l :
  NoDup l ->
  (length (filter (fun x => existsb (coord_eqb x) inds) l) <= length inds)%nat.
Proof.
  intros N. induction inds as [|c inds IH]; simpl.
  - induction l as [|a l IHl]; simpl; [lia|]. inversion N; subst. auto.
  - assert (G : (length (filter (fun x => coord_eqb x c || existsb (coord_eqb x) inds) l)
                 <= length (filter (fun x => coord_eqb x c) l)
                    + length (filter (fun x => existsb (coord_eqb x) inds) l))%nat).
    { clear. induction l as [|a l IHl]; simpl; [lia|].
      destruct (coord_eqb a c); destruct (existsb (coord_eqb a) inds); simpl; lia. }
    pose proof (filter_eqb_le_1 c N). lia.
Qed.

(** X23.  For a 3-dimensional mask with [N >= 2] blobs the set cells of the
    result are exactly the rounded-down centroids of the blobs 1 to
    [N - 1], so there are at most [N - 1] of them and the blob with the
    highest label contributes none.  The point of each of those blobs lies
    inside the blob's bounding box, hence inside the image. *)
Theorem reduce_peaks_to_points_loses_last_blob (peaks out : ndarray bool) :
  let markers := fst (label peaks (cube 3)) in
  let N := snd (label peaks (cube 3)) in
  let point l := map Qfloor (centroid (as_int peaks) markers l) in
  reduce_peaks_to_points peaks = Some out ->
  (2 <= N)%nat ->
  (forall x, inb (shape peaks) x = true ->
             (get false out x = true <-> exists l, (1 <= l < N)%nat /\ x = point l))
  /\ (asum out <= N - 1)%nat
  /\ (forall l y, (1 <= l < N)%nat -> inb (shape peaks) y = true ->
                  get 0 markers y = Z.of_nat l ->
                  inb (shape peaks) (point l) = true
                  /\ get false out (point l) = true
                  /\ exists b, bounding_box markers (Z.of_nat l) = Some b
                               /\ in_slice b (point l) = true).
Proof.
  intros markers N point R N2.
  unfold reduce_peaks_to_points in R.
  destruct (ndim peaks =? 3)%nat; [|discriminate].
  assert (EL : label peaks (cube 3) = (markers, N)) by (unfold markers, N; destruct (label _ _); reflexivity).
  rewrite EL in R. rewrite center_of_mass_map, map_map in R.
  fold point in R.
  set (inds := map (fun l => point l) (seq 1 (N - 1))) in *.
  assert (NE : inds <> []).
  { unfold inds. destruct (N - 1)%nat eqn:E; [lia | discriminate]. }
  assert (O : out = tabulate (shape peaks)
                      (fun x => existsb (coord_eqb x) inds
                                || get false (full (shape peaks) false) x)).
  { unfold set_points in R. destruct inds; [congruence|]. injection R as <-. reflexivity. }
  assert (G : forall x, inb (shape peaks) x = true ->
                        get false out x = existsb (coord_eqb x) inds).
  { intros x B. rewrite O, get_tabulate by exact B.
    unfold full. rewrite get_tabulate by exact B. apply orb_false_r. }
  assert (I : forall x, existsb (coord_eqb x) inds = true <->
                        exists l, (1 <= l < N)%nat /\ x = point l).
  { intros x. rewrite existsb_exists. split.
    - intros [c [Hc E]]. apply coord_eqb_eq in E. subst c.
      unfold inds in Hc. apply in_map_iff in Hc. destruct Hc as [l [E Hl]].
      apply in_seq in Hl. exists l. split; [lia | congruence].
    - intros [l [Hl ->]]. exists (point l). split; [|apply coord_eqb_eq; reflexivity].
      unfold inds. apply in_map_iff. exists l. split; [reflexivity | apply in_seq; lia]. }
  assert (Sm : shape markers = shape peaks) by apply label_shape.
  split; [|split].
  - intros x B. rewrite (G x B). apply I.
  - unfold asum. rewrite O. simpl shape.
    rewrite (filter_ext_in (get false (tabulate (shape peaks)
               (fun x => existsb (coord_eqb x) inds
                         || get false (full (shape peaks) false) x)))
                           (fun x => existsb (coord_eqb x) inds)).
    + pose proof (filter_existsb_le inds (NoDup_ndindex (shape peaks))) as L.
      unfold inds in L at 2. rewrite length_map, length_seq in L. exact L.
    + intros x Hx. apply in_ndindex in Hx. rewrite <- O. apply G. exact Hx.
  - intros l y Hl By Ly.
    assert (Wy : forall x, inb (shape markers) x = true -> get 0 markers x = Z.of_nat l ->
                           get 0 (as_int peaks) x = 1).
    { intros x Bx Ex. unfold as_int. rewrite Sm in Bx.
      rewrite get_tabulate by exact Bx.
      assert (M : get false peaks x = true).
      { apply (label_on_mask peaks (cube 3)). fold markers. lia. }
      rewrite M. reflexivity. }
    assert (P : inb (shape peaks) (point l) = true).
    { rewrite <- in_full_box, <- Sm. unfold point.
      apply (@centroid_in_box (as_int peaks) markers l (full_box (shape markers)) 1 y);
        [lia | | rewrite Sm; exact By | exact Ly].
      intros x Bx Ex. split; [apply Wy; assumption | rewrite in_full_box; exact Bx]. }
    split; [exact P|]. split.
    + rewrite (G _ P). apply I. exists l. auto.
    + destruct (@bounding_box_covers markers (Z.of_nat l) y) as (b & Hb & Hy);
        [rewrite Sm; exact By | exact Ly |].
      exists b. split; [exact Hb|]. unfold point.
      apply (@centroid_in_box (as_int peaks) markers l b 1 y);
        [lia | | rewrite Sm; exact By | exact Ly].
      intros x Bx Ex. split; [apply Wy; assumption|].
      destruct (@bounding_box_covers markers (Z.of_nat l) x Bx Ex) as (b' & Hb' & Hx).
      rewrite Hb in Hb'. injection Hb' as <-. exact Hx.
Qed.

Lemma reduce_peaks_to_points_loses_last_blob_witness :
  let out := match reduce_peaks_to_points three_cells_3d with
             | Some a => a
             | None => full [] false
             end in
  reduce_peaks_to_points three_cells_3d = Some out
  /\ snd (label three_cells_3d (cube 3)) = 3%nat
  /\ get false out [0; 0; 4] = false
  /\ (asum out <= 3 - 1)%nat.
Proof.
  intros out.
  assert (R : reduce_peaks_to_points three_cells_3d = Some out) by (vm_compute; reflexivity).
  assert (N : snd (label three_cells_3d (cube 3)) = 3%nat) by (vm_compute; reflexivity).
  split; [exact R | split; [exact N | split; [vm_compute; reflexivity|]]].
  destruct (@reduce_peaks_to_points_loses_last_blob three_cells_3d out R) as (_ & C & _).
  - rewrite N. lia.
  - rewrite N in C. exact C.
Defined.
